(** * go-keyring on Unix: providers over Secret Service and the kernel keyring

    A shallow embedding of the Unix providers of go-keyring:

    - [compositeProvider] and [secretServiceProvider] (keyring_unix.go),
    - [keyctlProvider] (keyring_keyctl.go, and its two earlier revisions
      that resolve the session keyring instead of the persistent one).

    Go strings are byte strings and are modelled by [string] (a list of
    8-bit characters).  Go's [error] values are modelled by the type
    [error]; a nil error is [None].  Functions that talk to the outside
    (the D-Bus daemon, the kernel, a subprocess) are state transformers on
    a world [W]; the calls they make are the fields of the classes
    [ss.SecretService], [unix.Syscalls] and [exec.Commands], named after
    the Go packages.  A model of the kernel keyring and one of the daemon
    follow, on which the code of the providers is run. *)

From Stdlib Require Import ZArith String Ascii List Bool Lia DecimalString.
Import ListNotations.

Local Open Scope string_scope.
Local Open Scope Z_scope.

(** ** Bytes and slices *)

Definition byte_of (c : ascii) : Z := Z.of_N (N_of_ascii c).

Definition ascii_of_byte (b : Z) : ascii := ascii_of_N (Z.to_N b).

(** The line feed; Rocq string literals have no escapes. *)
Definition LF : string := String (ascii_of_byte 10) "".

(** [s[n:]] *)
Fixpoint slice_from (n : nat) (s : string) : string :=
  match n, s with
  | O, _ => s
  | S _, EmptyString => EmptyString
  | S n', String _ s' => slice_from n' s'
  end.

(** [s[:n]] *)
Fixpoint slice_to (n : nat) (s : string) : string :=
  match n, s with
  | O, _ => EmptyString
  | S _, EmptyString => EmptyString
  | S n', String c s' => String c (slice_to n' s')
  end.

(** [len(s)] as a Go [int]. *)
Definition len (s : string) : Z := Z.of_nat (String.length s).

(** [make([]byte, n)] *)
Fixpoint make (n : nat) : string :=
  match n with
  | O => EmptyString
  | S n' => String (ascii_of_byte 0) (make n')
  end.

(** ** Package unicode/utf8 and unicode.IsSpace *)

Module utf8.

Definition RuneError : Z := 65533.
Definition RuneSelf : Z := 128.
Definition UTFMax : nat := 4.

(** The table [first]: information about the first byte of a sequence.
    [0xF0] is ASCII, [0xF1] is invalid; otherwise the low three bits are
    the size and the high four bits index [acceptRanges]. *)
Definition first (b : Z) : Z :=
  if b <? 128 then 240
  else if b <? 194 then 241
  else if b <? 224 then 2
  else if b =? 224 then 19
  else if b <? 237 then 3
  else if b =? 237 then 35
  else if b <? 240 then 3
  else if b =? 240 then 52
  else if b <? 244 then 4
  else if b =? 244 then 68
  else 241.

Definition acceptRanges (i : Z) : Z * Z :=
  if i =? 1 then (160, 191)
  else if i =? 2 then (128, 159)
  else if i =? 3 then (144, 191)
  else if i =? 4 then (128, 143)
  else (128, 191).

Definition cont (b : Z) : bool := (128 <=? b) && (b <=? 191).

Definition DecodeRuneInString (s : string) : Z * nat :=
  match s with
  | EmptyString => (RuneError, 0%nat)
  | String c0 t =>
    let s0 := byte_of c0 in
    let x := first s0 in
    if 240 <=? x then ((if Z.testbit x 0 then RuneError else s0), 1%nat)
    else
      let sz := Z.land x 7 in
      let '(lo, hi) := acceptRanges (Z.shiftr x 4) in
      if len s <? sz then (RuneError, 1%nat)
      else match t with
      | EmptyString => (RuneError, 1%nat)
      | String c1 t1 =>
        let s1 := byte_of c1 in
        if (s1 <? lo) || (hi <? s1) then (RuneError, 1%nat)
        else if sz <=? 2
        then (Z.lor (Z.shiftl (Z.land s0 31) 6) (Z.land s1 63), 2%nat)
        else match t1 with
        | EmptyString => (RuneError, 1%nat)
        | String c2 t2 =>
          let s2 := byte_of c2 in
          if negb (cont s2) then (RuneError, 1%nat)
          else if sz <=? 3
          then (Z.lor (Z.lor (Z.shiftl (Z.land s0 15) 12)
                             (Z.shiftl (Z.land s1 63) 6))
                      (Z.land s2 63), 3%nat)
          else match t2 with
          | EmptyString => (RuneError, 1%nat)
          | String c3 _ =>
            let s3 := byte_of c3 in
            if negb (cont s3) then (RuneError, 1%nat)
            else (Z.lor (Z.lor (Z.lor (Z.shiftl (Z.land s0 7) 18)
                                      (Z.shiftl (Z.land s1 63) 12))
                               (Z.shiftl (Z.land s2 63) 6))
                        (Z.land s3 63), 4%nat)
          end
        end
      end
  end.

Definition RuneStart (b : Z) : bool := negb (Z.land b 192 =? 128).

(** The backward scan of [DecodeLastRuneInString]: from [start], step
    down to [lim] until a byte that can start a rune. *)
Fixpoint scanStart (s : string) (start : nat) (steps : nat) : nat :=
  match steps with
  | O => start
  | S k =>
    match String.get start s with
    | Some c => if RuneStart (byte_of c) then start
                else match start with
                     | O => O
                     | S p => scanStart s p k
                     end
    | None => start
    end
  end.

Definition DecodeLastRuneInString (s : string) : Z * nat :=
  let n := String.length s in
  match n with
  | O => (RuneError, 0%nat)
  | S last =>
    match String.get last s with
    | None => (RuneError, 0%nat)
    | Some c =>
      let r := byte_of c in
      if r <? RuneSelf then (r, 1%nat)
      else
        match last with
        | O => (RuneError, 1%nat)
        | S p =>
          let start := scanStart s p (UTFMax - 1) in
          let '(r', size) := DecodeRuneInString (slice_from start s) in
          if Nat.eqb (start + size) n then (r', size) else (RuneError, 1%nat)
        end
    end
  end.

End utf8.

Module unicode.

Definition IsSpace (r : Z) : bool :=
  if r <=? 255
  then ((9 <=? r) && (r <=? 13)) || (r =? 32) || (r =? 133) || (r =? 160)
  else (r =? 5760) || ((8192 <=? r) && (r <=? 8202)) || (r =? 8232)
       || (r =? 8233) || (r =? 8239) || (r =? 8287) || (r =? 12288).

End unicode.

(** ** Package strings *)

Module strings.

(** [HasPrefix(s, prefix)]: [s] begins with [prefix]. *)
Fixpoint HasPrefix (s prefix : string) : bool :=
  match prefix, s with
  | EmptyString, _ => true
  | String _ _, EmptyString => false
  | String a p', String b s' => Ascii.eqb a b && HasPrefix s' p'
  end.

(** [Index(s, substr)]: index of the first instance of [substr] in [s],
    or -1. *)
Fixpoint Index (s substr : string) : Z :=
  if HasPrefix s substr then 0
  else match s with
       | EmptyString => -1
       | String _ s' =>
         let i := Index s' substr in
         if i <? 0 then -1 else i + 1
       end.

Definition Contains (s substr : string) : bool := 0 <=? Index s substr.

(** [explode]: split after each UTF-8 sequence ([Split] with an empty
    separator). *)
Fixpoint explode (fuel : nat) (s : string) : list string :=
  match fuel with
  | O => []
  | S k =>
    match s with
    | EmptyString => []
    | _ =>
      let size := snd (utf8.DecodeRuneInString s) in
      slice_to size s :: explode k (slice_from size s)
    end
  end.

(** The loop of [genSplit] for a separator that is not empty: cut at the
    first instance, continue behind it.  [n] bounds the number of cuts. *)
Fixpoint genSplit (n : nat) (s sep : string) : list string :=
  match n with
  | O => [s]
  | S n' =>
    let m := Index s sep in
    if m <? 0 then [s]
    else slice_to (Z.to_nat m) s
         :: genSplit n' (slice_from (Z.to_nat m + String.length sep) s) sep
  end.

(** [Split(s, sep)].  A string of length [n] has at most [n] instances of
    a separator that is not empty, see [genSplit_enough]. *)
Definition Split (s sep : string) : list string :=
  match sep with
  | EmptyString => explode (String.length s) s
  | _ => genSplit (String.length s) s sep
  end.

Definition asciiSpace (b : Z) : bool :=
  ((9 <=? b) && (b <=? 13)) || (b =? 32).

(** [indexFunc(s, f, false)] followed by the slice of [TrimLeftFunc]. *)
Fixpoint trimLeftLoop (fuel : nat) (f : Z -> bool) (s : string) : string :=
  match fuel with
  | O => EmptyString
  | S k =>
    match s with
    | EmptyString => EmptyString
    | _ =>
      let '(r, size) := utf8.DecodeRuneInString s in
      if f r then trimLeftLoop k f (slice_from size s) else s
    end
  end.

Definition TrimLeftFunc (s : string) (f : Z -> bool) : string :=
  trimLeftLoop (String.length s) f s.

(** [lastIndexFunc(s, f, false)]: [i] runs down from [len(s)]. *)
Fixpoint lastIndexFunc (fuel : nat) (f : Z -> bool) (s : string) (i : nat)
  : Z :=
  match fuel with
  | O => -1
  | S k =>
    match i with
    | O => -1
    | _ =>
      let '(r, size) := utf8.DecodeLastRuneInString (slice_to i s) in
      let i' := (i - size)%nat in
      if f r then lastIndexFunc k f s i' else Z.of_nat i'
    end
  end.

Definition TrimRightFunc (s : string) (f : Z -> bool) : string :=
  let i := lastIndexFunc (String.length s) f s (String.length s) in
  let high :=
    match String.get (Z.to_nat i) s with
    | Some c => (0 <=? i) && (utf8.RuneSelf <=? byte_of c)
    | None => false
    end in
  if high
  then slice_to (Z.to_nat i
                 + snd (utf8.DecodeRuneInString (slice_from (Z.to_nat i) s))) s
  else slice_to (Z.to_nat (i + 1)) s.

Definition TrimFunc (s : string) (f : Z -> bool) : string :=
  TrimRightFunc (TrimLeftFunc s f) f.

(** The second loop of [TrimSpace]: [s] is [s[start:]], [stop] runs down. *)
Fixpoint trimSpaceStop (s : string) (stop : nat) : string :=
  match stop with
  | O => EmptyString
  | S stop' =>
    match String.get stop' s with
    | None => EmptyString
    | Some c =>
      if utf8.RuneSelf <=? byte_of c
      then TrimRightFunc (slice_to stop s) unicode.IsSpace
      else if asciiSpace (byte_of c) then trimSpaceStop s stop'
      else slice_to stop s
    end
  end.

(** [TrimSpace(s)]: the first loop looks for the first byte that is not
    an ASCII space and hands over to the Unicode functions at the first
    byte that is not ASCII. *)
Fixpoint TrimSpace (s : string) : string :=
  match s with
  | EmptyString => EmptyString
  | String c s' =>
    if utf8.RuneSelf <=? byte_of c then TrimFunc s unicode.IsSpace
    else if asciiSpace (byte_of c) then TrimSpace s'
    else trimSpaceStop s (String.length s)
  end.

End strings.

(** ** Package fmt: the three format strings the providers use *)

Module fmt.

(** [Sprintf("%s:%s", a, b)] *)
Definition Sprintf_s_colon_s (a b : string) : string := a ++ ":" ++ b.

(** [Sprintf("%s:", a)] *)
Definition Sprintf_s_colon (a : string) : string := a ++ ":".

(** [Sprintf("%d", n)] *)
Definition Sprintf_d (n : Z) : string := NilZero.string_of_int (Z.to_int n).

End fmt.

(** ** Errors, results and the world monad *)

(** Go's [error] values.  [ErrNotFound] is the package's sentinel; it is
    compared with [==] in the code, which is [error_eqb] here. *)
Inductive error : Type :=
| ErrNotFound
| Errno (e : Z)                            (* unix.Errno *)
| wrapError (msg : string) (err : error)   (* fmt.Errorf("msg: %w", err) *)
| errorString (msg : string).              (* any other error *)

Fixpoint error_eqb (a b : error) : bool :=
  match a, b with
  | ErrNotFound, ErrNotFound => true
  | Errno x, Errno y => x =? y
  | wrapError m x, wrapError n y => String.eqb m n && error_eqb x y
  | errorString m, errorString n => String.eqb m n
  | _, _ => false
  end.

(** What a library call returns: a value, or a non-nil error. *)
Inductive result (A : Type) : Type :=
| Ok (a : A)
| Err (err : error).

Arguments Ok {A} a.
Arguments Err {A} err.

(** A computation on the world [W]. *)
Definition M (W A : Type) : Type := W -> A * W.

Definition ret {W A : Type} (a : A) : M W A := fun w => (a, w).

Definition bind {W A B : Type} (c : M W A) (k : A -> M W B) : M W B :=
  fun w => let (a, w') := c w in k a w'.

Notation "x <- c ;; k" := (bind c (fun x => k))
  (at level 61, c at next level, right associativity).

(** [defer d] around a body: [d] runs when the body returns, whatever it
    returns; what [d] returns is dropped. *)
Definition defer {W A B : Type} (d : M W A) (body : M W B) : M W B :=
  r <- body ;; _ <- d ;; ret r.

(** [for _, x := range xs { body }] *)
Fixpoint forRange {W A : Type} (xs : list A) (body : A -> M W unit)
  : M W unit :=
  match xs with
  | [] => ret tt
  | x :: xs' => _ <- body x ;; forRange xs' body
  end.

(** ** The [Keyring] interface *)

Module Keyring.

Record t (W : Type) : Type := Build {
  Set_ : string -> string -> string -> M W (option error);
  Get : string -> string -> M W (string * option error);
  Delete : string -> string -> M W (option error);
  DeleteAll : string -> M W (option error)
}.

Arguments Build {W}.
Arguments Set_ {W}.
Arguments Get {W}.
Arguments Delete {W}.
Arguments DeleteAll {W}.

End Keyring.

(** ** compositeProvider *)

Module compositeProvider.

(** A nil [fallback] is [None]. *)
Record t (W : Type) : Type := Build {
  primary : Keyring.t W;
  fallback : option (Keyring.t W)
}.

Arguments Build {W}.
Arguments primary {W}.
Arguments fallback {W}.

Section Methods.
Context {W : Type}.
Variable c : t W.

Definition Set_ (service user pass : string) : M W (option error) :=
  err <- Keyring.Set_ (primary c) service user pass ;;
  match err, fallback c with
  | Some _, Some fb => Keyring.Set_ fb service user pass
  | _, _ => ret err
  end.

Definition Get (service user : string) : M W (string * option error) :=
  r <- Keyring.Get (primary c) service user ;;
  match snd r, fallback c with
  | Some _, Some fb => Keyring.Get fb service user
  | _, _ => ret r
  end.

Definition Delete (service user : string) : M W (option error) :=
  err <- Keyring.Delete (primary c) service user ;;
  match err, fallback c with
  | Some _, Some fb => Keyring.Delete fb service user
  | _, _ => ret err
  end.

Definition DeleteAll (service : string) : M W (option error) :=
  err <- Keyring.DeleteAll (primary c) service ;;
  match err, fallback c with
  | Some _, Some fb => Keyring.DeleteAll fb service
  | _, _ => ret err
  end.

Definition keyring : Keyring.t W :=
  Keyring.Build Set_ Get Delete DeleteAll.

End Methods.

End compositeProvider.

(** ** The Secret Service client

    The calls of package secret_service and of dbus that
    [secretServiceProvider] makes.  Nothing is assumed about what they
    return; the theorems below hold for every daemon. *)

Definition ObjectPath : Type := string.

Module ss.

Class SecretService (W : Type) : Type := {
  Conn : Type;                                   (* *ss.SecretService *)
  Secret : Type;                                 (* *ss.Secret *)
  NewSecretService : M W (result Conn);
  OpenSession : Conn -> M W (result ObjectPath);
  Close : Conn -> ObjectPath -> M W (option error);
  GetLoginCollection : Conn -> ObjectPath;
  Unlock : Conn -> ObjectPath -> M W (option error);
  CreateItem : Conn -> ObjectPath -> string -> list (string * string)
               -> Secret -> M W (option error);
  SearchItems : Conn -> ObjectPath -> list (string * string)
                -> M W (result (list ObjectPath));
  GetSecret : Conn -> ObjectPath -> ObjectPath -> M W (result Secret);
  Delete : Conn -> ObjectPath -> M W (option error);   (* svc.Delete *)
  NewSecret : ObjectPath -> string -> Secret;
  Value : Secret -> string
}.

End ss.

(** ** secretServiceProvider *)

Module secretServiceProvider.

Section Methods.
Context {W : Type} {SS : ss.SecretService W}.

Definition Set_ (service user pass : string) : M W (option error) :=
  r <- ss.NewSecretService ;;
  match r with
  | Err err => ret (Some err)
  | Ok svc =>
    r <- ss.OpenSession svc ;;
    match r with
    | Err err => ret (Some err)
    | Ok session =>
      defer (ss.Close svc session)
        (let attributes := [("username", user); ("service", service)] in
         let secret := ss.NewSecret session pass in
         let collection := ss.GetLoginCollection svc in
         err <- ss.Unlock svc collection ;;
         match err with
         | Some _ => ret err
         | None =>
           err <- ss.CreateItem svc collection
                    ("Password for '" ++ user ++ "' on '" ++ service ++ "'")
                    attributes secret ;;
           match err with
           | Some _ => ret err
           | None => ret None
           end
         end)
    end
  end.

Definition findItem (svc : ss.Conn) (service user : string)
  : M W (ObjectPath * option error) :=
  let collection := ss.GetLoginCollection svc in
  let search := [("username", user); ("service", service)] in
  err <- ss.Unlock svc collection ;;
  match err with
  | Some _ => ret ("", err)
  | None =>
    r <- ss.SearchItems svc collection search ;;
    match r with
    | Err err => ret ("", Some err)
    | Ok results =>
      match results with
      | [] => ret ("", Some ErrNotFound)
      | first :: _ => ret (first, None)
      end
    end
  end.

Definition findServiceItems (svc : ss.Conn) (service : string)
  : M W (list ObjectPath * option error) :=
  let collection := ss.GetLoginCollection svc in
  let search := [("service", service)] in
  err <- ss.Unlock svc collection ;;
  match err with
  | Some _ => ret ([], err)
  | None =>
    r <- ss.SearchItems svc collection search ;;
    match r with
    | Err err => ret ([], Some err)
    | Ok results =>
      if (List.length results =? 0)%nat then ret ([], Some ErrNotFound)
      else ret (results, None)
    end
  end.

Definition Get (service user : string) : M W (string * option error) :=
  r <- ss.NewSecretService ;;
  match r with
  | Err err => ret ("", Some err)
  | Ok svc =>
    r <- findItem svc service user ;;
    match r with
    | (_, Some err) => ret ("", Some err)
    | (item, None) =>
      r <- ss.OpenSession svc ;;
      match r with
      | Err err => ret ("", Some err)
      | Ok session =>
        defer (ss.Close svc session)
          (err <- ss.Unlock svc item ;;
           match err with
           | Some _ => ret ("", err)
           | None =>
             r <- ss.GetSecret svc item session ;;
             match r with
             | Err err => ret ("", Some err)
             | Ok secret => ret (ss.Value secret, None)
             end
           end)
      end
    end
  end.

Definition Delete (service user : string) : M W (option error) :=
  r <- ss.NewSecretService ;;
  match r with
  | Err err => ret (Some err)
  | Ok svc =>
    r <- findItem svc service user ;;
    match r with
    | (_, Some err) => ret (Some err)
    | (item, None) => ss.Delete svc item
    end
  end.

(** The loop of [DeleteAll]: the first error ends it. *)
Fixpoint deleteItems (svc : ss.Conn) (items : list ObjectPath)
  : M W (option error) :=
  match items with
  | [] => ret None
  | item :: rest =>
    err <- ss.Delete svc item ;;
    match err with
    | Some _ => ret err
    | None => deleteItems svc rest
    end
  end.

Definition DeleteAll (service : string) : M W (option error) :=
  if String.eqb service "" then ret (Some ErrNotFound)
  else
    r <- ss.NewSecretService ;;
    match r with
    | Err err => ret (Some err)
    | Ok svc =>
      r <- findServiceItems svc service ;;
      match r with
      | (_, Some err) =>
        if error_eqb err ErrNotFound then ret None else ret (Some err)
      | (items, None) => deleteItems svc items
      end
    end.

Definition keyring : Keyring.t W :=
  Keyring.Build Set_ Get Delete DeleteAll.

End Methods.

End secretServiceProvider.

(** ** Package unix and os/exec: the calls of [keyctlProvider] *)

Module unix.

Definition KEYCTL_UNLINK : Z := 9.
Definition KEYCTL_READ : Z := 11.
Definition KEYCTL_GET_PERSISTENT : Z := 22.
Definition KEY_SPEC_SESSION_KEYRING : Z := -3.

Class Syscalls (W : Type) : Type := {
  (** [unix.KeyctlInt(cmd, arg2, arg3, arg4, arg5)] *)
  KeyctlInt : Z -> Z -> Z -> Z -> Z -> M W (result Z);
  (** [unix.KeyctlGetKeyringID(id, create)] *)
  KeyctlGetKeyringID : Z -> bool -> M W (result Z);
  (** [unix.KeyctlSearch(ringid, keyType, description, destRingid)] *)
  KeyctlSearch : Z -> string -> string -> Z -> M W (result Z);
  (** [unix.AddKey(keyType, description, payload, ringid)] *)
  AddKey : string -> string -> string -> Z -> M W (result Z);
  (** [unix.KeyctlBuffer(cmd, arg2, buf, arg5)]: the count, and the bytes
      of [buf] after the call. *)
  KeyctlBuffer : Z -> Z -> string -> Z -> M W (result (Z * string))
}.

End unix.

Module exec.

Class Commands (W : Type) : Type := {
  (** [exec.Command(name, arg...).CombinedOutput()] *)
  CombinedOutput : string -> list string -> M W (result string)
}.

End exec.

(** ** keyctlProvider *)

(** keyring_keyctl.go stores the keys in the persistent keyring of the
    user.  Its two earlier revisions are the same code on the session
    keyring: they differ in the call that resolves the keyring and in the
    argument of [keyctl show]. *)
Inductive revision : Type := Persistent | Session.

Module keyctlProvider.

Section Methods.
Context {W : Type} {U : unix.Syscalls W} {E : exec.Commands W}.
Variable rev : revision.

Definition getPersistentKeyring : M W (result Z) :=
  r <- unix.KeyctlInt unix.KEYCTL_GET_PERSISTENT (-1)
                      unix.KEY_SPEC_SESSION_KEYRING 0 0 ;;
  match r with
  | Err err => ret (Err (wrapError "failed to get persistent keyring" err))
  | Ok persistentKeyringID => ret (Ok persistentKeyringID)
  end.

(** The first statement of each method. *)
Definition resolveKeyring : M W (result Z) :=
  match rev with
  | Persistent => getPersistentKeyring
  | Session => unix.KeyctlGetKeyringID unix.KEY_SPEC_SESSION_KEYRING true
  end.

(** The last argument of [keyctl show]. *)
Definition showArgument (keyring : Z) : string :=
  match rev with
  | Persistent => fmt.Sprintf_d keyring
  | Session => "@s"
  end.

Definition Set_ (service user pass : string) : M W (option error) :=
  r <- resolveKeyring ;;
  match r with
  | Err err => ret (Some err)
  | Ok persistentKeyring =>
    let keyName := fmt.Sprintf_s_colon_s service user in
    r <- unix.KeyctlSearch persistentKeyring "user" keyName 0 ;;
    _ <- match r with
         | Ok existingKeyID =>
           _ <- unix.KeyctlInt unix.KEYCTL_UNLINK existingKeyID
                               persistentKeyring 0 0 ;;
           ret tt
         | Err _ => ret tt
         end ;;
    r <- unix.AddKey "user" keyName pass persistentKeyring ;;
    match r with
    | Ok _ => ret None
    | Err err => ret (Some err)
    end
  end.

Definition Get (service user : string) : M W (string * option error) :=
  r <- resolveKeyring ;;
  match r with
  | Err err => ret ("", Some err)
  | Ok persistentKeyring =>
    let keyName := fmt.Sprintf_s_colon_s service user in
    r <- unix.KeyctlSearch persistentKeyring "user" keyName 0 ;;
    match r with
    | Err _ => ret ("", Some ErrNotFound)
    | Ok keyID =>
      r <- unix.KeyctlBuffer unix.KEYCTL_READ keyID "" 0 ;;
      match r with
      | Err err => ret ("", Some err)
      | Ok (size, _) =>
        let buf := make (Z.to_nat size) in
        r <- unix.KeyctlBuffer unix.KEYCTL_READ keyID buf 0 ;;
        match r with
        | Err err => ret ("", Some err)
        | Ok (_, buf) => ret (buf, None)
        end
      end
    end
  end.

Definition Delete (service user : string) : M W (option error) :=
  r <- resolveKeyring ;;
  match r with
  | Err err => ret (Some err)
  | Ok persistentKeyring =>
    let keyName := fmt.Sprintf_s_colon_s service user in
    r <- unix.KeyctlSearch persistentKeyring "user" keyName 0 ;;
    match r with
    | Err _ => ret (Some ErrNotFound)
    | Ok keyID =>
      r <- unix.KeyctlInt unix.KEYCTL_UNLINK keyID persistentKeyring 0 0 ;;
      match r with
      | Ok _ => ret None
      | Err err => ret (Some err)
      end
    end
  end.

(** The body of the loop of [DeleteAll] over the lines of the
    listing; each [ret tt] before the search is a [continue]. *)
Definition deleteLine (persistentKeyring : Z) (service prefix : string)
           (line : string) : M W unit :=
  if negb (strings.Contains line prefix) then ret tt
  else
    let parts := strings.Split line "user:" in
    if (List.length parts <? 2)%nat then ret tt
    else
      let keyDesc := strings.TrimSpace (nth 1 parts "") in
      if negb (strings.HasPrefix keyDesc (service ++ ":")) then ret tt
      else
        r <- unix.KeyctlSearch persistentKeyring "user" keyDesc 0 ;;
        match r with
        | Ok keyID =>
          _ <- unix.KeyctlInt unix.KEYCTL_UNLINK keyID persistentKeyring 0 0 ;;
          ret tt
        | Err _ => ret tt
        end.

Definition DeleteAll (service : string) : M W (option error) :=
  if String.eqb service "" then ret (Some ErrNotFound)
  else
    r <- resolveKeyring ;;
    match r with
    | Err err => ret (Some err)
    | Ok persistentKeyring =>
      r <- exec.CombinedOutput "keyctl"
             ["show"; showArgument persistentKeyring] ;;
      match r with
      | Err _ => ret None
      | Ok output =>
        let lines := strings.Split output LF in
        let prefix := fmt.Sprintf_s_colon service in
        _ <- forRange lines
               (deleteLine persistentKeyring service prefix) ;;
        ret None
      end
    end.

Definition keyring : Keyring.t W :=
  Keyring.Build Set_ Get Delete DeleteAll.

End Methods.

End keyctlProvider.

(** ** A model of the kernel keyring

    The keyring the provider resolves (the persistent keyring of the user
    for keyring_keyctl.go, the session keyring for the earlier revisions),
    as keyctl(2) and add_key(2) describe it.  A key has a serial number,
    a type, a description and a payload.  The keyring holds at most one
    key of a given type and description, and [add_key] on a description
    that is there updates that key.

    Keyrings are keys of the type "keyring", and a keyring can be linked
    into another.  A search descends into the linked keyrings, after the
    keys of the keyring itself; an unlink removes a link of the keyring
    itself and nothing below.  The model keeps the keys linked in the
    keyring ([keys]) and, apart from them, the keys that a search finds
    in the keyrings linked into it ([linked]), each with the serial
    number of the keyring in [keys] through which it is found.

    The owner of the keys has a quota of keys and of bytes; a key is
    charged the length of its description, one byte, and the length of
    its payload.  The kernel gives the charge of a key back when it
    collects the key, some time after the last link to it is gone; the
    model has no collector, so an unlinked key keeps its charge. *)

Module Linux.

Definition EPERM : Z := 1.
Definition ENOENT : Z := 2.
Definition EACCES : Z := 13.
Definition ENODEV : Z := 19.
Definition EINVAL : Z := 22.
Definition EOPNOTSUPP : Z := 95.
Definition EDQUOT : Z := 122.
Definition ENOKEY : Z := 126.

Record key : Type := mkKey {
  serial : Z;
  keyType : string;
  description : string;
  payload : string
}.

Record state : Type := mkState {
  ring : Z;                  (* serial number of the keyring *)
  ring_fault : option Z;     (* the errno of resolving it, if it fails *)
  writable : bool;           (* the caller may link and unlink in it *)
  keys : list key;           (* the keys linked in it, oldest first *)
  linked : list (Z * key);   (* the keys found in the keyrings linked
                                into it, in search order, each with the
                                serial number of the keyring in [keys]
                                it is found through *)
  next_serial : Z;           (* the next serial number to hand out *)
  quota_keys : Z;            (* the keys the owner may still add *)
  quota_bytes : Z;           (* the bytes the owner may still charge *)
  keyctl : list string -> list key -> result string
                             (* the keyctl program: arguments, the keys
                                it finds in and below the keyring,
                                combined output *)
}.

(** A keyring with nothing linked below it, and the quota of a user. *)
Definition flat (ring_ : Z) (fault : option Z) (writable_ : bool)
           (ks : list key) (next : Z)
           (tool : list string -> list key -> result string) : state :=
  mkState ring_ fault writable_ ks [] next 200 20000 tool.

Definition with_keys (st : state) (ks : list key) : state :=
  mkState (ring st) (ring_fault st) (writable st) ks (linked st)
          (next_serial st) (quota_keys st) (quota_bytes st) (keyctl st).

Definition with_links (st : state) (ls : list (Z * key)) : state :=
  mkState (ring st) (ring_fault st) (writable st) (keys st) ls
          (next_serial st) (quota_keys st) (quota_bytes st) (keyctl st).

(** The keys found below the keyring, and all the keys a search goes
    through, in its order. *)
Definition links (st : state) : list key := map snd (linked st).

Definition all (st : state) : list key := (keys st ++ links st)%list.

(** Go's [BytePtrFromString] refuses a string with a NUL byte. *)
Fixpoint has_nul (s : string) : bool :=
  match s with
  | EmptyString => false
  | String c s' => (byte_of c =? 0) || has_nul s'
  end.

(** The kernel copies the type into 32 bytes and the description into
    4096, the closing NUL included, and refuses (EINVAL) what does not
    fit; a type that begins with a period is reserved (EPERM). *)
Definition bad_type (ty : string) : bool :=
  (len ty =? 0) || (32 <=? len ty).

Definition dotted (ty : string) : bool :=
  match ty with
  | EmptyString => false
  | String c _ => byte_of c =? 46
  end.

(** A description that a system call refuses with EINVAL. *)
Definition refused (desc : string) : bool :=
  has_nul desc || (4096 <=? len desc).

Definition named (ty desc : string) (k : key) : bool :=
  String.eqb (keyType k) ty && String.eqb (description k) desc.

Definition numbered (id : Z) (k : key) : bool := serial k =? id.

Definition resolve (st : state) : result Z :=
  match ring_fault st with
  | Some e => Err (Errno e)
  | None => Ok (ring st)
  end.

(** keyctl(KEYCTL_UNLINK, key, keyring): the link of the keyring itself
    to the key is removed; a key that is only found below the keyring
    has no such link (ENOENT).  With a keyring goes what was found
    through it. *)
Definition unlink (id ringid : Z) : M state (result Z) := fun st =>
  if negb (ringid =? ring st) then (Err (Errno ENOKEY), st)
  else if negb (writable st) then (Err (Errno EACCES), st)
  else if existsb (numbered id) (keys st)
  then (Ok 0,
        with_links
          (with_keys st (filter (fun k => negb (numbered id k)) (keys st)))
          (filter (fun e => negb (fst e =? id)) (linked st)))
  else if existsb (numbered id) (links st) then (Err (Errno ENOENT), st)
  else (Err (Errno ENOKEY), st).

(** keyctl(KEYCTL_SEARCH, keyring, type, description, 0): the keys of
    the keyring first, then the keyrings linked into it. *)
Definition search (ringid : Z) (ty desc : string) : M state (result Z) :=
  fun st =>
  if has_nul ty || has_nul desc then (Err (Errno EINVAL), st)
  else if bad_type ty then (Err (Errno EINVAL), st)
  else if dotted ty then (Err (Errno EPERM), st)
  else if 4096 <=? len desc then (Err (Errno EINVAL), st)
  else if negb (ringid =? ring st) then (Err (Errno ENOKEY), st)
  else match find (named ty desc) (all st) with
       | Some k => (Ok (serial k), st)
       | None => (Err (Errno ENOKEY), st)
       end.

Definition set_payload (ty desc data : string) (k : key) : key :=
  if named ty desc k then mkKey (serial k) ty desc data else k.

(** The key with the serial number [id] gets the payload [data],
    wherever it is found. *)
Definition renew (id : Z) (data : string) (e : Z * key) : Z * key :=
  if numbered id (snd e)
  then (fst e, mkKey id (keyType (snd e)) (description (snd e)) data)
  else e.

(** add_key(type, description, payload, keyring).  The provider adds
    keys of the type "user", which refuses an empty payload and one of
    more than 32767 bytes; for another type the model answers as the
    kernel does for a type that is not registered.  A key of that type
    and description linked in the keyring itself is updated; otherwise
    a new key is charged to the quota and linked. *)
Definition add_key (ty desc data : string) (ringid : Z)
  : M state (result Z) := fun st =>
  if has_nul ty || has_nul desc then (Err (Errno EINVAL), st)
  else if bad_type ty then (Err (Errno EINVAL), st)
  else if dotted ty then (Err (Errno EPERM), st)
  else if 4096 <=? len desc then (Err (Errno EINVAL), st)
  else if 1048575 <? len data then (Err (Errno EINVAL), st)
  else if negb (ringid =? ring st) then (Err (Errno ENOKEY), st)
  else if negb (writable st) then (Err (Errno EACCES), st)
  else if negb (String.eqb ty "user") then (Err (Errno ENODEV), st)
  else if (len data =? 0) || (32767 <? len data)
  then (Err (Errno EINVAL), st)
  else if String.eqb desc "" then (Err (Errno EINVAL), st)
  else match find (named ty desc) (keys st) with
       | Some k =>
         let delta := len data - len (payload k) in
         if quota_bytes st <? delta then (Err (Errno EDQUOT), st)
         else
           (Ok (serial k),
            mkState (ring st) (ring_fault st) (writable st)
                    (map (set_payload ty desc data) (keys st))
                    (map (renew (serial k) data) (linked st))
                    (next_serial st) (quota_keys st)
                    (quota_bytes st - delta) (keyctl st))
       | None =>
         let charge := len desc + 1 + len data in
         if (quota_keys st <? 1) || (quota_bytes st <? charge)
         then (Err (Errno EDQUOT), st)
         else
           (Ok (next_serial st),
            mkState (ring st) (ring_fault st) (writable st)
                    (keys st ++ [mkKey (next_serial st) ty desc data])
                    (linked st) (next_serial st + 1)
                    (quota_keys st - 1) (quota_bytes st - charge)
                    (keyctl st))
       end.

(** keyctl(KEYCTL_READ, key, buf, len(buf)): the size of the payload;
    the payload is copied when the buffer can hold it. *)
Definition read (id : Z) (buf : string) : M state (result (Z * string)) :=
  fun st =>
  match find (numbered id) (all st) with
  | Some k =>
    let data := payload k in
    if len data <=? len buf
    then (Ok (len data, data ++ slice_from (String.length data) buf), st)
    else (Ok (len data, buf), st)
  | None => (Err (Errno ENOKEY), st)
  end.

#[global] Instance syscalls : unix.Syscalls state := {
  unix.KeyctlInt cmd arg2 arg3 arg4 arg5 :=
    if cmd =? unix.KEYCTL_GET_PERSISTENT then fun st => (resolve st, st)
    else if cmd =? unix.KEYCTL_UNLINK then unlink arg2 arg3
    else ret (Err (Errno EOPNOTSUPP));
  unix.KeyctlGetKeyringID id create :=
    if id =? unix.KEY_SPEC_SESSION_KEYRING then fun st => (resolve st, st)
    else ret (Err (Errno ENOKEY));
  unix.KeyctlSearch ringid ty desc dest := search ringid ty desc;
  unix.AddKey ty desc data ringid := add_key ty desc data ringid;
  unix.KeyctlBuffer cmd arg2 buf arg5 :=
    if cmd =? unix.KEYCTL_READ then read arg2 buf
    else ret (Err (Errno EOPNOTSUPP))
}.

#[global] Instance commands : exec.Commands state := {
  exec.CombinedOutput name args := fun st =>
    if String.eqb name "keyctl" then (keyctl st args (all st), st)
    else (Err (errorString "executable file not found in $PATH"), st)
}.

(** The invariant of the kernel: a keyring links a key once and has one
    key of a type and description; serial numbers are not reused; a
    serial number stands for one key, wherever it is found; and what is
    found below the keyring is found through a keyring linked in it. *)
Definition name_of (k : key) : string * string :=
  (keyType k, description k).

Definition through (st : state) (e : Z * key) : Prop :=
  exists kr, In kr (keys st) /\ serial kr = fst e
             /\ keyType kr = "keyring".

Record wf (st : state) : Prop := {
  wf_serials : NoDup (map serial (keys st));
  wf_names : NoDup (map name_of (keys st));
  wf_fresh : Forall (fun k => serial k < next_serial st) (all st);
  wf_same : forall a b, In a (all st) -> In b (all st) ->
                        serial a = serial b -> a = b;
  wf_via : Forall (through st) (linked st)
}.

(** *** The keyctl program

    [keyctl show] prints a heading, then one line per key; the source
    gives the format of a line as
    [ keyid --perms uid gid   \_ user: service:username].  The program
    prints the keys of a linked keyring below the line of that keyring,
    further to the right; the model prints them after the keys of the
    keyring itself. *)

Fixpoint spaces (n : nat) : string :=
  match n with
  | O => EmptyString
  | S n' => String " " (spaces n')
  end.

Definition pad (width : nat) (s : string) : string :=
  spaces (width - String.length s) ++ s.

Definition show_line (k : key) : string :=
  pad 10 (fmt.Sprintf_d (serial k)) ++ " --alswrv   1000  1000   \_ "
  ++ keyType k ++ ": " ++ description k.

Definition keyctl_show (ks : list key) : string :=
  "Keyring" ++ LF
  ++ String.concat "" (map (fun k => show_line k ++ LF) ks).

(** The program as installed, and a system without it. *)
Definition keyctl_installed : list string -> list key -> result string :=
  fun args ks =>
  match args with
  | [cmd; _] =>
    if String.eqb cmd "show" then Ok (keyctl_show ks)
    else Err (errorString "exit status 2")
  | _ => Err (errorString "exit status 2")
  end.

Definition keyctl_missing : list string -> list key -> result string :=
  fun _ _ => Err (errorString "executable file not found in $PATH").

End Linux.

(** ** A model of the Secret Service daemon

    Modelled from the spec: package secret_service and the daemon behind
    it are not among the sources.  The model keeps the items of the login
    collection with the attributes they are searched by; the daemon may be
    unreachable, the collection may refuse to unlock, and an item may
    refuse to be deleted.  It is used to run [secretServiceProvider]; the
    theorems on that provider hold for every implementation of
    [SecretService]. *)

Module Daemon.

Record item : Type := mkItem {
  path : ObjectPath;
  label : string;
  attributes : list (string * string);
  secret : string;
  protected : bool          (* the daemon refuses to delete it *)
}.

Record state : Type := mkState {
  reachable : bool;         (* the bus and the daemon answer *)
  unlockable : bool;        (* Unlock succeeds *)
  items : list item;        (* the login collection, in search order *)
  next_item : Z
}.

Definition with_items (st : state) (its : list item) : state :=
  mkState (reachable st) (unlockable st) its (next_item st).

Definition pair_eqb (a b : string * string) : bool :=
  String.eqb (fst a) (fst b) && String.eqb (snd a) (snd b).

(** An item matches a search when it has every attribute searched. *)
Definition matches (search : list (string * string)) (it : item) : bool :=
  forallb (fun kv => existsb (pair_eqb kv) (attributes it)) search.

Definition at_path (p : ObjectPath) (it : item) : bool :=
  String.eqb (path it) p.

Definition login : ObjectPath := "/org/freedesktop/secrets/collection/login".

#[global] Instance secret_service : ss.SecretService state := {
  ss.Conn := unit;
  ss.Secret := ObjectPath * string;
  ss.NewSecretService := fun st =>
    if reachable st then (Ok tt, st)
    else (Err (errorString "dbus: the session bus is not available"), st);
  ss.OpenSession _ := ret (Ok "/org/freedesktop/secrets/session/s1");
  ss.Close _ _ := ret None;
  ss.GetLoginCollection _ := login;
  ss.Unlock _ _ := fun st =>
    if unlockable st then (None, st)
    else (Some (errorString "failed to unlock correctly"), st);
  ss.CreateItem _ _ lbl attrs sec := fun st =>
    let kept := filter (fun it => negb (matches attrs it)) (items st) in
    let new := mkItem (login ++ "/" ++ fmt.Sprintf_d (next_item st))
                      lbl attrs (snd sec) false in
    (None, mkState (reachable st) (unlockable st) (kept ++ [new])
                   (next_item st + 1));
  ss.SearchItems _ _ search := fun st =>
    (Ok (map path (filter (matches search) (items st))), st);
  ss.GetSecret _ p session := fun st =>
    match find (at_path p) (items st) with
    | Some it => (Ok (session, secret it), st)
    | None => (Err (errorString "no such object"), st)
    end;
  ss.Delete _ p := fun st =>
    match find (at_path p) (items st) with
    | Some it =>
      if protected it
      then (Some (errorString "the item cannot be deleted"), st)
      else (None, with_items st
                    (filter (fun i => negb (at_path p i)) (items st)))
    | None => (Some (errorString "no such object"), st)
    end;
  ss.NewSecret session pass := (session, pass);
  ss.Value := snd
}.

End Daemon.

(** ** A host: the daemon and the kernel together

    The world on which the composite of the two providers runs. *)

Module Host.

Record state : Type := mkState {
  daemon : Daemon.state;
  kernel : Linux.state
}.

Definition on_daemon {A : Type} (c : M Daemon.state A) : M state A :=
  fun h => let (a, d) := c (daemon h) in (a, mkState d (kernel h)).

Definition on_kernel {A : Type} (c : M Linux.state A) : M state A :=
  fun h => let (a, k) := c (kernel h) in (a, mkState (daemon h) k).

#[global] Instance secret_service : ss.SecretService state := {
  ss.Conn := unit;
  ss.Secret := ObjectPath * string;
  ss.NewSecretService :=
    on_daemon (ss.NewSecretService (SecretService := Daemon.secret_service));
  ss.OpenSession svc :=
    on_daemon (ss.OpenSession (SecretService := Daemon.secret_service) svc);
  ss.Close svc session :=
    on_daemon (ss.Close (SecretService := Daemon.secret_service) svc session);
  ss.GetLoginCollection svc := Daemon.login;
  ss.Unlock svc p :=
    on_daemon (ss.Unlock (SecretService := Daemon.secret_service) svc p);
  ss.CreateItem svc coll lbl attrs sec :=
    on_daemon (ss.CreateItem (SecretService := Daemon.secret_service)
                             svc coll lbl attrs sec);
  ss.SearchItems svc coll search :=
    on_daemon (ss.SearchItems (SecretService := Daemon.secret_service)
                              svc coll search);
  ss.GetSecret svc p session :=
    on_daemon (ss.GetSecret (SecretService := Daemon.secret_service)
                            svc p session);
  ss.Delete svc p :=
    on_daemon (ss.Delete (SecretService := Daemon.secret_service) svc p);
  ss.NewSecret session pass := (session, pass);
  ss.Value := snd
}.

#[global] Instance syscalls : unix.Syscalls state := {
  unix.KeyctlInt cmd arg2 arg3 arg4 arg5 :=
    on_kernel (unix.KeyctlInt (Syscalls := Linux.syscalls)
                              cmd arg2 arg3 arg4 arg5);
  unix.KeyctlGetKeyringID id create :=
    on_kernel (unix.KeyctlGetKeyringID (Syscalls := Linux.syscalls) id create);
  unix.KeyctlSearch ringid ty desc dest :=
    on_kernel (unix.KeyctlSearch (Syscalls := Linux.syscalls)
                                 ringid ty desc dest);
  unix.AddKey ty desc data ringid :=
    on_kernel (unix.AddKey (Syscalls := Linux.syscalls) ty desc data ringid);
  unix.KeyctlBuffer cmd arg2 buf arg5 :=
    on_kernel (unix.KeyctlBuffer (Syscalls := Linux.syscalls)
                                 cmd arg2 buf arg5)
}.

#[global] Instance commands : exec.Commands state := {
  exec.CombinedOutput name args :=
    on_kernel (exec.CombinedOutput (Commands := Linux.commands) name args)
}.

(** The provider that [init] selects when the daemon does not answer
    and the platform registers the keyctl provider as its fallback. *)
Definition provider : compositeProvider.t state :=
  compositeProvider.Build secretServiceProvider.keyring
                          (Some (keyctlProvider.keyring Persistent)).

End Host.

(** ** Notions used in the statements *)

(** [items] are deleted one after the other, each with success, taking
    the world from [w] to [w']. *)
Inductive all_deleted {W : Type} {SS : ss.SecretService W} (svc : ss.Conn)
  : list ObjectPath -> W -> W -> Prop :=
| all_deleted_nil w : all_deleted svc [] w w
| all_deleted_cons item rest w w1 w2 :
    ss.Delete svc item w = (None, w1) ->
    all_deleted svc rest w1 w2 ->
    all_deleted svc (item :: rest) w w2.

(** What [DeleteAll] scrapes from one line of the listing: the
    description it goes on to search and unlink, if any. *)
Definition scrapeLine (service line : string) : option string :=
  if negb (strings.Contains line (fmt.Sprintf_s_colon service)) then None
  else
    let parts := strings.Split line "user:" in
    if (List.length parts <? 2)%nat then None
    else
      let keyDesc := strings.TrimSpace (nth 1 parts "") in
      if negb (strings.HasPrefix keyDesc (service ++ ":")) then None
      else Some keyDesc.

Fixpoint scrape (service : string) (lines : list string) : list string :=
  match lines with
  | [] => []
  | line :: rest =>
    match scrapeLine service line with
    | Some keyDesc => keyDesc :: scrape service rest
    | None => scrape service rest
    end
  end.

Module LinuxSpec.
Import Linux.

(** The keyring after a search for the "user" key [desc] and the unlink
    of what the search found: a key of that name linked in the keyring
    itself is gone; one found below the keyring stays. *)
Definition purge (desc : string) (st : state) : state :=
  if refused desc || negb (writable st) then st
  else with_keys st
         (filter (fun k => negb (named "user" desc k)) (keys st)).

Definition purge_all (descs : list string) (st : state) : state :=
  fold_left (fun s d => purge d s) descs st.

(** The number of keys of type "user" with the description [desc]
    linked in the keyring itself. *)
Definition count_named (desc : string) (st : state) : nat :=
  List.length (filter (named "user" desc) (keys st)).

(** The keys of a service, as [DeleteAll] sees them: type "user", and a
    description that begins with the service and a colon. *)
Definition of_service (service : string) (k : key) : bool :=
  String.eqb (keyType k) "user"
  && strings.HasPrefix (description k) (service ++ ":").

(** The state a successful [Set] leaves: the old key of that name is
    gone from the keyring and a new one, with the next serial number,
    is linked and charged. *)
Definition stored (service user pass : string) (st : state) : state :=
  mkState (ring st) (ring_fault st) (writable st)
    (filter (fun k => negb (named "user" (service ++ ":" ++ user) k))
            (keys st)
     ++ [mkKey (next_serial st) "user" (service ++ ":" ++ user) pass])
    (linked st) (next_serial st + 1) (quota_keys st - 1)
    (quota_bytes st - (len (service ++ ":" ++ user) + 1 + len pass))
    (keyctl st).

(** The quota covers the key that [Set] adds. *)
Definition covered (service user pass : string) (st : state) : bool :=
  (1 <=? quota_keys st)
  && (len (service ++ ":" ++ user) + 1 + len pass <=? quota_bytes st).

(** What [Get] makes of the key a search found, if any. *)
Definition answer (found : option key) : string * option error :=
  match found with
  | Some k => (payload k, None)
  | None => ("", Some ErrNotFound)
  end.

(** The key of the name [service:user] that a search finds below the
    keyring, in a keyring linked into it. *)
Definition below (service user : string) (st : state) : option key :=
  find (named "user" (service ++ ":" ++ user)) (links st).

End LinuxSpec.

(** An ASCII byte that [TrimSpace] does not strip. *)
Definition solid (c : ascii) : bool :=
  (byte_of c <? utf8.RuneSelf) && negb (strings.asciiSpace (byte_of c)).

(** No byte of [s] is [c]. *)
Fixpoint free_of (c : ascii) (s : string) : bool :=
  match s with
  | EmptyString => true
  | String a s' => negb (Ascii.eqb c a) && free_of c s'
  end.

(** [c] is no decimal digit and no sign. *)
Definition no_digit (c : ascii) : bool :=
  free_of c "0123456789-".

(** What [keyctl show] prints before the type of a key. *)
Definition line_head (k : Linux.key) : string :=
  Linux.pad 10 (fmt.Sprintf_d (Linux.serial k))
  ++ " --alswrv   1000  1000   \_ ".

(** The claim that [DeleteAll] removes the records of one service and of
    no other, as the specification states it for the keyctl provider. *)
Definition DeleteAll_isolates (rev : revision) (st : Linux.state)
           (service1 service2 user p1 p2 : string) : Prop :=
  service1 <> service2 ->
  keyctlProvider.Get rev service1 user st = ((p1, None), st) ->
  keyctlProvider.Get rev service2 user st = ((p2, None), st) ->
  let st' := snd (keyctlProvider.DeleteAll rev service1 st) in
  keyctlProvider.Get rev service1 user st' = (("", Some ErrNotFound), st')
  /\ keyctlProvider.Get rev service2 user st' = ((p2, None), st').

(** ** Sample worlds *)

Module Samples.

(** An empty keyring on a system with the keyctl program. *)
Definition empty_ring : Linux.state :=
  Linux.flat 77 None true [] 100 Linux.keyctl_installed.

(** The same, without the program. *)
Definition no_keyctl : Linux.state :=
  Linux.flat 77 None true
    [Linux.mkKey 100 "user" "svc:alice" "secret1"] 101 Linux.keyctl_missing.

(** Two services with the same user. *)
Definition two_services : Linux.state :=
  Linux.flat 77 None true
    [Linux.mkKey 100 "user" "svc1:alice" "p1";
     Linux.mkKey 101 "user" "svc2:alice" "p2"]
    102 Linux.keyctl_installed.

(** A service whose name, with a colon, begins the name of another. *)
Definition nested_services : Linux.state :=
  Linux.flat 77 None true
    [Linux.mkKey 100 "user" "a:c" "p1";
     Linux.mkKey 101 "user" "a:b:c" "p2"]
    102 Linux.keyctl_installed.

(** A service named "user", a user whose name ends with a blank, and a
    keyring in which the caller may not unlink. *)
Definition marker_in_name : Linux.state :=
  Linux.flat 77 None true
    [Linux.mkKey 100 "user" "user:x" "pw"] 101 Linux.keyctl_installed.

Definition blank_in_name : Linux.state :=
  Linux.flat 77 None true
    [Linux.mkKey 100 "user" "svc:bob " "pw"] 101 Linux.keyctl_installed.

Definition read_only : Linux.state :=
  Linux.flat 77 None false
    [Linux.mkKey 100 "user" "svc:alice" "pw"] 101 Linux.keyctl_installed.

(** A payload with a NUL, a line feed and bytes that are not ASCII. *)
Definition binary : string :=
  String (ascii_of_byte 0) (String (ascii_of_byte 1)
    ("line1" ++ LF ++ String (ascii_of_byte 195)
       (String (ascii_of_byte 188) (String (ascii_of_byte 255) "")))).

Definition item (n : string) (service user pass : string) (prot : bool)
  : Daemon.item :=
  Daemon.mkItem (Daemon.login ++ "/" ++ n)
                ("Password for '" ++ user ++ "' on '" ++ service ++ "'")
                [("username", user); ("service", service)] pass prot.

(** A daemon with three items of one service, the second of which it
    refuses to delete, and one item of another service. *)
Definition daemon_up : Daemon.state :=
  Daemon.mkState true true
    [item "1" "svc" "alice" "s1" false;
     item "2" "svc" "bob" "s2" true;
     item "3" "other" "alice" "s3" false;
     item "4" "svc" "carol" "s4" false] 5.

Definition daemon_down : Daemon.state :=
  Daemon.mkState false true [] 1.

(** The host on which [init] selects the composite: no daemon. *)
Definition host_down : Host.state := Host.mkState daemon_down empty_ring.

Definition host_up : Host.state := Host.mkState daemon_up empty_ring.

End Samples.

(** ** Package variables and the two [init] functions

    [getFallbackProvider] is the hook of keyring_unix.go; [provider] is
    the variable of the package that its [init] assigns (declared in
    keyring.go; every branch of [init] assigns it). *)

Module vars.

Record t (W : Type) : Type := Build {
  getFallbackProvider : unit -> option (Keyring.t W);
  provider : Keyring.t W
}.

Arguments Build {W}.
Arguments getFallbackProvider {W}.
Arguments provider {W}.

End vars.

Module keyring_unix.

Section Init.
Context {W : Type} {SS : ss.SecretService W}.

(** [svc.Close(nil)]: the close of a connection that has no session.
    Package secret_service is not among the sources; the call is a
    parameter. *)
Variable CloseNil : ss.Conn -> M W (option error).

(** [var getFallbackProvider = func() Keyring { return nil }] *)
Definition getFallbackProvider : unit -> option (Keyring.t W) :=
  fun _ => None.

Definition init (v : vars.t W) : M W (vars.t W) :=
  r <- ss.NewSecretService ;;
  match r with
  | Ok svc =>
    _ <- CloseNil svc ;;
    ret (vars.Build (vars.getFallbackProvider v)
                    secretServiceProvider.keyring)
  | Err _ =>
    let fallback := vars.getFallbackProvider v tt in
    match fallback with
    | Some fb =>
      ret (vars.Build (vars.getFallbackProvider v)
             (compositeProvider.keyring
                (compositeProvider.Build secretServiceProvider.keyring
                                         (Some fb))))
    | None =>
      ret (vars.Build (vars.getFallbackProvider v)
                      secretServiceProvider.keyring)
    end
  end.

End Init.

End keyring_unix.

Module keyring_keyctl.

Section Init.
Context {W : Type} {U : unix.Syscalls W} {E : exec.Commands W}.
Variable rev : revision.

(** [getFallbackProvider = func() Keyring { return keyctlProvider{} }] *)
Definition init (v : vars.t W) : vars.t W :=
  vars.Build (fun _ => Some (keyctlProvider.keyring rev)) (vars.provider v).

End Init.

End keyring_keyctl.

(** ** The first revision of keyctlProvider

    The oldest of the three revisions calls package jsipprell/keyctl,
    which wraps the system calls in keyring and key objects.  The calls
    it makes are the fields of [keyctl.Lib]. *)

Module keyctl.

Class Lib (W : Type) : Type := {
  Keyring : Type;                               (* keyctl.Keyring *)
  Key : Type;                                   (* *keyctl.Key *)
  SessionKeyring : M W (result Keyring);
  Search : Keyring -> string -> M W (result Key);    (* keyring.Search *)
  Add : Keyring -> string -> string -> M W (result Key);  (* keyring.Add *)
  Unlink : Key -> M W (option error);                (* key.Unlink *)
  Get : Key -> M W (result string)                   (* key.Get *)
}.

End keyctl.

Module keyctlProvider0.

Section Methods.
Context {W : Type} {L : keyctl.Lib W} {E : exec.Commands W}.

Definition Set_ (service user pass : string) : M W (option error) :=
  r <- keyctl.SessionKeyring ;;
  match r with
  | Err err => ret (Some err)
  | Ok keyring =>
    let keyName := fmt.Sprintf_s_colon_s service user in
    r <- keyctl.Search keyring keyName ;;
    _ <- match r with
         | Ok existingKey => _ <- keyctl.Unlink existingKey ;; ret tt
         | Err _ => ret tt
         end ;;
    r <- keyctl.Add keyring keyName pass ;;
    match r with
    | Ok _ => ret None
    | Err err => ret (Some err)
    end
  end.

Definition Get (service user : string) : M W (string * option error) :=
  r <- keyctl.SessionKeyring ;;
  match r with
  | Err err => ret ("", Some err)
  | Ok keyring =>
    let keyName := fmt.Sprintf_s_colon_s service user in
    r <- keyctl.Search keyring keyName ;;
    match r with
    | Err _ => ret ("", Some ErrNotFound)
    | Ok key =>
      r <- keyctl.Get key ;;
      match r with
      | Err err => ret ("", Some err)
      | Ok data => ret (data, None)
      end
    end
  end.

Definition Delete (service user : string) : M W (option error) :=
  r <- keyctl.SessionKeyring ;;
  match r with
  | Err err => ret (Some err)
  | Ok keyring =>
    let keyName := fmt.Sprintf_s_colon_s service user in
    r <- keyctl.Search keyring keyName ;;
    match r with
    | Err _ => ret (Some ErrNotFound)
    | Ok key => keyctl.Unlink key
    end
  end.

Definition deleteLine (keyring : keyctl.Keyring) (service prefix : string)
           (line : string) : M W unit :=
  if negb (strings.Contains line prefix) then ret tt
  else
    let parts := strings.Split line "user:" in
    if (List.length parts <? 2)%nat then ret tt
    else
      let keyDesc := strings.TrimSpace (nth 1 parts "") in
      if negb (strings.HasPrefix keyDesc (service ++ ":")) then ret tt
      else
        r <- keyctl.Search keyring keyDesc ;;
        match r with
        | Ok key => _ <- keyctl.Unlink key ;; ret tt
        | Err _ => ret tt
        end.

Definition DeleteAll (service : string) : M W (option error) :=
  if String.eqb service "" then ret (Some ErrNotFound)
  else
    r <- keyctl.SessionKeyring ;;
    match r with
    | Err err => ret (Some err)
    | Ok keyring =>
      r <- exec.CombinedOutput "keyctl" ["show"; "@s"] ;;
      match r with
      | Err _ => ret None
      | Ok output =>
        let lines := strings.Split output LF in
        let prefix := fmt.Sprintf_s_colon service in
        _ <- forRange lines (deleteLine keyring service prefix) ;;
        ret None
      end
    end.

Definition keyring : Keyring.t W :=
  Keyring.Build Set_ Get Delete DeleteAll.

End Methods.

End keyctlProvider0.

(** ** More sample worlds *)

Module Samples2.

(** A kernel that has no persistent keyring (ENOSYS). *)
Definition no_ring : Linux.state :=
  Linux.flat 77 (Some 38) true [] 100 Linux.keyctl_installed.

(** One service with three users, and a key of another service. *)
Definition three_users : Linux.state :=
  Linux.flat 77 None true
    [Linux.mkKey 100 "user" "svc:user1" "password-user1";
     Linux.mkKey 101 "user" "other:user1" "x";
     Linux.mkKey 102 "user" "svc:user2" "password-user2";
     Linux.mkKey 103 "user" "svc:user3" "password-user3"]
    104 Linux.keyctl_installed.

(** A keyctl program that prints something else. *)
Definition odd_keyctl : Linux.state :=
  Linux.flat 77 None true
    [Linux.mkKey 100 "user" "svc:alice" "p1";
     Linux.mkKey 101 "user" "other:alice" "p2"]
    102 (fun _ _ => Ok ("user: other:alice" ++ LF ++ "x user: svc:alice")).

(** A keyring into which the keyring 50 of the user is linked: the key
    "svc:alice" is linked in the keyring itself and, with another
    payload, found below it; "svc:bob" is found below it only. *)
Definition with_linked : Linux.state :=
  Linux.mkState 77 None true
    [Linux.mkKey 50 "keyring" "_uid.1000" "";
     Linux.mkKey 100 "user" "svc:alice" "new"]
    [(50, Linux.mkKey 60 "user" "svc:alice" "old");
     (50, Linux.mkKey 61 "user" "svc:bob" "pw")]
    101 200 20000 Linux.keyctl_installed.

(** A daemon that answers and holds nothing, on a host whose kernel
    keyring holds two keys. *)
Definition host_idle : Host.state :=
  Host.mkState (Daemon.mkState true true [] 1) Samples.two_services.

(** [svc.Close(nil)] on the host: nothing to close. *)
Definition close_nil : unit -> M Host.state (option error) :=
  fun _ => ret None.

(** The package variables before any [init] has run. *)
Definition vars0 : vars.t Host.state :=
  vars.Build keyring_unix.getFallbackProvider secretServiceProvider.keyring.

End Samples2.

(** ** The calls a provider makes

    Any implementation of the Secret Service calls, extended with a log
    of the calls made, in order.  Results are those of the
    implementation; the log records what the theorems on call order
    need. *)

Module Traced.

Inductive call : Type :=
| NewSecretService (ok : bool)
| OpenSession (session : option ObjectPath)
| Close (session : ObjectPath)
| Unlock (p : ObjectPath)
| CreateItem (label : string) (attributes : list (string * string))
| SearchItems (search : list (string * string))
              (results : option (list ObjectPath))
| GetSecret (item session : ObjectPath)
| Delete (item : ObjectPath).

Definition logged {W A : Type} (c : M W A) (ev : A -> call)
  : M (W * list call) A :=
  fun s => let (a, w) := c (fst s) in (a, (w, (snd s ++ [ev a])%list)).

Definition ok_of {A : Type} (r : result A) : option A :=
  match r with Ok a => Some a | Err _ => None end.

Definition secret_service {W : Type} (SS : ss.SecretService W)
  : ss.SecretService (W * list call) := {|
  ss.Conn := ss.Conn (SecretService := SS);
  ss.Secret := ss.Secret (SecretService := SS);
  ss.NewSecretService :=
    logged ss.NewSecretService
           (fun r => NewSecretService
                       match r with Ok _ => true | Err _ => false end);
  ss.OpenSession svc :=
    logged (ss.OpenSession svc) (fun r => OpenSession (ok_of r));
  ss.Close svc session :=
    logged (ss.Close svc session) (fun _ => Close session);
  ss.GetLoginCollection := ss.GetLoginCollection;
  ss.Unlock svc p := logged (ss.Unlock svc p) (fun _ => Unlock p);
  ss.CreateItem svc coll lbl attrs sec :=
    logged (ss.CreateItem svc coll lbl attrs sec)
           (fun _ => CreateItem lbl attrs);
  ss.SearchItems svc coll search :=
    logged (ss.SearchItems svc coll search)
           (fun r => SearchItems search (ok_of r));
  ss.GetSecret svc p session :=
    logged (ss.GetSecret svc p session) (fun _ => GetSecret p session);
  ss.Delete svc p := logged (ss.Delete svc p) (fun _ => Delete p);
  ss.NewSecret := ss.NewSecret;
  ss.Value := ss.Value
|}.

(** The log of a run that starts with an empty log. *)
Definition log {W A : Type} (c : M (W * list call) A) (w : W) : list call :=
  snd (snd (c (w, []))).

(** The sessions opened, the sessions closed, the items created (by
    their attributes) and the items deleted, in order. *)
Definition opened (t : list call) : list ObjectPath :=
  flat_map (fun c => match c with
                     | OpenSession (Some s) => [s]
                     | _ => []
                     end) t.

Definition closed (t : list call) : list ObjectPath :=
  flat_map (fun c => match c with Close s => [s] | _ => [] end) t.

Definition created (t : list call) : list (list (string * string)) :=
  flat_map (fun c => match c with CreateItem _ a => [a] | _ => [] end) t.

Definition deleted (t : list call) : list ObjectPath :=
  flat_map (fun c => match c with Delete p => [p] | _ => [] end) t.

(** The results of the searches that succeeded. *)
Definition found (t : list call) : list (list ObjectPath) :=
  flat_map (fun c => match c with
                     | SearchItems _ (Some r) => [r]
                     | _ => []
                     end) t.

End Traced.

(** ** Package jsipprell/keyctl on the kernel keyring

    The package is no part of the sources.  This instance runs its calls
    on the model of the kernel: a keyring is its serial number, a key is
    its serial number with the keyring it was found in. *)

Module KeyctlLib.

Definition drop {A : Type} (r : result A) : option error :=
  match r with Ok _ => None | Err e => Some e end.

#[global] Instance lib : keyctl.Lib Linux.state := {
  keyctl.Keyring := Z;
  keyctl.Key := Z * Z;
  keyctl.SessionKeyring := fun st => (Linux.resolve st, st);
  keyctl.Search kr name := fun st =>
    match Linux.search kr "user" name st with
    | (Ok id, st') => (Ok (id, kr), st')
    | (Err e, st') => (Err e, st')
    end;
  keyctl.Add kr name data := fun st =>
    match Linux.add_key "user" name data kr st with
    | (Ok id, st') => (Ok (id, kr), st')
    | (Err e, st') => (Err e, st')
    end;
  keyctl.Unlink key := fun st =>
    let (r, st') := Linux.unlink (fst key) (snd key) st in (drop r, st');
  keyctl.Get key := fun st =>
    match find (Linux.numbered (fst key)) (Linux.all st) with
    | Some k => (Ok (Linux.payload k), st)
    | None => (Err (Errno Linux.ENOKEY), st)
    end
}.

End KeyctlLib.
Example split_lines :
  strings.Split ("a" ++ LF ++ "b" ++ LF) LF = ["a"; "b"; ""].
Proof. reflexivity. Qed.

Example split_marker :
  strings.Split " 12 --alswrv 0 0 \_ user: svc:bob" "user:"
  = [" 12 --alswrv 0 0 \_ "; " svc:bob"].
Proof. reflexivity. Qed.

Example trim_ascii : strings.TrimSpace "  svc:bob  " = "svc:bob".
Proof. reflexivity. Qed.

(** U+00A0 (no-break space) and U+3000 (ideographic space) are trimmed
    too. *)
Example trim_unicode :
  strings.TrimSpace
    (String (ascii_of_byte 194) (String (ascii_of_byte 160)
       ("x" ++ String (ascii_of_byte 227) (String (ascii_of_byte 128)
                 (String (ascii_of_byte 128) "")))))
  = "x".
Proof. vm_compute. reflexivity. Qed.

(** ** The fallback policy of the composite *)

Ltac run_with H := unfold bind, ret, defer; rewrite H; cbn [fst snd].

Section CompositePolicy.
Context {W : Type}.
Variable c : compositeProvider.t W.

Lemma composite_Set_fallback service user pass w e w1 fb :
  Keyring.Set_ (compositeProvider.primary c) service user pass w
    = (Some e, w1) ->
  compositeProvider.fallback c = Some fb ->
  compositeProvider.Set_ c service user pass w
    = Keyring.Set_ fb service user pass w1.
Proof.
  intros Hp Hf. unfold compositeProvider.Set_. run_with Hp.
  rewrite Hf. reflexivity.
Qed.

Lemma composite_Set_primary service user pass w err w1 :
  Keyring.Set_ (compositeProvider.primary c) service user pass w
    = (err, w1) ->
  err = None \/ compositeProvider.fallback c = None ->
  compositeProvider.Set_ c service user pass w = (err, w1).
Proof.
  intros Hp H. unfold compositeProvider.Set_. run_with Hp.
  destruct H as [-> | ->]; [reflexivity | destruct err; reflexivity].
Qed.

Lemma composite_Get_fallback service user w s e w1 fb :
  Keyring.Get (compositeProvider.primary c) service user w
    = ((s, Some e), w1) ->
  compositeProvider.fallback c = Some fb ->
  compositeProvider.Get c service user w = Keyring.Get fb service user w1.
Proof.
  intros Hp Hf. unfold compositeProvider.Get. run_with Hp.
  rewrite Hf. reflexivity.
Qed.

Lemma composite_Get_primary service user w s err w1 :
  Keyring.Get (compositeProvider.primary c) service user w
    = ((s, err), w1) ->
  err = None \/ compositeProvider.fallback c = None ->
  compositeProvider.Get c service user w = ((s, err), w1).
Proof.
  intros Hp H. unfold compositeProvider.Get. run_with Hp.
  destruct H as [-> | ->]; [reflexivity | destruct err; reflexivity].
Qed.

Lemma composite_Delete_fallback service user w e w1 fb :
  Keyring.Delete (compositeProvider.primary c) service user w
    = (Some e, w1) ->
  compositeProvider.fallback c = Some fb ->
  compositeProvider.Delete c service user w
    = Keyring.Delete fb service user w1.
Proof.
  intros Hp Hf. unfold compositeProvider.Delete. run_with Hp.
  rewrite Hf. reflexivity.
Qed.

Lemma composite_Delete_primary service user w err w1 :
  Keyring.Delete (compositeProvider.primary c) service user w = (err, w1) ->
  err = None \/ compositeProvider.fallback c = None ->
  compositeProvider.Delete c service user w = (err, w1).
Proof.
  intros Hp H. unfold compositeProvider.Delete. run_with Hp.
  destruct H as [-> | ->]; [reflexivity | destruct err; reflexivity].
Qed.

Lemma composite_DeleteAll_fallback service w e w1 fb :
  Keyring.DeleteAll (compositeProvider.primary c) service w
    = (Some e, w1) ->
  compositeProvider.fallback c = Some fb ->
  compositeProvider.DeleteAll c service w = Keyring.DeleteAll fb service w1.
Proof.
  intros Hp Hf. unfold compositeProvider.DeleteAll. run_with Hp.
  rewrite Hf. reflexivity.
Qed.

Lemma composite_DeleteAll_primary service w err w1 :
  Keyring.DeleteAll (compositeProvider.primary c) service w = (err, w1) ->
  err = None \/ compositeProvider.fallback c = None ->
  compositeProvider.DeleteAll c service w = (err, w1).
Proof.
  intros Hp H. unfold compositeProvider.DeleteAll. run_with Hp.
  destruct H as [-> | ->]; [reflexivity | destruct err; reflexivity].
Qed.

End CompositePolicy.

(** ** secretServiceProvider *)

Section SecretServiceFacts.
Context {W : Type} {SS : ss.SecretService W}.

Lemma ss_DeleteAll_empty w :
  secretServiceProvider.DeleteAll "" w = (Some ErrNotFound, w).
Proof. reflexivity. Qed.

Lemma ss_findItem_none svc service user w w1 w2 :
  ss.Unlock svc (ss.GetLoginCollection svc) w = (None, w1) ->
  ss.SearchItems svc (ss.GetLoginCollection svc)
              [("username", user); ("service", service)] w1 = (Ok [], w2) ->
  secretServiceProvider.findItem svc service user w
    = (("", Some ErrNotFound), w2).
Proof.
  intros Hu Hs. unfold secretServiceProvider.findItem.
  run_with Hu. rewrite Hs. reflexivity.
Qed.

Lemma ss_findServiceItems_none svc service w w1 w2 :
  ss.Unlock svc (ss.GetLoginCollection svc) w = (None, w1) ->
  ss.SearchItems svc (ss.GetLoginCollection svc) [("service", service)] w1
    = (Ok [], w2) ->
  secretServiceProvider.findServiceItems svc service w
    = (([], Some ErrNotFound), w2).
Proof.
  intros Hu Hs. unfold secretServiceProvider.findServiceItems.
  run_with Hu. rewrite Hs. reflexivity.
Qed.

Lemma ss_findServiceItems_some svc service w w1 w2 items :
  ss.Unlock svc (ss.GetLoginCollection svc) w = (None, w1) ->
  ss.SearchItems svc (ss.GetLoginCollection svc) [("service", service)] w1
    = (Ok items, w2) ->
  items <> [] ->
  secretServiceProvider.findServiceItems svc service w
    = ((items, None), w2).
Proof.
  intros Hu Hs Hne. unfold secretServiceProvider.findServiceItems.
  run_with Hu. rewrite Hs.
  destruct items as [|i items]; [contradiction | reflexivity].
Qed.

Lemma ss_Get_none service user w svc w1 w2 w3 :
  ss.NewSecretService w = (Ok svc, w1) ->
  ss.Unlock svc (ss.GetLoginCollection svc) w1 = (None, w2) ->
  ss.SearchItems svc (ss.GetLoginCollection svc)
              [("username", user); ("service", service)] w2 = (Ok [], w3) ->
  secretServiceProvider.Get service user w = (("", Some ErrNotFound), w3).
Proof.
  intros Hn Hu Hs. unfold secretServiceProvider.Get. run_with Hn.
  rewrite (ss_findItem_none _ _ _ _ _ _ Hu Hs). reflexivity.
Qed.

Lemma ss_Delete_none service user w svc w1 w2 w3 :
  ss.NewSecretService w = (Ok svc, w1) ->
  ss.Unlock svc (ss.GetLoginCollection svc) w1 = (None, w2) ->
  ss.SearchItems svc (ss.GetLoginCollection svc)
              [("username", user); ("service", service)] w2 = (Ok [], w3) ->
  secretServiceProvider.Delete service user w = (Some ErrNotFound, w3).
Proof.
  intros Hn Hu Hs. unfold secretServiceProvider.Delete. run_with Hn.
  rewrite (ss_findItem_none _ _ _ _ _ _ Hu Hs). reflexivity.
Qed.

Lemma ss_DeleteAll_none service w svc w1 w2 w3 :
  service <> "" ->
  ss.NewSecretService w = (Ok svc, w1) ->
  ss.Unlock svc (ss.GetLoginCollection svc) w1 = (None, w2) ->
  ss.SearchItems svc (ss.GetLoginCollection svc) [("service", service)] w2
    = (Ok [], w3) ->
  secretServiceProvider.DeleteAll service w = (None, w3).
Proof.
  intros Hne Hn Hu Hs. unfold secretServiceProvider.DeleteAll.
  apply String.eqb_neq in Hne. rewrite Hne. run_with Hn.
  rewrite (ss_findServiceItems_none _ _ _ _ _ Hu Hs). reflexivity.
Qed.

(** The loop stops at the first deletion that fails. *)
Lemma deleteItems_stops svc done : forall item rest e w w1 w2,
  all_deleted svc done w w1 ->
  ss.Delete svc item w1 = (Some e, w2) ->
  secretServiceProvider.deleteItems svc (done ++ item :: rest) w
    = (Some e, w2).
Proof.
  induction done as [|d done IH]; intros item rest e w w1 w2 Hdone Hfail.
  - inversion Hdone; subst. simpl. run_with Hfail. reflexivity.
  - inversion Hdone as [|? ? ? wa ? Hd Hrest]; subst. simpl.
    run_with Hd. eapply IH; eassumption.
Qed.

Lemma deleteItems_all svc items : forall w w1,
  all_deleted svc items w w1 ->
  secretServiceProvider.deleteItems svc items w = (None, w1).
Proof.
  induction items as [|d items IH]; intros w w1 Hall.
  - inversion Hall; subst. reflexivity.
  - inversion Hall as [|? ? ? wa ? Hd Hrest]; subst. simpl.
    run_with Hd. apply IH. assumption.
Qed.

Lemma ss_DeleteAll_items service w svc w1 w2 w3 items :
  service <> "" ->
  ss.NewSecretService w = (Ok svc, w1) ->
  ss.Unlock svc (ss.GetLoginCollection svc) w1 = (None, w2) ->
  ss.SearchItems svc (ss.GetLoginCollection svc) [("service", service)] w2
    = (Ok items, w3) ->
  items <> [] ->
  secretServiceProvider.DeleteAll service w
    = secretServiceProvider.deleteItems svc items w3.
Proof.
  intros Hne Hn Hu Hs Hi. unfold secretServiceProvider.DeleteAll.
  apply String.eqb_neq in Hne. rewrite Hne. run_with Hn.
  rewrite (ss_findServiceItems_some _ _ _ _ _ _ Hu Hs Hi). reflexivity.
Qed.

End SecretServiceFacts.

(** ** keyctlProvider, for every kernel *)

Section KeyctlFacts.
Context {W : Type} {U : unix.Syscalls W} {E : exec.Commands W}.
Variable rev : revision.

Lemma keyctl_DeleteAll_empty w :
  keyctlProvider.DeleteAll rev "" w = (Some ErrNotFound, w).
Proof. reflexivity. Qed.

Lemma keyctl_Get_none service user w id w1 e w2 :
  keyctlProvider.resolveKeyring rev w = (Ok id, w1) ->
  unix.KeyctlSearch id "user" (service ++ ":" ++ user) 0 w1 = (Err e, w2) ->
  keyctlProvider.Get rev service user w = (("", Some ErrNotFound), w2).
Proof.
  intros Hr Hs. unfold keyctlProvider.Get, fmt.Sprintf_s_colon_s.
  run_with Hr. rewrite Hs. reflexivity.
Qed.

Lemma keyctl_Delete_none service user w id w1 e w2 :
  keyctlProvider.resolveKeyring rev w = (Ok id, w1) ->
  unix.KeyctlSearch id "user" (service ++ ":" ++ user) 0 w1 = (Err e, w2) ->
  keyctlProvider.Delete rev service user w = (Some ErrNotFound, w2).
Proof.
  intros Hr Hs. unfold keyctlProvider.Delete, fmt.Sprintf_s_colon_s.
  run_with Hr. rewrite Hs. reflexivity.
Qed.

Lemma keyctl_DeleteAll_unresolved service w e w1 :
  keyctlProvider.resolveKeyring rev w = (Err e, w1) ->
  keyctlProvider.DeleteAll rev service w
    = (Some (if String.eqb service "" then ErrNotFound else e),
       if String.eqb service "" then w else w1).
Proof.
  intros Hr. unfold keyctlProvider.DeleteAll.
  destruct (String.eqb service ""); [reflexivity|].
  run_with Hr. reflexivity.
Qed.

Lemma keyctl_DeleteAll_no_listing service w id w1 e w2 :
  service <> "" ->
  keyctlProvider.resolveKeyring rev w = (Ok id, w1) ->
  exec.CombinedOutput "keyctl" ["show"; keyctlProvider.showArgument rev id] w1
    = (Err e, w2) ->
  keyctlProvider.DeleteAll rev service w = (None, w2).
Proof.
  intros Hne Hr Hc. unfold keyctlProvider.DeleteAll.
  apply String.eqb_neq in Hne. rewrite Hne.
  run_with Hr. rewrite Hc. reflexivity.
Qed.

(** Once the keyring is resolved, [DeleteAll] returns nil. *)
Lemma keyctl_DeleteAll_nil service w id w1 :
  service <> "" ->
  keyctlProvider.resolveKeyring rev w = (Ok id, w1) ->
  fst (keyctlProvider.DeleteAll rev service w) = None.
Proof.
  intros Hne Hr. unfold keyctlProvider.DeleteAll.
  apply String.eqb_neq in Hne. rewrite Hne. run_with Hr.
  destruct (exec.CombinedOutput _ _ w1) as [[out|e] w2]; [|reflexivity].
  destruct (forRange _ _ w2). reflexivity.
Qed.


(** [Set] without such a key: search, add. *)
Lemma keyctl_Set_adds service user pass w id w1 e w2 a w3 :
  keyctlProvider.resolveKeyring rev w = (Ok id, w1) ->
  unix.KeyctlSearch id "user" (service ++ ":" ++ user) 0 w1 = (Err e, w2) ->
  unix.AddKey "user" (service ++ ":" ++ user) pass id w2 = (a, w3) ->
  keyctlProvider.Set_ rev service user pass w
  = (match a with Ok _ => None | Err err => Some err end, w3).
Proof.
  intros Hr Hs Ha. unfold keyctlProvider.Set_, fmt.Sprintf_s_colon_s.
  run_with Hr. rewrite Hs, Ha. destruct a; reflexivity.
Qed.

End KeyctlFacts.

(** ** The provider on the kernel model *)

Section ListFacts.
Context {A B : Type}.

Lemma NoDup_map_inj (f : A -> B) (l : list A) a b :
  NoDup (map f l) -> In a l -> In b l -> f a = f b -> a = b.
Proof.
  induction l as [|x l IH]; simpl; intros Hnd Ha Hb Hf; [contradiction|].
  inversion Hnd as [|? ? Hx Hl]; subst.
  destruct Ha as [<- | Ha], Hb as [<- | Hb]; auto.
  - exfalso. apply Hx. rewrite Hf. now apply in_map.
  - exfalso. apply Hx. rewrite <- Hf. now apply in_map.
Qed.

Lemma filter_ext_in_l (p q : A -> bool) (l : list A) :
  (forall a, In a l -> p a = q a) -> filter p l = filter q l.
Proof.
  induction l as [|x l IH]; simpl; intros H; [reflexivity|].
  rewrite (H x) by now left. rewrite IH by (intros; apply H; now right).
  reflexivity.
Qed.

Lemma filter_all (p : A -> bool) (l : list A) :
  (forall a, In a l -> p a = true) -> filter p l = l.
Proof.
  induction l as [|x l IH]; simpl; intros H; [reflexivity|].
  rewrite (H x) by now left. f_equal. apply IH. intros; apply H; now right.
Qed.

Lemma find_none_iff (p : A -> bool) (l : list A) :
  find p l = None <-> (forall a, In a l -> p a = false).
Proof.
  split; [apply find_none|].
  induction l as [|x l IH]; simpl; intros H; [reflexivity|].
  rewrite (H x) by now left. apply IH. intros; apply H; now right.
Qed.

Lemma NoDup_map_filter (keep : A -> bool) (g : A -> B) (xs : list A) :
  NoDup (map g xs) -> NoDup (map g (filter keep xs)).
Proof.
  induction xs as [|x xs IH]; cbn [filter map]; intros Hnd; [constructor|].
  apply NoDup_cons_iff in Hnd as [Hx Hnd].
  destruct (keep x); cbn [map]; [apply NoDup_cons|]; auto.
  intros Hin. apply Hx. apply in_map_iff in Hin as (y & <- & Hy).
  apply filter_In in Hy as [Hy _]. now apply in_map.
Qed.

End ListFacts.

Section StringFacts.

Lemma append_empty_r s : s ++ "" = s.
Proof. induction s; simpl; congruence. Qed.

Lemma append_assoc' (a b c : string) : (a ++ b) ++ c = a ++ (b ++ c).
Proof. induction a; simpl; congruence. Qed.

Lemma length_append' (a b : string) :
  String.length (a ++ b) = (String.length a + String.length b)%nat.
Proof. induction a; simpl; congruence. Qed.

Lemma length_make n : String.length (make n) = n.
Proof. induction n; simpl; congruence. Qed.

Lemma slice_from_length s : forall t,
  String.length t = String.length s -> slice_from (String.length s) t = "".
Proof.
  induction s as [|c s IH]; intros [|d t]; simpl; try discriminate; auto.
Qed.

Lemma slice_from_append a b : slice_from (String.length a) (a ++ b) = b.
Proof. induction a; simpl; auto. Qed.

Lemma slice_to_append a b : slice_to (String.length a) (a ++ b) = a.
Proof. induction a; simpl; congruence. Qed.

Lemma slice_to_all s : slice_to (String.length s) s = s.
Proof. induction s; simpl; congruence. Qed.

Lemma len_nonneg s : 0 <= len s.
Proof. unfold len. lia. Qed.

Lemma len_zero s : len s = 0 <-> s = "".
Proof.
  unfold len. destruct s; simpl; split; intros H; try reflexivity;
    try discriminate; lia.
Qed.

End StringFacts.

Module LinuxFacts.
Import Linux LinuxSpec.

Lemma with_keys_same st : with_keys st (keys st) = st.
Proof. destruct st; reflexivity. Qed.

Lemma with_links_same st : with_links st (linked st) = st.
Proof. destruct st; reflexivity. Qed.

Lemma find_app' (A : Type) (p : A -> bool) (xs ys : list A) :
  find p (xs ++ ys)
  = match find p xs with Some x => Some x | None => find p ys end.
Proof.
  induction xs as [|x xs IH]; cbn [app find]; [reflexivity|].
  destruct (p x); [reflexivity | exact IH].
Qed.

Lemma In_all_keys st k : In k (keys st) -> In k (all st).
Proof. intros H. apply in_or_app. now left. Qed.

Lemma In_all_links st k : In k (links st) -> In k (all st).
Proof. intros H. apply in_or_app. now right. Qed.

Lemma resolveKeyring_run rev st :
  keyctlProvider.resolveKeyring rev st
  = (match ring_fault st with
     | None => Ok (ring st)
     | Some e =>
       Err (match rev with
            | Persistent =>
              wrapError "failed to get persistent keyring" (Errno e)
            | Session => Errno e
            end)
     end, st).
Proof.
  destruct rev; cbn; unfold bind, ret, resolve;
    destruct (ring_fault st); reflexivity.
Qed.

(** A search looks at the keyring itself first. *)
Lemma find_all_direct st ty desc k :
  find (named ty desc) (keys st) = Some k ->
  find (named ty desc) (all st) = Some k.
Proof. intros H. unfold all. now rewrite find_app', H. Qed.

Lemma find_all_below st ty desc :
  find (named ty desc) (keys st) = None ->
  find (named ty desc) (all st) = find (named ty desc) (links st).
Proof. intros H. unfold all. now rewrite find_app', H. Qed.

Lemma named_same ty desc a b :
  named ty desc a = true -> named ty desc b = true -> name_of a = name_of b.
Proof.
  unfold named, name_of. intros Ha Hb.
  apply andb_true_iff in Ha as [Ht Hd], Hb as [Ht' Hd'].
  apply String.eqb_eq in Ht, Hd, Ht', Hd'. congruence.
Qed.

(** In a well-formed keyring a key linked in it is known by its serial
    number and by its name alike. *)
Lemma numbered_named st ty desc k :
  wf st -> find (named ty desc) (keys st) = Some k ->
  forall k', In k' (keys st) ->
    numbered (serial k) k' = named ty desc k'.
Proof.
  intros Hwf Hf k' Hin.
  apply find_some in Hf as [Hk Hnk].
  unfold numbered.
  destruct (Z.eqb_spec (serial k') (serial k)) as [E|E].
  - assert (k' = k)
      by (eapply NoDup_map_inj with (f := serial);
          eauto using wf_serials).
    subst k'. now rewrite Hnk.
  - symmetry. apply not_true_is_false. intros H. apply E.
    assert (k' = k); [|congruence].
    eapply NoDup_map_inj with (f := name_of); eauto using wf_names.
    eapply named_same; eassumption.
Qed.

(** A serial number finds the key it stands for. *)
Lemma find_numbered st k :
  wf st -> In k (all st) ->
  find (numbered (serial k)) (all st) = Some k.
Proof.
  intros Hwf Hin.
  destruct (find (numbered (serial k)) (all st)) as [k'|] eqn:Hf.
  - apply find_some in Hf as [Hin' Hn]. unfold numbered in Hn.
    apply Z.eqb_eq in Hn. f_equal.
    eapply wf_same; eassumption.
  - rewrite find_none_iff in Hf. specialize (Hf k Hin).
    unfold numbered in Hf. now rewrite Z.eqb_refl in Hf.
Qed.

Lemma search_run st desc :
  unix.KeyctlSearch (ring st) "user" desc 0 st
  = (if refused desc then Err (Errno EINVAL)
     else match find (named "user" desc) (all st) with
          | Some k => Ok (serial k)
          | None => Err (Errno ENOKEY)
          end, st).
Proof.
  change (unix.KeyctlSearch (ring st) "user" desc 0 st)
    with (search (ring st) "user" desc st).
  unfold search, refused. change (has_nul "user") with false.
  change (bad_type "user") with false. change (dotted "user") with false.
  rewrite Z.eqb_refl. cbn [orb negb].
  destruct (has_nul desc); [reflexivity|]. cbn [orb].
  destruct (4096 <=? len desc); [reflexivity|].
  destruct (find _ _); reflexivity.
Qed.

Lemma unlink_run st id :
  unix.KeyctlInt unix.KEYCTL_UNLINK id (ring st) 0 0 st
  = if negb (writable st) then (Err (Errno EACCES), st)
    else if existsb (numbered id) (keys st)
    then (Ok 0,
          with_links
            (with_keys st (filter (fun k => negb (numbered id k)) (keys st)))
            (filter (fun e => negb (fst e =? id)) (linked st)))
    else if existsb (numbered id) (links st) then (Err (Errno ENOENT), st)
    else (Err (Errno ENOKEY), st).
Proof.
  change (unix.KeyctlInt unix.KEYCTL_UNLINK id (ring st) 0 0 st)
    with (unlink id (ring st) st).
  unfold unlink. rewrite Z.eqb_refl. reflexivity.
Qed.

(** No key of the type "user" is a keyring through which others are
    found. *)
Lemma user_no_via st k :
  wf st -> In k (keys st) -> keyType k = "user" ->
  filter (fun e => negb (fst e =? serial k)) (linked st) = linked st.
Proof.
  intros Hwf Hin Hty. apply filter_all. intros e He.
  apply negb_true_iff. apply Z.eqb_neq. intros E.
  pose proof (wf_via st Hwf) as Hv. rewrite Forall_forall in Hv.
  destruct (Hv e He) as (kr & Hkr & Hs & Ht).
  assert (kr = k).
  { eapply NoDup_map_inj with (f := serial);
      eauto using wf_serials. congruence. }
  subst kr. rewrite Hty in Ht. discriminate.
Qed.

(** The unlink of the key of a name that is linked in the keyring. *)
Lemma unlink_direct st desc k :
  wf st -> writable st = true ->
  find (named "user" desc) (keys st) = Some k ->
  unix.KeyctlInt unix.KEYCTL_UNLINK (serial k) (ring st) 0 0 st
  = (Ok 0,
     with_keys st (filter (fun a => negb (named "user" desc a)) (keys st))).
Proof.
  intros Hwf Hw Hf. rewrite unlink_run, Hw. cbn [negb].
  pose proof Hf as Hf'. apply find_some in Hf' as [Hin Hn].
  assert (Hex : existsb (numbered (serial k)) (keys st) = true).
  { apply existsb_exists. exists k. split; [assumption|].
    unfold numbered. apply Z.eqb_refl. }
  rewrite Hex. f_equal.
  rewrite user_no_via; try assumption.
  - replace (filter (fun a => negb (numbered (serial k) a)) (keys st))
      with (filter (fun a => negb (named "user" desc a)) (keys st)).
    + destruct st; reflexivity.
    + apply filter_ext_in_l. intros a Ha. f_equal. symmetry.
      eapply numbered_named; eauto.
  - unfold named in Hn. apply andb_true_iff in Hn as [Ht _].
    now apply String.eqb_eq in Ht.
Qed.

(** The unlink of a key that is found below the keyring only. *)
Lemma unlink_below st desc k :
  wf st -> writable st = true ->
  find (named "user" desc) (keys st) = None ->
  find (named "user" desc) (links st) = Some k ->
  unix.KeyctlInt unix.KEYCTL_UNLINK (serial k) (ring st) 0 0 st
  = (Err (Errno ENOENT), st).
Proof.
  intros Hwf Hw Hd Hb. rewrite unlink_run, Hw. cbn [negb].
  apply find_some in Hb as [Hin Hn].
  assert (Hno : existsb (numbered (serial k)) (keys st) = false).
  { apply not_true_is_false. intros H. apply existsb_exists in H
      as (a & Ha & Hs). unfold numbered in Hs. apply Z.eqb_eq in Hs.
    assert (a = k)
      by (eapply wf_same; eauto using In_all_keys, In_all_links).
    subst a. rewrite find_none_iff in Hd. rewrite Hd in Hn by assumption.
    discriminate. }
  rewrite Hno.
  assert (Hex : existsb (numbered (serial k)) (links st) = true).
  { apply existsb_exists. exists k. split; [assumption|].
    unfold numbered. apply Z.eqb_refl. }
  now rewrite Hex.
Qed.

Lemma purge_none desc st :
  find (named "user" desc) (keys st) = None -> purge desc st = st.
Proof.
  intros H. unfold purge. destruct (_ || _); [reflexivity|].
  rewrite filter_all; [apply with_keys_same|].
  intros a Ha. rewrite find_none_iff in H. now rewrite H.
Qed.

(** Search, then unlink what was found: the loop body of [DeleteAll]
    and the first half of [Set]. *)
Lemma search_unlink_run st desc :
  wf st ->
  (r <- unix.KeyctlSearch (ring st) "user" desc 0 ;;
   match r with
   | Ok keyID =>
     _ <- unix.KeyctlInt unix.KEYCTL_UNLINK keyID (ring st) 0 0 ;; ret tt
   | Err _ => ret tt
   end) st
  = (tt, purge desc st).
Proof.
  intros Hwf. unfold bind, ret. rewrite search_run.
  destruct (refused desc) eqn:Hv; [unfold purge; now rewrite Hv|].
  destruct (find (named "user" desc) (keys st)) as [k|] eqn:Hd.
  - rewrite (find_all_direct _ _ _ _ Hd).
    destruct (writable st) eqn:Hw.
    + rewrite (unlink_direct st desc k Hwf Hw Hd).
      unfold purge. now rewrite Hv, Hw.
    + rewrite unlink_run, Hw. unfold purge. rewrite Hw.
      now rewrite orb_true_r.
  - rewrite (find_all_below _ _ _ Hd), (purge_none _ _ Hd).
    destruct (find (named "user" desc) (links st)) as [k|] eqn:Hb;
      [|reflexivity].
    destruct (writable st) eqn:Hw.
    + now rewrite (unlink_below st desc k Hwf Hw Hd Hb).
    + now rewrite unlink_run, Hw.
Qed.

Lemma purge_ring desc st : ring (purge desc st) = ring st.
Proof. unfold purge. destruct (_ || _); reflexivity. Qed.

Lemma purge_ring_fault desc st :
  ring_fault (purge desc st) = ring_fault st.
Proof. unfold purge. destruct (_ || _); reflexivity. Qed.

Lemma purge_writable desc st : writable (purge desc st) = writable st.
Proof. unfold purge. destruct (_ || _); reflexivity. Qed.

Lemma purge_next_serial desc st :
  next_serial (purge desc st) = next_serial st.
Proof. unfold purge. destruct (_ || _); reflexivity. Qed.

Lemma purge_keyctl desc st : keyctl (purge desc st) = keyctl st.
Proof. unfold purge. destruct (_ || _); reflexivity. Qed.

Lemma purge_linked desc st : linked (purge desc st) = linked st.
Proof. unfold purge. destruct (_ || _); reflexivity. Qed.

Lemma purge_links desc st : links (purge desc st) = links st.
Proof. unfold links. now rewrite purge_linked. Qed.

Lemma purge_quota desc st :
  quota_keys (purge desc st) = quota_keys st
  /\ quota_bytes (purge desc st) = quota_bytes st.
Proof. unfold purge. destruct (_ || _); split; reflexivity. Qed.

Lemma purge_keys desc st :
  keys (purge desc st)
  = if refused desc || negb (writable st) then keys st
    else filter (fun k => negb (named "user" desc k)) (keys st).
Proof. unfold purge. destruct (_ || _); reflexivity. Qed.

Lemma In_purge desc st k :
  In k (keys (purge desc st)) -> In k (keys st).
Proof.
  rewrite purge_keys. destruct (_ || _); [auto|].
  intros H. now apply filter_In in H.
Qed.

Lemma In_all_purge desc st k :
  In k (all (purge desc st)) -> In k (all st).
Proof.
  unfold all. rewrite purge_links. intros H.
  apply in_app_iff in H as [H|H]; apply in_or_app;
    [left; eapply In_purge; eassumption | now right].
Qed.

(** A keyring is not purged. *)
Lemma purge_keeps_keyring desc st kr :
  In kr (keys st) -> keyType kr = "keyring" ->
  In kr (keys (purge desc st)).
Proof.
  intros Hin Hty. rewrite purge_keys. destruct (_ || _); [assumption|].
  apply filter_In. split; [assumption|].
  unfold named. now rewrite Hty.
Qed.

Lemma purge_wf desc st : wf st -> wf (purge desc st).
Proof.
  intros Hwf. split.
  - rewrite purge_keys. destruct (_ || _); [apply Hwf|].
    apply NoDup_map_filter, Hwf.
  - rewrite purge_keys. destruct (_ || _); [apply Hwf|].
    apply NoDup_map_filter, Hwf.
  - apply Forall_forall. intros k Hk. apply In_all_purge in Hk.
    rewrite purge_next_serial.
    pose proof (wf_fresh st Hwf) as Hf. rewrite Forall_forall in Hf.
    now apply Hf.
  - intros a b Ha Hb. apply In_all_purge in Ha, Hb.
    now apply (wf_same st Hwf).
  - rewrite purge_linked. apply Forall_forall. intros e He.
    pose proof (wf_via st Hwf) as Hv. rewrite Forall_forall in Hv.
    destruct (Hv e He) as (kr & Hkr & Hs & Ht).
    exists kr. split; [|now split].
    now apply purge_keeps_keyring.
Qed.

Lemma purge_all_wf descs : forall st, wf st -> wf (purge_all descs st).
Proof.
  induction descs as [|d descs IH]; intros st Hwf; [assumption|].
  apply IH. now apply purge_wf.
Qed.

Lemma purge_all_ring descs : forall st, ring (purge_all descs st) = ring st.
Proof.
  induction descs as [|d descs IH]; intros st; [reflexivity|].
  cbn. unfold purge_all in IH. now rewrite IH, purge_ring.
Qed.

Lemma purge_all_ring_fault descs : forall st,
  ring_fault (purge_all descs st) = ring_fault st.
Proof.
  induction descs as [|d descs IH]; intros st; [reflexivity|].
  cbn. unfold purge_all in IH. now rewrite IH, purge_ring_fault.
Qed.

Lemma purge_all_links descs : forall st,
  links (purge_all descs st) = links st.
Proof.
  induction descs as [|d descs IH]; intros st; [reflexivity|].
  cbn. unfold purge_all in IH. now rewrite IH, purge_links.
Qed.

Lemma In_purge_all descs : forall st k,
  In k (keys (purge_all descs st)) -> In k (keys st).
Proof.
  induction descs as [|d descs IH]; intros st k H; [assumption|].
  eapply In_purge. apply IH. exact H.
Qed.

(** A key stays unless it is one of the keys purged. *)
Lemma purge_all_keeps descs : forall st k,
  In k (keys st) ->
  (forall d, In d descs -> named "user" d k = false) ->
  In k (keys (purge_all descs st)).
Proof.
  induction descs as [|d descs IH]; intros st k Hin Hno; [assumption|].
  cbn. apply IH; [|intros; apply Hno; now right].
  rewrite purge_keys. destruct (_ || _); [assumption|].
  apply filter_In. split; [assumption|].
  rewrite Hno by now left. reflexivity.
Qed.

(** A key that is purged once is gone from the keyring for good. *)
Lemma purge_all_removes descs : forall st k desc,
  writable st = true -> refused desc = false ->
  In desc descs -> named "user" desc k = true ->
  ~ In k (keys (purge_all descs st)).
Proof.
  induction descs as [|d descs IH]; intros st k desc Hw Hn Hin Hk;
    [contradiction|].
  cbn. destruct Hin as [-> | Hin].
  - intros H. apply In_purge_all in H. rewrite purge_keys in H.
    rewrite Hn, Hw in H. cbn in H. apply filter_In in H as [_ H].
    rewrite Hk in H. discriminate.
  - eapply IH; eauto. now rewrite purge_writable.
Qed.

End LinuxFacts.

Module KeyctlOnLinux.
Import Linux LinuxSpec LinuxFacts.

Section Runs.
Variable rev : revision.

Lemma deleteLine_run st service line :
  wf st ->
  keyctlProvider.deleteLine (ring st) service
                            (fmt.Sprintf_s_colon service) line st
  = (tt, match scrapeLine service line with
         | Some keyDesc => purge keyDesc st
         | None => st
         end).
Proof.
  intros Hwf. unfold keyctlProvider.deleteLine, scrapeLine.
  destruct (negb (strings.Contains _ _)); [reflexivity|].
  destruct (_ <? 2)%nat; [reflexivity|].
  destruct (negb (strings.HasPrefix _ _)); [reflexivity|].
  now apply search_unlink_run.
Qed.

Lemma forRange_deleteLine_run service lines : forall st,
  wf st ->
  forRange lines
    (keyctlProvider.deleteLine (ring st) service
                               (fmt.Sprintf_s_colon service)) st
  = (tt, purge_all (scrape service lines) st).
Proof.
  induction lines as [|line lines IH]; intros st Hwf; [reflexivity|].
  cbn [forRange scrape]. unfold bind.
  rewrite deleteLine_run by assumption.
  destruct (scrapeLine service line) as [d|].
  - rewrite <- (purge_ring d st). rewrite IH by now apply purge_wf.
    reflexivity.
  - now apply IH.
Qed.

(** [DeleteAll] on a keyring that resolves, with a listing. *)
Lemma DeleteAll_listed_run st service output :
  wf st -> service <> "" -> ring_fault st = None ->
  keyctl st ["show"; keyctlProvider.showArgument rev (ring st)] (all st)
    = Ok output ->
  keyctlProvider.DeleteAll rev service st
  = (None, purge_all (scrape service (strings.Split output LF)) st).
Proof.
  intros Hwf Hne Hr Hout. unfold keyctlProvider.DeleteAll.
  apply String.eqb_neq in Hne. rewrite Hne.
  unfold bind at 1. rewrite resolveKeyring_run, Hr.
  unfold bind at 1.
  change (exec.CombinedOutput "keyctl" ?a st) with (keyctl st a (all st), st).
  rewrite Hout. unfold bind, ret.
  rewrite forRange_deleteLine_run by assumption. reflexivity.
Qed.

Lemma read_size st k :
  find (numbered (serial k)) (all st) = Some k ->
  unix.KeyctlBuffer unix.KEYCTL_READ (serial k) "" 0 st
  = (Ok (len (payload k), ""), st).
Proof.
  intros Hf.
  change (unix.KeyctlBuffer unix.KEYCTL_READ (serial k) "" 0 st)
    with (read (serial k) "" st).
  unfold read. rewrite Hf.
  destruct (Z.leb_spec (len (payload k)) (len "")) as [H|H];
    [|reflexivity].
  assert (E : payload k = "").
  { apply len_zero. pose proof (len_nonneg (payload k)).
    change (len "") with 0 in H. lia. }
  rewrite E. reflexivity.
Qed.

Lemma read_payload st k :
  find (numbered (serial k)) (all st) = Some k ->
  unix.KeyctlBuffer unix.KEYCTL_READ (serial k)
               (make (Z.to_nat (len (payload k)))) 0 st
  = (Ok (len (payload k), payload k), st).
Proof.
  intros Hf.
  change (unix.KeyctlBuffer unix.KEYCTL_READ (serial k) ?b 0 st)
    with (read (serial k) b st).
  unfold read. rewrite Hf. unfold len.
  rewrite !Nat2Z.id, length_make, Z.leb_refl.
  rewrite slice_from_length by apply length_make.
  now rewrite append_empty_r.
Qed.

(** [Get] on a keyring that resolves: the payload of the key of that
    name that the search finds, in the keyring or below it, or
    [ErrNotFound]. *)
Lemma Get_run st service user :
  wf st -> ring_fault st = None ->
  keyctlProvider.Get rev service user st
  = (if refused (service ++ ":" ++ user) then ("", Some ErrNotFound)
     else answer (find (named "user" (service ++ ":" ++ user)) (all st)),
     st).
Proof.
  intros Hwf Hr. unfold keyctlProvider.Get, fmt.Sprintf_s_colon_s.
  unfold bind at 1. rewrite resolveKeyring_run, Hr.
  unfold bind at 1. rewrite search_run.
  destruct (refused _); [reflexivity|].
  destruct (find _ _) as [k|] eqn:Hf; [|reflexivity].
  apply find_some in Hf as [Hin _].
  pose proof (find_numbered st k Hwf Hin) as Hk.
  unfold bind at 1. rewrite read_size by assumption.
  unfold bind, ret. rewrite read_payload by assumption. reflexivity.
Qed.

(** [Delete] on a keyring that resolves: a key linked in the keyring is
    unlinked; for a key that is found below the keyring only, the
    unlink fails. *)
Lemma Delete_run st service user :
  wf st -> ring_fault st = None ->
  keyctlProvider.Delete rev service user st
  = if refused (service ++ ":" ++ user) then (Some ErrNotFound, st)
    else match find (named "user" (service ++ ":" ++ user)) (all st)
         with
         | Some k =>
           if writable st
           then match find (named "user" (service ++ ":" ++ user))
                           (keys st) with
                | Some _ => (None, purge (service ++ ":" ++ user) st)
                | None => (Some (Errno ENOENT), st)
                end
           else (Some (Errno EACCES), st)
         | None => (Some ErrNotFound, st)
         end.
Proof.
  intros Hwf Hr. unfold keyctlProvider.Delete, fmt.Sprintf_s_colon_s.
  unfold bind at 1. rewrite resolveKeyring_run, Hr.
  unfold bind at 1. rewrite search_run.
  destruct (refused _) eqn:Hv; [reflexivity|].
  destruct (find _ (keys st)) as [k|] eqn:Hd.
  - rewrite (find_all_direct _ _ _ _ Hd). unfold bind, ret.
    destruct (writable st) eqn:Hw.
    + rewrite (unlink_direct st _ k Hwf Hw Hd).
      unfold purge. now rewrite Hv, Hw.
    + now rewrite unlink_run, Hw.
  - rewrite (find_all_below _ _ _ Hd).
    destruct (find _ (links st)) as [k|] eqn:Hb; [|reflexivity].
    unfold bind, ret. destruct (writable st) eqn:Hw.
    + now rewrite (unlink_below st _ k Hwf Hw Hd Hb).
    + now rewrite unlink_run, Hw.
Qed.

Lemma add_key_run st ringid desc data :
  ringid = ring st ->
  unix.AddKey "user" desc data ringid st
  = if refused desc then (Err (Errno EINVAL), st)
    else if 1048575 <? len data then (Err (Errno EINVAL), st)
    else if negb (writable st) then (Err (Errno EACCES), st)
    else if (len data =? 0) || (32767 <? len data)
    then (Err (Errno EINVAL), st)
    else if String.eqb desc "" then (Err (Errno EINVAL), st)
    else add_key "user" desc data (ring st) st.
Proof.
  intros ->.
  change (unix.AddKey "user" desc data (ring st) st)
    with (add_key "user" desc data (ring st) st).
  unfold add_key at 1, refused. change (has_nul "user") with false.
  change (bad_type "user") with false. change (dotted "user") with false.
  change ("user" =? "user")%string with true.
  rewrite Z.eqb_refl. cbn [orb negb].
  destruct (has_nul desc) eqn:Hn; [reflexivity|]. cbn [orb].
  destruct (4096 <=? len desc) eqn:Hl; [reflexivity|].
  destruct (1048575 <? len data) eqn:Hm; [reflexivity|].
  destruct (writable st) eqn:Hw; [|reflexivity]. cbn [negb].
  destruct ((len data =? 0) || (32767 <? len data)) eqn:Hp; [reflexivity|].
  destruct (String.eqb desc "") eqn:He; [reflexivity|].
  unfold add_key. change (has_nul "user") with false.
  change (bad_type "user") with false. change (dotted "user") with false.
  change ("user" =? "user")%string with true.
  rewrite Z.eqb_refl, Hn, Hl, Hm, Hw, Hp, He. reflexivity.
Qed.

(** [add_key] of a name that is not linked in the keyring. *)
Lemma add_key_new st desc data :
  refused desc = false -> writable st = true ->
  String.eqb desc "" = false ->
  find (named "user" desc) (keys st) = None ->
  unix.AddKey "user" desc data (ring st) st
  = if (len data =? 0) || (32767 <? len data)
    then (Err (Errno EINVAL), st)
    else if (quota_keys st <? 1)
            || (quota_bytes st <? len desc + 1 + len data)
    then (Err (Errno EDQUOT), st)
    else (Ok (next_serial st),
          mkState (ring st) (ring_fault st) (writable st)
                  (keys st ++ [mkKey (next_serial st) "user" desc data])
                  (linked st) (next_serial st + 1)
                  (quota_keys st - 1)
                  (quota_bytes st - (len desc + 1 + len data))
                  (keyctl st)).
Proof.
  intros Hv Hw He Hf.
  change (unix.AddKey "user" desc data (ring st) st)
    with (add_key "user" desc data (ring st) st).
  unfold add_key. unfold refused in Hv.
  apply orb_false_iff in Hv as [Hn Hl].
  change (has_nul "user") with false.
  change (bad_type "user") with false. change (dotted "user") with false.
  change ("user" =? "user")%string with true.
  rewrite Z.eqb_refl, Hn, Hl, Hw, He, Hf. cbn [orb negb].
  destruct (1048575 <? len data) eqn:Hm.
  - apply Z.ltb_lt in Hm.
    replace (32767 <? len data) with true
      by (symmetry; apply Z.ltb_lt; lia).
    now rewrite orb_true_r.
  - destruct (_ || _); [reflexivity|]. cbv zeta.
    destruct (_ || _); reflexivity.
Qed.

Lemma Set_run st service user pass :
  wf st -> ring_fault st = None ->
  keyctlProvider.Set_ rev service user pass st
  = let (r, st') := unix.AddKey "user" (service ++ ":" ++ user) pass (ring st)
                           (purge (service ++ ":" ++ user) st) in
    (match r with Ok _ => None | Err err => Some err end, st').
Proof.
  intros Hwf Hr. unfold keyctlProvider.Set_, fmt.Sprintf_s_colon_s.
  unfold bind at 1. rewrite resolveKeyring_run, Hr.
  pose proof (search_unlink_run st (service ++ ":" ++ user) Hwf) as Hsu.
  unfold bind, ret in *.
  destruct (unix.KeyctlSearch _ _ _ _ st) as [[id|e] st1].
  - destruct (unix.KeyctlInt _ _ _ _ _ st1) as [u st2].
    inversion Hsu; subst st2.
    destruct (unix.AddKey _ _ _ _ _) as [[k|e'] st3]; reflexivity.
  - inversion Hsu; subst st1.
    destruct (unix.AddKey _ _ _ _ _) as [[k|e'] st3]; reflexivity.
Qed.

Lemma name_not_empty service user :
  String.eqb (service ++ ":" ++ user) "" = false.
Proof. destruct service; reflexivity. Qed.

Lemma find_purged desc l :
  find (named "user" desc)
       (filter (fun k => negb (named "user" desc k)) l) = None.
Proof.
  apply find_none_iff. intros a Ha. apply filter_In in Ha as [_ Ha].
  now apply negb_true_iff.
Qed.

(** [Set] on a writable keyring that resolves, with a name that the
    system calls take. *)
Lemma Set_writable st service user pass :
  wf st -> ring_fault st = None ->
  refused (service ++ ":" ++ user) = false -> writable st = true ->
  keyctlProvider.Set_ rev service user pass st
  = if (len pass =? 0) || (32767 <? len pass)
    then (Some (Errno EINVAL), purge (service ++ ":" ++ user) st)
    else if covered service user pass st
    then (None, stored service user pass st)
    else (Some (Errno EDQUOT), purge (service ++ ":" ++ user) st).
Proof.
  intros Hwf Hr Hv Hw. rewrite Set_run by assumption.
  rewrite <- (purge_ring (service ++ ":" ++ user) st) at 1.
  rewrite add_key_new;
    [|assumption|now rewrite purge_writable|apply name_not_empty|].
  - destruct (_ || _); [reflexivity|].
    destruct (purge_quota (service ++ ":" ++ user) st) as [-> ->].
    unfold covered.
    destruct (Z.ltb_spec (quota_keys st) 1) as [H1|H1];
      destruct (Z.leb_spec 1 (quota_keys st)) as [H2|H2]; try lia;
      cbn [orb andb]; [reflexivity|].
    destruct (Z.ltb_spec (quota_bytes st)
                (len (service ++ ":" ++ user) + 1 + len pass)) as [H3|H3];
      destruct (Z.leb_spec (len (service ++ ":" ++ user) + 1 + len pass)
                  (quota_bytes st)) as [H4|H4]; try lia; [reflexivity|].
    unfold purge. rewrite Hv, Hw. reflexivity.
  - rewrite purge_keys, Hv, Hw. apply find_purged.
Qed.

Lemma Set_ok st service user pass st' :
  wf st ->
  keyctlProvider.Set_ rev service user pass st = (None, st') ->
  ring_fault st = None
  /\ refused (service ++ ":" ++ user) = false
  /\ writable st = true
  /\ 0 < len pass <= 32767
  /\ st' = stored service user pass st.
Proof.
  intros Hwf HS.
  destruct (ring_fault st) as [e|] eqn:Hr.
  { unfold keyctlProvider.Set_ in HS. unfold bind at 1 in HS.
    rewrite resolveKeyring_run, Hr in HS. destruct rev; discriminate. }
  destruct (refused (service ++ ":" ++ user)) eqn:Hv.
  { rewrite Set_run in HS by assumption.
    rewrite add_key_run in HS by (symmetry; apply purge_ring).
    rewrite Hv in HS. discriminate. }
  destruct (writable st) eqn:Hw.
  2:{ rewrite Set_run in HS by assumption.
      rewrite add_key_run in HS by (symmetry; apply purge_ring).
      rewrite Hv, purge_writable, Hw in HS.
      destruct (_ <? _); discriminate. }
  rewrite Set_writable in HS by assumption.
  destruct ((len pass =? 0) || (32767 <? len pass)) eqn:Hlen;
    [discriminate|].
  destruct (covered _ _ _ _); [|discriminate].
  apply orb_false_iff in Hlen as [Hlo Hhi].
  apply Z.eqb_neq in Hlo. apply Z.ltb_ge in Hhi.
  pose proof (len_nonneg pass).
  inversion HS. repeat split; auto; lia.
Qed.

Lemma Set_succeeds st service user pass :
  wf st -> ring_fault st = None ->
  refused (service ++ ":" ++ user) = false -> writable st = true ->
  0 < len pass <= 32767 ->
  covered service user pass st = true ->
  keyctlProvider.Set_ rev service user pass st
  = (None, stored service user pass st).
Proof.
  intros Hwf Hr Hv Hw Hlen Hq. rewrite Set_writable by assumption.
  replace (len pass =? 0) with false by (symmetry; apply Z.eqb_neq; lia).
  replace (32767 <? len pass) with false
    by (symmetry; apply Z.ltb_ge; lia).
  cbn [orb]. now rewrite Hq.
Qed.

Lemma In_all_stored st service user pass k :
  In k (all (stored service user pass st)) ->
  In k (all st)
  \/ k = mkKey (next_serial st) "user" (service ++ ":" ++ user) pass.
Proof.
  unfold all, stored, links. cbn [keys linked]. intros H.
  apply in_app_iff in H as [H|H].
  - apply in_app_iff in H as [H|[<-|[]]]; [|now right].
    apply filter_In in H as [H _]. left. apply in_or_app. now left.
  - left. apply in_or_app. now right.
Qed.

Lemma stored_wf st service user pass :
  wf st -> wf (stored service user pass st).
Proof.
  intros Hwf. pose proof (wf_fresh st Hwf) as Hf.
  rewrite Forall_forall in Hf.
  split.
  - cbn [stored keys]. rewrite map_app. cbn [map serial].
    apply NoDup_app;
      [apply NoDup_map_filter, Hwf|repeat constructor; auto|].
    intros x Hx [<- | []]. apply in_map_iff in Hx as (k & Hk & Hin).
    apply filter_In in Hin as [Hin _].
    apply In_all_keys, Hf in Hin. lia.
  - cbn [stored keys]. rewrite map_app.
    cbn [map name_of keyType description].
    apply NoDup_app;
      [apply NoDup_map_filter, Hwf|repeat constructor; auto|].
    intros x Hx [<- | []]. apply in_map_iff in Hx as (k & Hk & Hin).
    apply filter_In in Hin as [_ Hin]. apply negb_true_iff in Hin.
    unfold named, name_of in *. inversion Hk as [[Ht Hd]].
    rewrite Ht, Hd, !String.eqb_refl in Hin. discriminate.
  - apply Forall_forall. intros k Hk.
    apply In_all_stored in Hk as [Hk | ->]; cbn [stored next_serial].
    + apply Hf in Hk. lia.
    + cbn. lia.
  - intros a b Ha Hb Hs.
    apply In_all_stored in Ha as [Ha | ->], Hb as [Hb | ->].
    + now apply (wf_same st Hwf).
    + apply Hf in Ha. cbn in Hs. lia.
    + apply Hf in Hb. cbn in Hs. lia.
    + reflexivity.
  - cbn [stored linked]. apply Forall_forall. intros e He.
    pose proof (wf_via st Hwf) as Hv. rewrite Forall_forall in Hv.
    destruct (Hv e He) as (kr & Hkr & Hs & Ht).
    exists kr. split; [|now split]. cbn [stored keys].
    apply in_or_app. left. apply filter_In. split; [assumption|].
    unfold named. now rewrite Ht.
Qed.

Lemma stored_find st service user pass :
  find (named "user" (service ++ ":" ++ user))
       (keys (stored service user pass st))
  = Some (mkKey (next_serial st) "user" (service ++ ":" ++ user) pass).
Proof.
  cbn [stored keys]. rewrite find_app', find_purged.
  unfold find, named. cbn. now rewrite !String.eqb_refl.
Qed.

Lemma Get_stored st service user pass :
  wf st -> ring_fault st = None ->
  refused (service ++ ":" ++ user) = false ->
  keyctlProvider.Get rev service user (stored service user pass st)
  = ((pass, None), stored service user pass st).
Proof.
  intros Hwf Hr Hv.
  rewrite Get_run; [|now apply stored_wf|assumption].
  rewrite Hv. now rewrite (find_all_direct _ _ _ _ (stored_find _ _ _ _)).
Qed.

End Runs.

End KeyctlOnLinux.

(** ** Facts on package strings *)

Module StringsFacts.
Import strings.

Lemma Index_unfold s substr :
  Index s substr
  = if HasPrefix s substr then 0
    else match s with
         | EmptyString => -1
         | String _ s' =>
           let i := Index s' substr in if i <? 0 then -1 else i + 1
         end.
Proof. destruct s; reflexivity. Qed.

Lemma HasPrefix_empty s : HasPrefix s "" = true.
Proof. destruct s; reflexivity. Qed.

Lemma Index_lower s substr : -1 <= Index s substr.
Proof.
  induction s as [|c s IH]; rewrite Index_unfold;
    destruct (HasPrefix _ _); try lia.
  cbv zeta. destruct (Z.ltb_spec (Index s substr) 0); lia.
Qed.

Lemma Index_cons_miss c s substr :
  HasPrefix (String c s) substr = false ->
  Index (String c s) substr
  = if Index s substr <? 0 then -1 else Index s substr + 1.
Proof. intros H. rewrite Index_unfold, H. reflexivity. Qed.

Lemma Contains_cons_miss c s substr :
  HasPrefix (String c s) substr = false ->
  Contains (String c s) substr = Contains s substr.
Proof.
  intros H. unfold Contains. rewrite Index_cons_miss by assumption.
  pose proof (Index_lower s substr).
  destruct (Z.ltb_spec (Index s substr) 0);
    destruct (Z.leb_spec 0 (Index s substr)); lia.
Qed.

Lemma Contains_prefix s substr :
  HasPrefix s substr = true -> Contains s substr = true.
Proof. intros H. unfold Contains. now rewrite Index_unfold, H. Qed.

(** A string contains what one of its suffixes begins with. *)
Lemma Contains_app_r x y substr :
  HasPrefix y substr = true -> Contains (x ++ y) substr = true.
Proof.
  intros H. induction x as [|c x IH]; cbn [append].
  - now apply Contains_prefix.
  - destruct (HasPrefix (String c (x ++ y)) substr) eqn:E.
    + now apply Contains_prefix.
    + now rewrite Contains_cons_miss.
Qed.

(** A string that contains [substr] behind its first byte contains it. *)
Lemma Contains_cons c s substr :
  Contains s substr = true -> Contains (String c s) substr = true.
Proof.
  intros H. destruct (HasPrefix (String c s) substr) eqn:E.
  - now apply Contains_prefix.
  - now rewrite Contains_cons_miss.
Qed.

Lemma Contains_false_tail c s substr :
  Contains (String c s) substr = false ->
  HasPrefix (String c s) substr = false /\ Contains s substr = false.
Proof.
  intros H. destruct (HasPrefix (String c s) substr) eqn:E.
  - apply Contains_prefix in E. congruence.
  - split; [reflexivity|]. now rewrite Contains_cons_miss in H.
Qed.

Lemma Index_absent s substr :
  Contains s substr = false -> Index s substr = -1.
Proof.
  unfold Contains. intros H. apply Z.leb_gt in H.
  pose proof (Index_lower s substr). lia.
Qed.

Lemma slice_from_add a : forall b s,
  slice_from (a + b) s = slice_from b (slice_from a s).
Proof.
  induction a as [|a IH]; intros b s; [reflexivity|].
  destruct s as [|c s]; cbn [Nat.add slice_from].
  - destruct b; reflexivity.
  - apply IH.
Qed.

Lemma length_slice_from n : forall s,
  String.length (slice_from n s) = (String.length s - n)%nat.
Proof.
  induction n as [|n IH]; intros [|c s]; cbn; auto.
Qed.

Lemma genSplit_miss n s sep :
  Contains s sep = false -> genSplit n s sep = [s].
Proof.
  intros H. apply Index_absent in H.
  destruct n; cbn [genSplit]; [reflexivity|]. now rewrite H.
Qed.

Lemma genSplit_hit n s sep :
  0 <= Index s sep ->
  genSplit (S n) s sep
  = slice_to (Z.to_nat (Index s sep)) s
    :: genSplit n (slice_from (Z.to_nat (Index s sep) + String.length sep) s)
                sep.
Proof.
  intros H. cbn [genSplit]. cbv zeta.
  destruct (Z.ltb_spec (Index s sep) 0); [lia | reflexivity].
Qed.

(** The bound that [Split] gives to [genSplit] is enough: a larger one
    gives the same pieces. *)
Lemma genSplit_enough sep : sep <> "" -> forall n m s,
  (String.length s <= n)%nat -> (String.length s <= m)%nat ->
  genSplit n s sep = genSplit m s sep.
Proof.
  intros Hsep.
  assert (Hempty : forall k, genSplit k "" sep = [""]).
  { intros [|k]; [reflexivity|]. cbn [genSplit]. rewrite Index_unfold.
    destruct sep; [contradiction | reflexivity]. }
  assert (Hlen : (1 <= String.length sep)%nat)
    by (destruct sep; [contradiction | cbn; lia]).
  induction n as [|n IH]; intros m s Hn Hm.
  - destruct s; [|cbn in Hn; lia]. now rewrite !Hempty.
  - destruct m as [|m].
    + destruct s; [|cbn in Hm; lia]. now rewrite !Hempty.
    + cbn [genSplit]. cbv zeta.
      destruct (Index s sep <? 0); [reflexivity|]. f_equal.
      apply IH; rewrite length_slice_from; lia.
Qed.

(** The first instance of the marker is behind a part without colon. *)
Lemma HasPrefix_marker_miss c pre rest :
  Contains (String c pre) ":" = false ->
  HasPrefix (String c pre ++ "user:" ++ rest) "user:" = false.
Proof.
  intros H.
  assert (Hc : forall a s, Contains (String a s) ":" = false ->
                           Ascii.eqb ":" a = false
                           /\ Contains s ":" = false).
  { intros a s Ha. apply Contains_false_tail in Ha as [Hp Ht].
    split; [|assumption]. cbn [HasPrefix] in Hp.
    now rewrite HasPrefix_empty, andb_true_r in Hp. }
  apply Hc in H as [_ H].
  destruct pre as [|c1 pre]; cbn [append HasPrefix].
  { destruct (Ascii.eqb "u" c); [|reflexivity].
    reflexivity. }
  apply Hc in H as [_ H].
  destruct pre as [|c2 pre]; cbn [append HasPrefix].
  { destruct (Ascii.eqb "u" c), (Ascii.eqb "s" c1); reflexivity. }
  apply Hc in H as [_ H].
  destruct pre as [|c3 pre]; cbn [append HasPrefix].
  { destruct (Ascii.eqb "u" c), (Ascii.eqb "s" c1), (Ascii.eqb "e" c2);
      reflexivity. }
  apply Hc in H as [H3 H].
  destruct pre as [|c4 pre]; cbn [append HasPrefix].
  { destruct (Ascii.eqb "u" c), (Ascii.eqb "s" c1), (Ascii.eqb "e" c2),
      (Ascii.eqb "r" c3); reflexivity. }
  apply Hc in H as [H4 _]. rewrite H4.
  destruct (Ascii.eqb "u" c), (Ascii.eqb "s" c1), (Ascii.eqb "e" c2),
    (Ascii.eqb "r" c3); reflexivity.
Qed.

Lemma Index_marker pre rest :
  Contains pre ":" = false ->
  Index (pre ++ "user:" ++ rest) "user:" = len pre.
Proof.
  induction pre as [|c pre IH]; intros H.
  { rewrite Index_unfold. cbn. now rewrite HasPrefix_empty. }
  pose proof (HasPrefix_marker_miss c pre rest H) as Hm.
  cbn [append] in *. rewrite Index_cons_miss by assumption.
  apply Contains_false_tail in H as [_ H]. rewrite IH by assumption.
  unfold len. cbn [String.length].
  destruct (Z.ltb_spec (Z.of_nat (String.length pre)) 0); lia.
Qed.

(** The line of a key in the listing splits in two at the marker. *)
Lemma Split_marker pre desc :
  Contains pre ":" = false ->
  Contains desc "user:" = false ->
  Split (pre ++ "user: " ++ desc) "user:" = [pre; " " ++ desc].
Proof.
  intros Hpre Hdesc. unfold Split.
  change (pre ++ "user: " ++ desc) with (pre ++ "user:" ++ " " ++ desc).
  pose proof (Index_marker pre (" " ++ desc) Hpre) as Hi.
  assert (Hl : String.length (pre ++ "user:" ++ " " ++ desc)
               = S (String.length pre + 5 + String.length desc)).
  { rewrite length_append'. cbn. lia. }
  rewrite Hl, genSplit_hit by (rewrite Hi; apply len_nonneg).
  rewrite Hi. unfold len. rewrite Nat2Z.id, slice_to_append.
  rewrite slice_from_add, slice_from_append.
  change (slice_from (String.length "user:") ("user:" ++ " " ++ desc))
    with (" " ++ desc).
  rewrite genSplit_miss; [reflexivity|].
  cbn [append]. now rewrite Contains_cons_miss by reflexivity.
Qed.

Lemma TrimSpace_space s : TrimSpace (" " ++ s) = TrimSpace s.
Proof. reflexivity. Qed.

End StringsFacts.

(** ** What [DeleteAll] scrapes, and what it unlinks *)

Module ScrapeFacts.
Import Linux LinuxSpec LinuxFacts StringsFacts.

Lemma scrapeLine_prefix service line keyDesc :
  scrapeLine service line = Some keyDesc ->
  strings.HasPrefix keyDesc (service ++ ":") = true.
Proof.
  unfold scrapeLine.
  destruct (negb (strings.Contains _ _)); [discriminate|].
  destruct (_ <? 2)%nat; [discriminate|].
  destruct (strings.HasPrefix _ _) eqn:E; [|discriminate].
  cbn [negb]. now intros [= <-].
Qed.

(** Only descriptions that begin with the service and a colon are
    scraped, whatever the listing is. *)
Lemma scrape_prefix service lines keyDesc :
  In keyDesc (scrape service lines) ->
  strings.HasPrefix keyDesc (service ++ ":") = true.
Proof.
  induction lines as [|line lines IH]; cbn [scrape]; [contradiction|].
  destruct (scrapeLine service line) as [d|] eqn:E; [|assumption].
  intros [<- | H]; [|auto]. eapply scrapeLine_prefix; eassumption.
Qed.

Lemma scrape_In service lines line keyDesc :
  In line lines -> scrapeLine service line = Some keyDesc ->
  In keyDesc (scrape service lines).
Proof.
  induction lines as [|l lines IH]; cbn [scrape]; [contradiction|].
  intros [-> | H] E.
  - rewrite E. now left.
  - destruct (scrapeLine service l); [right|]; auto.
Qed.

(** A line in the documented format yields the description of its key. *)
Lemma scrapeLine_listed service pre desc :
  strings.Contains pre ":" = false ->
  strings.Contains desc "user:" = false ->
  strings.TrimSpace desc = desc ->
  strings.HasPrefix desc (service ++ ":") = true ->
  scrapeLine service (pre ++ "user: " ++ desc) = Some desc.
Proof.
  intros Hpre Hdesc Htrim Hpfx. unfold scrapeLine, fmt.Sprintf_s_colon.
  replace (pre ++ "user: " ++ desc) with ((pre ++ "user: ") ++ desc)
    by apply append_assoc'.
  rewrite Contains_app_r by assumption. cbn [negb].
  rewrite append_assoc', Split_marker by assumption.
  cbn [List.length Nat.ltb Nat.leb nth].
  rewrite TrimSpace_space, Htrim, Hpfx. reflexivity.
Qed.

Lemma named_prefix service d k :
  strings.HasPrefix d (service ++ ":") = true ->
  of_service service k = false ->
  named "user" d k = false.
Proof.
  unfold of_service, named. intros Hd Hk.
  destruct (String.eqb (keyType k) "user"); [|reflexivity].
  cbn [andb] in *. apply String.eqb_neq. congruence.
Qed.

Lemma purge_id desc st :
  (forall k, In k (keys st) -> named "user" desc k = false) ->
  purge desc st = st.
Proof.
  intros H. unfold purge. destruct (_ || _); [reflexivity|].
  rewrite filter_all; [apply with_keys_same|].
  intros k Hk. now rewrite H.
Qed.

Lemma purge_all_id descs st :
  (forall d k, In d descs -> In k (keys st) -> named "user" d k = false) ->
  purge_all descs st = st.
Proof.
  induction descs as [|d descs IH]; intros H; [reflexivity|].
  cbn. rewrite purge_id by (intros; apply H; [now left | assumption]).
  apply IH. intros; apply H; [now right | assumption].
Qed.

Section OnLinux.
Variable rev : revision.

(** [DeleteAll] on the model, in full. *)
Lemma DeleteAll_run st service :
  wf st -> service <> "" ->
  keyctlProvider.DeleteAll rev service st
  = match ring_fault st with
    | Some e =>
      (Some (match rev with
             | Persistent =>
               wrapError "failed to get persistent keyring" (Errno e)
             | Session => Errno e
             end), st)
    | None =>
      match keyctl st ["show"; keyctlProvider.showArgument rev (ring st)]
                   (all st) with
      | Err _ => (None, st)
      | Ok output =>
        (None, purge_all (scrape service (strings.Split output LF)) st)
      end
    end.
Proof.
  intros Hwf Hne.
  destruct (ring_fault st) as [e|] eqn:Hr.
  - rewrite (keyctl_DeleteAll_unresolved rev service st _ st)
      by now rewrite LinuxFacts.resolveKeyring_run, Hr.
    apply String.eqb_neq in Hne. now rewrite Hne.
  - destruct (keyctl st _ (all st)) as [out|e] eqn:Hout.
    + now apply KeyctlOnLinux.DeleteAll_listed_run.
    + eapply keyctl_DeleteAll_no_listing; [assumption| |].
      * now rewrite LinuxFacts.resolveKeyring_run, Hr.
      * change (exec.CombinedOutput "keyctl" ?a st)
          with (keyctl st a (all st), st).
        now rewrite Hout.
Qed.

Lemma DeleteAll_wf st service :
  wf st -> wf (snd (keyctlProvider.DeleteAll rev service st)).
Proof.
  intros Hwf. destruct (String.eqb_spec service "") as [->|Hne];
    [assumption|].
  rewrite DeleteAll_run by assumption.
  destruct (ring_fault st); [assumption|].
  destruct (keyctl st _ _); [|assumption].
  now apply purge_all_wf.
Qed.

(** Frame: a key that is not of the service stays. *)
Lemma DeleteAll_keeps st service k :
  wf st -> In k (keys st) -> of_service service k = false ->
  In k (keys (snd (keyctlProvider.DeleteAll rev service st))).
Proof.
  intros Hwf Hin Hk. destruct (String.eqb_spec service "") as [->|Hne];
    [assumption|].
  rewrite DeleteAll_run by assumption.
  destruct (ring_fault st); [assumption|].
  destruct (keyctl st _ _); [|assumption].
  apply purge_all_keeps; [assumption|].
  intros d Hd. eapply named_prefix; [|eassumption].
  eapply scrape_prefix; eassumption.
Qed.

(** No key of the service: the keyring is left as it is. *)
Lemma DeleteAll_nothing st service :
  wf st -> service <> "" -> ring_fault st = None ->
  (forall k, In k (keys st) -> of_service service k = false) ->
  keyctlProvider.DeleteAll rev service st = (None, st).
Proof.
  intros Hwf Hne Hr Hno. rewrite DeleteAll_run, Hr by assumption.
  destruct (keyctl st _ _); [|reflexivity].
  rewrite purge_all_id; [reflexivity|].
  intros d k Hd Hk. eapply named_prefix; [|now apply Hno].
  eapply scrape_prefix; eassumption.
Qed.

End OnLinux.

End ScrapeFacts.

Module IsolationFacts.
Import Linux LinuxSpec LinuxFacts StringsFacts ScrapeFacts.

Lemma HasPrefix_append a b : strings.HasPrefix (a ++ b) a = true.
Proof.
  induction a as [|c a IH]; cbn [append strings.HasPrefix].
  - apply HasPrefix_empty.
  - now rewrite Ascii.eqb_refl, IH.
Qed.

Lemma find_named_unique st ty desc k :
  wf st -> In k (keys st) -> named ty desc k = true ->
  find (named ty desc) (keys st) = Some k.
Proof.
  intros Hwf Hin Hn.
  destruct (find (named ty desc) (keys st)) as [k'|] eqn:Hf.
  - f_equal. pose proof Hf as Hf'. apply find_some in Hf' as [Hin' Hn'].
    destruct Hwf as [_ Hnames _].
    eapply NoDup_map_inj with (f := name_of); eauto.
    unfold named, name_of in *.
    apply andb_true_iff in Hn as [Ht Hd], Hn' as [Ht' Hd'].
    apply String.eqb_eq in Ht, Hd, Ht', Hd'. congruence.
  - rewrite find_none_iff in Hf. rewrite Hf in Hn by assumption.
    discriminate.
Qed.

(** What a successful [Get] tells about the keyring. *)
Lemma Get_ok_inv rev st st' service user p :
  wf st ->
  keyctlProvider.Get rev service user st = ((p, None), st') ->
  ring_fault st = None
  /\ refused (service ++ ":" ++ user) = false
  /\ exists k, find (named "user" (service ++ ":" ++ user)) (all st)
               = Some k /\ payload k = p.
Proof.
  intros Hwf HG.
  destruct (ring_fault st) as [e|] eqn:Hr.
  { unfold keyctlProvider.Get in HG. unfold bind at 1 in HG.
    rewrite resolveKeyring_run, Hr in HG. destruct rev; discriminate. }
  rewrite KeyctlOnLinux.Get_run in HG by assumption.
  destruct (refused _); [discriminate|].
  destruct (find _ _) as [k|]; [|discriminate].
  inversion HG. eauto.
Qed.

End IsolationFacts.

(** ** Set, then Get or Set again *)

Module RoundTrip.
Import Linux LinuxSpec.

Lemma Set_Get rev st st' service user pass :
  wf st ->
  keyctlProvider.Set_ rev service user pass st = (None, st') ->
  keyctlProvider.Get rev service user st' = ((pass, None), st').
Proof.
  intros Hwf HS.
  apply KeyctlOnLinux.Set_ok in HS as (Hr & Hnul & _ & _ & ->);
    [|assumption].
  now apply KeyctlOnLinux.Get_stored.
Qed.

Lemma filter_purged desc l :
  filter (named "user" desc)
         (filter (fun k => negb (named "user" desc k)) l) = [].
Proof.
  induction l as [|x l IH]; [reflexivity|].
  cbn [filter]. destruct (named _ _ x) eqn:E; cbn [negb filter];
    [assumption|]. now rewrite E.
Qed.

Lemma stored_count st service user pass :
  count_named (service ++ ":" ++ user) (stored service user pass st) = 1%nat.
Proof.
  unfold count_named, stored. cbn [keys].
  rewrite filter_app, length_app, filter_purged. cbn [filter].
  unfold named. cbn [keyType description].
  now rewrite !String.eqb_refl.
Qed.




Lemma flat_wf r f w ks n t :
  NoDup (map serial ks) -> NoDup (map name_of ks) ->
  Forall (fun k => serial k < n) ks ->
  wf (flat r f w ks n t).
Proof.
  intros Hs Hn Hf. split; cbn; try assumption.
  - now rewrite app_nil_r.
  - unfold all. cbn. rewrite app_nil_r. intros a b Ha Hb E.
    eapply NoDup_map_inj with (f := serial); eassumption.
  - constructor.
Qed.

Lemma empty_ring_wf : wf Samples.empty_ring.
Proof. apply flat_wf; constructor. Qed.

Lemma two_services_wf : wf Samples.two_services.
Proof.
  apply flat_wf.
  - repeat constructor; cbn; intuition discriminate.
  - repeat constructor; cbn; intuition discriminate.
  - repeat constructor.
Qed.

Lemma nested_services_wf : wf Samples.nested_services.
Proof.
  apply flat_wf.
  - repeat constructor; cbn; intuition discriminate.
  - repeat constructor; cbn; intuition discriminate.
  - repeat constructor.
Qed.

End RoundTrip.

(** ** DeleteAll and the other services *)

Module Isolation.
Import Linux LinuxSpec.

(** After [DeleteAll] the keys found below the keyring are found as
    before, and those of the keyring itself that are left. *)
Lemma find_all_swept (targets : list string) st ty desc :
  find (named ty desc) (all (purge_all targets st))
  = match find (named ty desc) (keys (purge_all targets st)) with
    | Some k => Some k
    | None => find (named ty desc) (links st)
    end.
Proof.
  unfold all. now rewrite LinuxFacts.find_app', LinuxFacts.purge_all_links.
Qed.

Lemma isolates rev st service1 service2 user p1 p2 output pre :
  wf st ->
  service1 <> "" ->
  writable st = true ->
  below service1 user st = None ->
  keyctl st ["show"; keyctlProvider.showArgument rev (ring st)] (all st)
    = Ok output ->
  In (pre ++ "user: " ++ service1 ++ ":" ++ user)
     (strings.Split output LF) ->
  strings.Contains pre ":" = false ->
  strings.Contains (service1 ++ ":" ++ user) "user:" = false ->
  strings.TrimSpace (service1 ++ ":" ++ user) = service1 ++ ":" ++ user ->
  strings.HasPrefix (service2 ++ ":" ++ user) (service1 ++ ":") = false ->
  DeleteAll_isolates rev st service1 service2 user p1 p2.
Proof.
  intros Hwf Hne Hw Hbelow Hout Hline Hpre Hmark Htrim Hother _ G1 G2.
  apply IsolationFacts.Get_ok_inv in G1 as (Hr & Hnul1 & k1 & Hf1 & _);
    [|assumption].
  apply IsolationFacts.Get_ok_inv in G2 as (_ & Hnul2 & k2 & Hf2 & Hp2);
    [|assumption].
  rewrite ScrapeFacts.DeleteAll_run, Hr, Hout by assumption.
  cbn [snd]. cbv zeta.
  set (targets := scrape service1 (strings.Split output LF)).
  assert (Hwf' : wf (purge_all targets st))
    by now apply LinuxFacts.purge_all_wf.
  assert (Hr' : ring_fault (purge_all targets st) = None)
    by now rewrite LinuxFacts.purge_all_ring_fault.
  assert (Hpfx : strings.HasPrefix (service1 ++ ":" ++ user)
                                   (service1 ++ ":") = true).
  { rewrite <- append_assoc'. apply IsolationFacts.HasPrefix_append. }
  assert (Hin : In (service1 ++ ":" ++ user) targets).
  { eapply ScrapeFacts.scrape_In; [exact Hline|].
    now apply ScrapeFacts.scrapeLine_listed. }
  rewrite !KeyctlOnLinux.Get_run by assumption.
  rewrite Hnul1, Hnul2, !find_all_swept. split.
  - replace (find _ (keys (purge_all targets st)))
      with (@None key).
    + unfold below in Hbelow. now rewrite Hbelow.
    + symmetry. apply find_none_iff. intros k Hk.
      apply not_true_is_false. intros Hn.
      exact (LinuxFacts.purge_all_removes targets st k _ Hw Hnul1 Hin Hn Hk).
  - unfold all in Hf2. rewrite LinuxFacts.find_app' in Hf2.
    destruct (find (named "user" (service2 ++ ":" ++ user)) (keys st))
      as [k|] eqn:Hd.
    + inversion Hf2; subst k. apply find_some in Hd as [Hk2 Hn2].
      rewrite (IsolationFacts.find_named_unique _ _ _ k2 Hwf');
        [now rewrite <- Hp2| |assumption].
      apply LinuxFacts.purge_all_keeps; [assumption|].
      intros d Hd. eapply ScrapeFacts.named_prefix.
      * eapply ScrapeFacts.scrape_prefix. exact Hd.
      * unfold of_service, named in *.
        apply andb_true_iff in Hn2 as [_ Hd2]. apply String.eqb_eq in Hd2.
        rewrite Hd2, Hother. apply andb_false_r.
    + replace (find _ (keys (purge_all targets st)))
        with (@None key).
      * rewrite Hf2. now rewrite <- Hp2.
      * symmetry. apply find_none_iff. intros k Hk.
        apply LinuxFacts.In_purge_all in Hk.
        rewrite find_none_iff in Hd. now apply Hd.
Qed.

End Isolation.

(** ** The listing of the keyctl program *)

Module Listing.
Import Linux LinuxSpec StringsFacts.

(** A name that begins and ends with a solid byte is left as it is. *)
Lemma TrimSpace_solid c s last :
  String.get (String.length s) (String c s) = Some last ->
  solid c = true -> solid last = true ->
  strings.TrimSpace (String c s) = String c s.
Proof.
  unfold solid. intros Hlast Hc Hl.
  apply andb_true_iff in Hc as [Hc1 Hc2], Hl as [Hl1 Hl2].
  apply Z.ltb_lt in Hc1, Hl1. apply negb_true_iff in Hc2, Hl2.
  cbn [strings.TrimSpace].
  replace (utf8.RuneSelf <=? byte_of c) with false
    by (symmetry; apply Z.leb_gt; assumption).
  rewrite Hc2. cbn [String.length strings.trimSpaceStop]. rewrite Hlast.
  replace (utf8.RuneSelf <=? byte_of last) with false
    by (symmetry; apply Z.leb_gt; assumption).
  rewrite Hl2. change (S (String.length s)) with (String.length (String c s)).
  apply slice_to_all.
Qed.

Lemma Contains_free c s :
  free_of c s = true -> strings.Contains s (String c "") = false.
Proof.
  induction s as [|a s IH]; cbn [free_of]; intros H; [reflexivity|].
  apply andb_true_iff in H as [Ha Hs]. apply negb_true_iff in Ha.
  rewrite Contains_cons_miss; [auto|].
  cbn [strings.HasPrefix]. now rewrite Ha.
Qed.

Lemma free_of_Contains c s :
  strings.Contains s (String c "") = false -> free_of c s = true.
Proof.
  induction s as [|a s IH]; intros H; [reflexivity|].
  apply Contains_false_tail in H as [Hp Ht]. cbn [free_of].
  cbn [strings.HasPrefix] in Hp. rewrite HasPrefix_empty, andb_true_r in Hp.
  now rewrite Hp, IH.
Qed.

Lemma free_of_app c a b :
  free_of c (a ++ b) = free_of c a && free_of c b.
Proof.
  induction a as [|x a IH]; cbn [append free_of]; [reflexivity|].
  now rewrite IH, andb_assoc.
Qed.

Lemma free_of_spaces c n :
  Ascii.eqb c " " = false -> free_of c (spaces n) = true.
Proof. intros H. induction n; cbn [spaces free_of]; [|rewrite H]; auto. Qed.

Lemma free_of_uint c u :
  no_digit c = true -> free_of c (NilEmpty.string_of_uint u) = true.
Proof.
  unfold no_digit. cbn [free_of]. intros H.
  repeat (apply andb_true_iff in H as [? H]).
  induction u; cbn [NilEmpty.string_of_uint free_of];
    try reflexivity; apply andb_true_iff; auto.
Qed.

Lemma free_of_Sprintf_d c n :
  no_digit c = true -> free_of c (fmt.Sprintf_d n) = true.
Proof.
  intros H. unfold fmt.Sprintf_d, NilZero.string_of_int.
  assert (H0 : free_of c "0" = true).
  { unfold no_digit in H. cbn [free_of] in *.
    apply andb_true_iff in H as [H _]. now rewrite H. }
  assert (Hm : negb (Ascii.eqb c "-") = true).
  { unfold no_digit in H. cbn [free_of] in H.
    do 10 (apply andb_true_iff in H as [_ H]).
    now apply andb_true_iff in H as [H _]. }
  destruct (Z.to_int n) as [u|u]; unfold NilZero.string_of_uint.
  - destruct u; try exact H0; now apply free_of_uint.
  - cbn [free_of]. rewrite Hm.
    destruct u; try exact H0; now apply free_of_uint.
Qed.

Lemma show_line_user k :
  keyType k = "user" ->
  show_line k = line_head k ++ "user: " ++ description k.
Proof.
  intros H. unfold show_line, line_head. rewrite H.
  now rewrite append_assoc'.
Qed.

Lemma line_head_no_colon k : strings.Contains (line_head k) ":" = false.
Proof.
  apply Contains_free. unfold line_head, pad.
  rewrite !free_of_app, free_of_spaces, free_of_Sprintf_d; reflexivity.
Qed.

Lemma Index_LF a rest :
  free_of (ascii_of_byte 10) a = true ->
  strings.Index (a ++ LF ++ rest) LF = len a.
Proof.
  induction a as [|c a IH]; cbn [free_of append]; intros H.
  { rewrite Index_unfold. cbn [append LF strings.HasPrefix].
    now rewrite Ascii.eqb_refl, HasPrefix_empty. }
  apply andb_true_iff in H as [Hc Ha]. apply negb_true_iff in Hc.
  rewrite Index_cons_miss
    by (unfold LF; cbn [strings.HasPrefix]; now rewrite Hc).
  rewrite IH by assumption. unfold len. cbn [String.length].
  destruct (Z.ltb_spec (Z.of_nat (String.length a)) 0); lia.
Qed.

Lemma LF_not_empty : LF <> "".
Proof. discriminate. Qed.

Lemma Split_LF s :
  strings.Split s LF = strings.genSplit (String.length s) s LF.
Proof. reflexivity. Qed.

Lemma Split_LF_cons a rest :
  free_of (ascii_of_byte 10) a = true ->
  strings.Split (a ++ LF ++ rest) LF = a :: strings.Split rest LF.
Proof.
  intros Ha. rewrite !Split_LF.
  assert (Hl : String.length (a ++ LF ++ rest)
               = S (String.length a + String.length rest)).
  { rewrite length_append'. cbn. lia. }
  pose proof (Index_LF a rest Ha) as Hi.
  rewrite Hl, genSplit_hit by (rewrite Hi; apply len_nonneg).
  rewrite Hi. unfold len. rewrite Nat2Z.id, slice_to_append.
  rewrite slice_from_add, slice_from_append.
  change (slice_from (String.length LF) (LF ++ rest)) with rest.
  f_equal. apply genSplit_enough; [exact LF_not_empty | lia | lia].
Qed.

Lemma Split_lines (A : Type) (f : A -> string) (l : list A) :
  Forall (fun x => free_of (ascii_of_byte 10) (f x) = true) l ->
  strings.Split (String.concat "" (map (fun x => f x ++ LF) l)) LF
  = (map f l ++ [""])%list.
Proof.
  induction 1 as [|x l Hx Hl IH]; [reflexivity|].
  cbn [map]. destruct l as [|y l].
  - cbn [String.concat map app]. rewrite <- (append_empty_r (f x ++ LF)).
    rewrite append_assoc', Split_LF_cons by assumption. reflexivity.
  - change (String.concat "" ((f x ++ LF) :: map (fun x => f x ++ LF) (y :: l)))
      with ((f x ++ LF) ++ ""
            ++ String.concat "" (map (fun x => f x ++ LF) (y :: l))).
    cbn [append]. rewrite append_assoc', Split_LF_cons by assumption.
    now rewrite IH.
Qed.

(** Every key has its line in the listing of [keyctl show], provided no
    type and no description has a line feed. *)
Lemma keyctl_show_lists ks k :
  Forall (fun k => free_of (ascii_of_byte 10) (keyType k) = true
                   /\ free_of (ascii_of_byte 10) (description k) = true) ks ->
  In k ks ->
  In (show_line k) (strings.Split (keyctl_show ks) LF).
Proof.
  intros Hall Hin. unfold keyctl_show.
  rewrite Split_LF_cons by reflexivity. right.
  rewrite Split_lines.
  - apply in_or_app. left. now apply in_map.
  - eapply Forall_impl; [|exact Hall]. intros x [Ht Hd].
    unfold show_line, pad.
    rewrite !free_of_app, free_of_spaces, free_of_Sprintf_d, Ht, Hd;
      reflexivity.
Qed.

(** The listing of the program as installed has a line of the
    documented format for every key of type "user". *)
Lemma installed_lists st k :
  Forall (fun k => free_of (ascii_of_byte 10) (keyType k) = true
                   /\ free_of (ascii_of_byte 10) (description k) = true)
         (all st) ->
  In k (all st) -> keyType k = "user" ->
  In (line_head k ++ "user: " ++ description k)
     (strings.Split (keyctl_show (all st)) LF).
Proof.
  intros Hlf Hin Hty. rewrite <- show_line_user by assumption.
  now apply keyctl_show_lists.
Qed.

(** [DeleteAll] with the program installed: the hypotheses on the
    listing hold by themselves. *)
Lemma isolates_installed rev st service1 service2 user p1 p2 :
  wf st ->
  service1 <> "" ->
  writable st = true ->
  below service1 user st = None ->
  keyctl st = keyctl_installed ->
  Forall (fun k => free_of (ascii_of_byte 10) (keyType k) = true
                   /\ free_of (ascii_of_byte 10) (description k) = true)
         (all st) ->
  strings.Contains (service1 ++ ":" ++ user) "user:" = false ->
  strings.TrimSpace (service1 ++ ":" ++ user) = service1 ++ ":" ++ user ->
  strings.HasPrefix (service2 ++ ":" ++ user) (service1 ++ ":") = false ->
  DeleteAll_isolates rev st service1 service2 user p1 p2.
Proof.
  intros Hwf Hne Hw Hbelow Htool Hlf Hmark Htrim Hother Hdiff G1 G2.
  pose proof G1 as G1'.
  apply IsolationFacts.Get_ok_inv in G1' as (_ & _ & k1 & Hf1 & _);
    [|assumption].
  apply find_some in Hf1 as [Hin1 Hn1].
  unfold named in Hn1. apply andb_true_iff in Hn1 as [Ht1 Hd1].
  apply String.eqb_eq in Ht1, Hd1.
  refine (Isolation.isolates rev st service1 service2 user p1 p2
            (keyctl_show (all st)) (line_head k1)
            Hwf Hne Hw Hbelow _ _ (line_head_no_colon k1) Hmark Htrim
            Hother Hdiff G1 G2).
  - rewrite Htool. reflexivity.
  - rewrite <- Hd1. now apply installed_lists.
Qed.

End Listing.

(** * The claims *)

(** ** C1 *)

(** C1. The composite provider, for each of [Set], [Get], [Delete] and
    [DeleteAll] and for every input and world: when the primary returns an
    error and a fallback is configured, the composite returns what the
    fallback returns (run on the world the primary left), and the error
    of the primary is dropped; when the primary succeeds, or no fallback
    is configured, the composite returns what the primary returned and
    leaves the world the primary left, so the fallback is not called. *)
Theorem composite_fallback_policy :
  forall (W : Type) (c : compositeProvider.t W) (service user pass : string)
         (w : W),
    (forall e w1 fb,
        Keyring.Set_ (compositeProvider.primary c) service user pass w
          = (Some e, w1) ->
        compositeProvider.fallback c = Some fb ->
        compositeProvider.Set_ c service user pass w
          = Keyring.Set_ fb service user pass w1)
    /\ (forall err w1,
        Keyring.Set_ (compositeProvider.primary c) service user pass w
          = (err, w1) ->
        err = None \/ compositeProvider.fallback c = None ->
        compositeProvider.Set_ c service user pass w = (err, w1))
    /\ (forall s e w1 fb,
        Keyring.Get (compositeProvider.primary c) service user w
          = ((s, Some e), w1) ->
        compositeProvider.fallback c = Some fb ->
        compositeProvider.Get c service user w
          = Keyring.Get fb service user w1)
    /\ (forall s err w1,
        Keyring.Get (compositeProvider.primary c) service user w
          = ((s, err), w1) ->
        err = None \/ compositeProvider.fallback c = None ->
        compositeProvider.Get c service user w = ((s, err), w1))
    /\ (forall e w1 fb,
        Keyring.Delete (compositeProvider.primary c) service user w
          = (Some e, w1) ->
        compositeProvider.fallback c = Some fb ->
        compositeProvider.Delete c service user w
          = Keyring.Delete fb service user w1)
    /\ (forall err w1,
        Keyring.Delete (compositeProvider.primary c) service user w
          = (err, w1) ->
        err = None \/ compositeProvider.fallback c = None ->
        compositeProvider.Delete c service user w = (err, w1))
    /\ (forall e w1 fb,
        Keyring.DeleteAll (compositeProvider.primary c) service w
          = (Some e, w1) ->
        compositeProvider.fallback c = Some fb ->
        compositeProvider.DeleteAll c service w
          = Keyring.DeleteAll fb service w1)
    /\ (forall err w1,
        Keyring.DeleteAll (compositeProvider.primary c) service w
          = (err, w1) ->
        err = None \/ compositeProvider.fallback c = None ->
        compositeProvider.DeleteAll c service w = (err, w1)).
Proof.
  intros W c service user pass w. repeat split; intros.
  - eapply composite_Set_fallback; eassumption.
  - eapply composite_Set_primary; eassumption.
  - eapply composite_Get_fallback; eassumption.
  - eapply composite_Get_primary; eassumption.
  - eapply composite_Delete_fallback; eassumption.
  - eapply composite_Delete_primary; eassumption.
  - eapply composite_DeleteAll_fallback; eassumption.
  - eapply composite_DeleteAll_primary; eassumption.
Qed.

(** On a host without daemon the composite stores in the kernel keyring;
    on a host with the daemon, [Get] of an item the daemon has returns
    the daemon's secret and the kernel keyring is not touched. *)
Lemma composite_fallback_policy_witness :
  compositeProvider.Set_ Host.provider "svc" "alice" "secret1"
                         Samples.host_down
  = Keyring.Set_ (keyctlProvider.keyring Persistent) "svc" "alice" "secret1"
                 Samples.host_down
  /\ compositeProvider.Get Host.provider "svc" "alice" Samples.host_up
     = (("s1", None), Samples.host_up).
Proof.
  split.
  - apply (proj1 (composite_fallback_policy Host.state Host.provider
                    "svc" "alice" "secret1" Samples.host_down))
      with (e := errorString "dbus: the session bus is not available");
      reflexivity.
  - apply (proj1 (proj2 (proj2 (proj2
             (composite_fallback_policy Host.state Host.provider
                "svc" "alice" "" Samples.host_up))))).
    + reflexivity.
    + left. reflexivity.
Defined.

(** ** C2 *)

(** C2. On the kernel keyring, in every well-formed state and for every
    service, user and payload (any bytes): when [Set] succeeds, the [Get]
    that follows returns exactly the payload, with a nil error. *)
Theorem keyctl_Set_then_Get :
  forall (rev : revision) (st st' : Linux.state) (service user pass : string),
    Linux.wf st ->
    keyctlProvider.Set_ rev service user pass st = (None, st') ->
    keyctlProvider.Get rev service user st' = ((pass, None), st').
Proof.
  intros rev st st' service user pass. apply RoundTrip.Set_Get.
Qed.

(** [Set] on the empty keyring returns nil, and a payload with a NUL, a
    line feed and bytes that are not ASCII comes back as it was stored. *)
Lemma keyctl_Set_then_Get_witness :
  fst (keyctlProvider.Set_ Persistent "svc" "alice" Samples.binary
         Samples.empty_ring) = None
  /\ keyctlProvider.Get Persistent "svc" "alice"
       (snd (keyctlProvider.Set_ Persistent "svc" "alice" Samples.binary
               Samples.empty_ring))
     = ((Samples.binary, None),
        snd (keyctlProvider.Set_ Persistent "svc" "alice" Samples.binary
               Samples.empty_ring)).
Proof.
  split; [reflexivity|].
  apply (keyctl_Set_then_Get Persistent Samples.empty_ring).
  - exact RoundTrip.empty_ring_wf.
  - reflexivity.
Defined.

(** ** C3 *)



(** ** C4 *)

(** C4. [DeleteAll("")] returns [ErrNotFound] and leaves the world as it
    is, on the Secret Service provider, on the keyctl provider, and on
    the composite of the two (in either order, and without fallback),
    whatever the daemon and the kernel hold. *)
Theorem DeleteAll_empty_service :
  forall (W : Type) (SS : ss.SecretService W) (U : unix.Syscalls W)
         (E : exec.Commands W) (rev : revision) (w : W),
    secretServiceProvider.DeleteAll "" w = (Some ErrNotFound, w)
    /\ keyctlProvider.DeleteAll rev "" w = (Some ErrNotFound, w)
    /\ compositeProvider.DeleteAll
         (compositeProvider.Build secretServiceProvider.keyring
            (Some (keyctlProvider.keyring rev))) "" w
       = (Some ErrNotFound, w)
    /\ compositeProvider.DeleteAll
         (compositeProvider.Build (keyctlProvider.keyring rev)
            (Some secretServiceProvider.keyring)) "" w
       = (Some ErrNotFound, w)
    /\ compositeProvider.DeleteAll
         (compositeProvider.Build secretServiceProvider.keyring None) "" w
       = (Some ErrNotFound, w).
Proof.
  intros W SS U E rev w. repeat split; reflexivity.
Qed.

(** ** C5 *)

(** C5. [DeleteAll] of a service that is not empty and has nothing
    stored returns nil.  Secret Service: when the daemon answers, the
    collection unlocks and the search by service yields no item.  Kernel
    keyring: when the keyring resolves and holds no key of the service;
    the keyring is then left as it is. *)
Theorem DeleteAll_nothing_to_delete :
  (forall (W : Type) (SS : ss.SecretService W) (service : string)
          (w w1 w2 w3 : W) (svc : ss.Conn),
      service <> "" ->
      ss.NewSecretService w = (Ok svc, w1) ->
      ss.Unlock svc (ss.GetLoginCollection svc) w1 = (None, w2) ->
      ss.SearchItems svc (ss.GetLoginCollection svc) [("service", service)] w2
        = (Ok [], w3) ->
      secretServiceProvider.DeleteAll service w = (None, w3))
  /\ (forall (rev : revision) (st : Linux.state) (service : string),
      Linux.wf st ->
      service <> "" ->
      Linux.ring_fault st = None ->
      (forall k, In k (Linux.keys st) ->
                 LinuxSpec.of_service service k = false) ->
      keyctlProvider.DeleteAll rev service st = (None, st)).
Proof.
  split.
  - intros. eapply ss_DeleteAll_none; eassumption.
  - intros. now apply ScrapeFacts.DeleteAll_nothing.
Qed.

Lemma DeleteAll_nothing_to_delete_witness :
  secretServiceProvider.DeleteAll "nosuch" Samples.daemon_up
  = (None, Samples.daemon_up)
  /\ keyctlProvider.DeleteAll Persistent "svc" Samples.two_services
     = (None, Samples.two_services).
Proof.
  split.
  - apply (proj1 DeleteAll_nothing_to_delete Daemon.state
             Daemon.secret_service "nosuch"
             Samples.daemon_up Samples.daemon_up Samples.daemon_up
             Samples.daemon_up tt).
    + discriminate.
    + reflexivity.
    + reflexivity.
    + reflexivity.
  - apply (proj2 DeleteAll_nothing_to_delete).
    + exact RoundTrip.two_services_wf.
    + discriminate.
    + reflexivity.
    + intros k [<- | [<- | []]]; reflexivity.
Defined.

(** ** C6 *)

(** C6. [Get] and [Delete] of a pair that has no record return
    [ErrNotFound].  Secret Service: when the daemon answers, the
    collection unlocks and the search by user and service yields no item.
    Kernel keyring: when the keyring resolves and the search for
    [service:user] fails, with whatever error; on the model, when the
    keyring resolves and neither it nor a keyring linked into it holds a
    key of that name. *)
Theorem Get_Delete_not_found :
  (forall (W : Type) (SS : ss.SecretService W) (service user : string)
          (w w1 w2 w3 : W) (svc : ss.Conn),
      ss.NewSecretService w = (Ok svc, w1) ->
      ss.Unlock svc (ss.GetLoginCollection svc) w1 = (None, w2) ->
      ss.SearchItems svc (ss.GetLoginCollection svc)
                  [("username", user); ("service", service)] w2
        = (Ok [], w3) ->
      secretServiceProvider.Get service user w = (("", Some ErrNotFound), w3)
      /\ secretServiceProvider.Delete service user w
         = (Some ErrNotFound, w3))
  /\ (forall (W : Type) (U : unix.Syscalls W) (rev : revision)
             (service user : string)
             (w w1 w2 : W) (id : Z) (e : error),
      keyctlProvider.resolveKeyring rev w = (Ok id, w1) ->
      unix.KeyctlSearch id "user" (service ++ ":" ++ user) 0 w1 = (Err e, w2) ->
      keyctlProvider.Get rev service user w = (("", Some ErrNotFound), w2)
      /\ keyctlProvider.Delete rev service user w = (Some ErrNotFound, w2))
  /\ (forall (rev : revision) (st : Linux.state) (service user : string),
      Linux.ring_fault st = None ->
      find (Linux.named "user" (service ++ ":" ++ user)) (Linux.all st)
        = None ->
      keyctlProvider.Get rev service user st = (("", Some ErrNotFound), st)
      /\ keyctlProvider.Delete rev service user st
         = (Some ErrNotFound, st)).
Proof.
  split; [|split].
  - intros. split; [eapply ss_Get_none | eapply ss_Delete_none]; eassumption.
  - intros. split; [eapply keyctl_Get_none | eapply keyctl_Delete_none];
      eassumption.
  - intros rev st service user Hr Hf.
    assert (Hs : exists e,
               unix.KeyctlSearch (Linux.ring st) "user" (service ++ ":" ++ user)
                            0 st = (Err e, st)).
    { rewrite LinuxFacts.search_run, Hf.
      destruct (Linux.refused _); eauto. }
    destruct Hs as [e Hs].
    split; [eapply keyctl_Get_none | eapply keyctl_Delete_none];
      try eassumption; now rewrite LinuxFacts.resolveKeyring_run, Hr.
Qed.

Lemma Get_Delete_not_found_witness :
  (secretServiceProvider.Get "svc" "zed" Samples.daemon_up
   = (("", Some ErrNotFound), Samples.daemon_up)
   /\ secretServiceProvider.Delete "svc" "zed" Samples.daemon_up
      = (Some ErrNotFound, Samples.daemon_up))
  /\ (keyctlProvider.Get Persistent "svc" "zed" Samples.two_services
      = (("", Some ErrNotFound), Samples.two_services)
      /\ keyctlProvider.Delete Persistent "svc" "zed" Samples.two_services
         = (Some ErrNotFound, Samples.two_services))
  /\ (keyctlProvider.Get Session "svc1" "bob" Samples.two_services
      = (("", Some ErrNotFound), Samples.two_services)
      /\ keyctlProvider.Delete Session "svc1" "bob" Samples.two_services
         = (Some ErrNotFound, Samples.two_services)).
Proof.
  split; [|split].
  - apply (proj1 Get_Delete_not_found Daemon.state
             Daemon.secret_service "svc" "zed"
             Samples.daemon_up Samples.daemon_up Samples.daemon_up
             Samples.daemon_up tt); reflexivity.
  - apply (proj1 (proj2 Get_Delete_not_found) Linux.state Linux.syscalls
             Persistent
             "svc" "zed" Samples.two_services Samples.two_services
             Samples.two_services 77 (Errno Linux.ENOKEY)); reflexivity.
  - apply (proj2 (proj2 Get_Delete_not_found)); reflexivity.
Defined.

(** ** C7 *)

(** C7. [DeleteAll] on the Secret Service provider, when the search by
    service yields at least one item: the items are deleted in the order
    of the search; the first deletion that fails ends the call, which
    returns that error and leaves the world as the failed deletion left
    it, so the items behind it are not deleted and no other error is
    collected; when every deletion succeeds the call returns nil. *)
Theorem ss_DeleteAll_first_error :
  forall (W : Type) (SS : ss.SecretService W) (service : string)
         (w w1 w2 w3 : W) (svc : ss.Conn) (items : list ObjectPath),
    service <> "" ->
    ss.NewSecretService w = (Ok svc, w1) ->
    ss.Unlock svc (ss.GetLoginCollection svc) w1 = (None, w2) ->
    ss.SearchItems svc (ss.GetLoginCollection svc) [("service", service)] w2
      = (Ok items, w3) ->
    items <> [] ->
    (forall done item rest e w4 w5,
        items = (done ++ item :: rest)%list ->
        all_deleted svc done w3 w4 ->
        ss.Delete svc item w4 = (Some e, w5) ->
        secretServiceProvider.DeleteAll service w = (Some e, w5))
    /\ (forall w4,
        all_deleted svc items w3 w4 ->
        secretServiceProvider.DeleteAll service w = (None, w4)).
Proof.
  intros W SS service w w1 w2 w3 svc items Hne Hn Hu Hs Hi.
  rewrite (ss_DeleteAll_items _ _ _ _ _ _ _ Hne Hn Hu Hs Hi). split.
  - intros done item rest e w4 w5 -> Hdone Hfail.
    eapply deleteItems_stops; eassumption.
  - intros w4 Hall. now apply deleteItems_all.
Qed.

(** The daemon refuses to delete the second of three items of "svc": the
    first is gone, the second and the third (login/4) are still there. *)
Lemma ss_DeleteAll_first_error_witness :
  secretServiceProvider.DeleteAll "svc" Samples.daemon_up
  = (Some (errorString "the item cannot be deleted"),
     Daemon.with_items Samples.daemon_up
       [Samples.item "2" "svc" "bob" "s2" true;
        Samples.item "3" "other" "alice" "s3" false;
        Samples.item "4" "svc" "carol" "s4" false]).
Proof.
  apply (proj1 (ss_DeleteAll_first_error Daemon.state Daemon.secret_service
                  "svc" Samples.daemon_up Samples.daemon_up Samples.daemon_up
                  Samples.daemon_up tt
                  [Daemon.login ++ "/1"; Daemon.login ++ "/2";
                   Daemon.login ++ "/4"]
                  ltac:(discriminate) eq_refl eq_refl eq_refl
                  ltac:(discriminate))
           [Daemon.login ++ "/1"] (Daemon.login ++ "/2")
           [Daemon.login ++ "/4"]
           (errorString "the item cannot be deleted")
           (Daemon.with_items Samples.daemon_up
              [Samples.item "2" "svc" "bob" "s2" true;
               Samples.item "3" "other" "alice" "s3" false;
               Samples.item "4" "svc" "carol" "s4" false])).
  - reflexivity.
  - eapply all_deleted_cons; [reflexivity | apply all_deleted_nil].
  - reflexivity.
Defined.

(** ** C8 *)

(** C8. [DeleteAll] on the kernel keyring, for a service that is not
    empty: when the keyring resolves and running [keyctl show] fails,
    the call returns nil and makes no further call, so nothing is
    unlinked; on the model the keyring is left as it is. *)
Theorem keyctl_DeleteAll_listing_fails :
  (forall (W : Type) (U : unix.Syscalls W) (E : exec.Commands W)
          (rev : revision) (service : string)
          (w w1 w2 : W) (id : Z) (e : error),
      service <> "" ->
      keyctlProvider.resolveKeyring rev w = (Ok id, w1) ->
      exec.CombinedOutput "keyctl"
        ["show"; keyctlProvider.showArgument rev id] w1 = (Err e, w2) ->
      keyctlProvider.DeleteAll rev service w = (None, w2))
  /\ (forall (rev : revision) (st : Linux.state) (service : string)
             (e : error),
      service <> "" ->
      Linux.ring_fault st = None ->
      Linux.keyctl st ["show"; keyctlProvider.showArgument rev (Linux.ring st)]
                   (Linux.all st) = Err e ->
      keyctlProvider.DeleteAll rev service st = (None, st)).
Proof.
  split.
  - intros. eapply keyctl_DeleteAll_no_listing; eassumption.
  - intros rev st service e Hne Hr Hk.
    eapply keyctl_DeleteAll_no_listing; [assumption| |].
    + now rewrite LinuxFacts.resolveKeyring_run, Hr.
    + change (exec.CombinedOutput "keyctl" ?a st)
        with (Linux.keyctl st a (Linux.all st), st).
      now rewrite Hk.
Qed.

(** Without the keyctl program the key of "svc" stays. *)
Lemma keyctl_DeleteAll_listing_fails_witness :
  keyctlProvider.DeleteAll Persistent "svc" Samples.no_keyctl
  = (None, Samples.no_keyctl)
  /\ keyctlProvider.DeleteAll Session "svc" Samples.no_keyctl
     = (None, Samples.no_keyctl).
Proof.
  split.
  - apply (proj1 keyctl_DeleteAll_listing_fails Linux.state Linux.syscalls
             Linux.commands
             Persistent "svc" Samples.no_keyctl Samples.no_keyctl
             Samples.no_keyctl 77
             (errorString "executable file not found in $PATH")).
    + discriminate.
    + reflexivity.
    + reflexivity.
  - apply (proj2 keyctl_DeleteAll_listing_fails Session Samples.no_keyctl
             "svc" (errorString "executable file not found in $PATH")).
    + discriminate.
    + reflexivity.
    + reflexivity.
Defined.

(** ** C10 *)



(** ** C9 *)

(** C9, as stated, fails.  With the records a/c and a:b/c stored and the
    keyctl program at work, [DeleteAll("a")] unlinks the key "a:b:c" too,
    because its name begins with "a:"; [Get("a:b", "c")] then returns
    [ErrNotFound], not "p2". *)
Lemma keyctl_DeleteAll_isolates_counterexample :
  Linux.wf Samples.nested_services
  /\ ~ DeleteAll_isolates Persistent Samples.nested_services
                          "a" "a:b" "c" "p1" "p2".
Proof.
  split; [exact RoundTrip.nested_services_wf|].
  intros H. destruct (H ltac:(discriminate) eq_refl eq_refl) as [_ H2].
  vm_compute in H2. discriminate.
Qed.

(** C9, amended.  On the kernel keyring, in a well-formed state whose
    keyring is writable: let [service1] be not empty; let no keyring
    linked into the keyring hold a key named [service1:user], so that
    the record is a key of the keyring itself; let [keyctl show]
    succeed and print for the key [service1:user] a line that is some
    text without colon, then "user: ", then the name; let the name
    contain no "user:" and be left as it is by [TrimSpace]; and let
    [service2:user] not begin with [service1:].  If [Get] returns [p1]
    for service1/user and [p2] for service2/user, then after
    [DeleteAll(service1)], [Get(service1, user)] returns [ErrNotFound]
    and [Get(service2, user)] still returns [p2]. *)
Theorem keyctl_DeleteAll_isolates_amended :
  forall (rev : revision) (st : Linux.state)
         (service1 service2 user p1 p2 output pre : string),
    Linux.wf st ->
    service1 <> "" ->
    Linux.writable st = true ->
    LinuxSpec.below service1 user st = None ->
    Linux.keyctl st ["show"; keyctlProvider.showArgument rev (Linux.ring st)]
                 (Linux.all st) = Ok output ->
    In (pre ++ "user: " ++ service1 ++ ":" ++ user)
       (strings.Split output LF) ->
    strings.Contains pre ":" = false ->
    strings.Contains (service1 ++ ":" ++ user) "user:" = false ->
    strings.TrimSpace (service1 ++ ":" ++ user) = service1 ++ ":" ++ user ->
    strings.HasPrefix (service2 ++ ":" ++ user) (service1 ++ ":") = false ->
    DeleteAll_isolates rev st service1 service2 user p1 p2.
Proof.
  intros rev st service1 service2 user p1 p2 output pre.
  apply Isolation.isolates.
Qed.

(** The services "svc1" and "svc2" with the user "alice": after
    [DeleteAll("svc1")] the first is gone and the second is there. *)
Lemma keyctl_DeleteAll_isolates_amended_witness :
  keyctlProvider.Get Persistent "svc1" "alice"
    (snd (keyctlProvider.DeleteAll Persistent "svc1" Samples.two_services))
  = (("", Some ErrNotFound),
     snd (keyctlProvider.DeleteAll Persistent "svc1" Samples.two_services))
  /\ keyctlProvider.Get Persistent "svc2" "alice"
       (snd (keyctlProvider.DeleteAll Persistent "svc1" Samples.two_services))
     = (("p2", None),
        snd (keyctlProvider.DeleteAll Persistent "svc1" Samples.two_services)).
Proof.
  apply (keyctl_DeleteAll_isolates_amended Persistent Samples.two_services
           "svc1" "svc2" "alice" "p1" "p2"
           (Linux.keyctl_show (Linux.all Samples.two_services))
           "       100 --alswrv   1000  1000   \_ ").
  - exact RoundTrip.two_services_wf.
  - discriminate.
  - reflexivity.
  - reflexivity.
  - reflexivity.
  - vm_compute. right. left. reflexivity.
  - reflexivity.
  - reflexivity.
  - reflexivity.
  - reflexivity.
  - discriminate.
  - reflexivity.
  - reflexivity.
Defined.

(** What the amended claim leaves out.  Each of its hypotheses is needed:
    without it the record of [service1] can stay. *)

(** The service is named "user": the line is split inside the name, the
    description scraped is empty, and the key stays. *)
Example DeleteAll_marker_in_name :
  keyctlProvider.DeleteAll Persistent "user" Samples.marker_in_name
  = (None, Samples.marker_in_name).
Proof. reflexivity. Qed.

(** The user ends with a blank: the description scraped is "svc:bob",
    which is not the name of the key, and the key stays. *)
Example DeleteAll_blank_in_name :
  keyctlProvider.DeleteAll Persistent "svc" Samples.blank_in_name
  = (None, Samples.blank_in_name).
Proof. reflexivity. Qed.

(** The name is found below the keyring too: the key of the keyring
    itself is unlinked, the one found through the linked keyring cannot
    be, and [Get] returns its payload. *)
Example DeleteAll_linked_below :
  fst (keyctlProvider.Get Persistent "svc" "alice" Samples2.with_linked)
    = ("new", None)
  /\ fst (keyctlProvider.DeleteAll Persistent "svc" Samples2.with_linked)
     = None
  /\ fst (keyctlProvider.Get Persistent "svc" "alice"
            (snd (keyctlProvider.DeleteAll Persistent "svc"
                    Samples2.with_linked)))
     = ("old", None).
Proof. repeat split. Qed.

(** The caller may not unlink: the error of the unlink is dropped and the
    key stays. *)
Example DeleteAll_read_only :
  keyctlProvider.DeleteAll Persistent "svc" Samples.read_only
  = (None, Samples.read_only).
Proof. reflexivity. Qed.

(** With the program installed and names of the usual kind, nothing but
    the prefix condition is left to assume. *)
Example DeleteAll_two_services :
  DeleteAll_isolates Session Samples.two_services
                     "svc1" "svc2" "alice" "p1" "p2".
Proof.
  apply Listing.isolates_installed; try reflexivity.
  - exact RoundTrip.two_services_wf.
  - discriminate.
  - repeat constructor.
Qed.

(** ** More on the provider on the kernel model *)

Module MoreFacts.
Import Linux LinuxSpec LinuxFacts.

Lemma Get_unresolved rev st service user e :
  ring_fault st = Some e ->
  keyctlProvider.Get rev service user st
  = (("", Some (match rev with
                | Persistent =>
                  wrapError "failed to get persistent keyring" (Errno e)
                | Session => Errno e
                end)), st).
Proof.
  intros Hr. unfold keyctlProvider.Get. unfold bind at 1.
  rewrite resolveKeyring_run, Hr. reflexivity.
Qed.

(** What [Get] returns depends on the fault of the keyring and on the
    key of that name that a search finds. *)
Lemma Get_same rev st st' service user :
  wf st -> wf st' ->
  ring_fault st = ring_fault st' ->
  find (named "user" (service ++ ":" ++ user)) (all st)
    = find (named "user" (service ++ ":" ++ user)) (all st') ->
  fst (keyctlProvider.Get rev service user st)
    = fst (keyctlProvider.Get rev service user st').
Proof.
  intros Hwf Hwf' Hr Hf. destruct (ring_fault st) as [e|] eqn:E.
  - rewrite (Get_unresolved rev st _ _ e E).
    now rewrite (Get_unresolved rev st' _ _ e (eq_sym Hr)).
  - rewrite !KeyctlOnLinux.Get_run by congruence. cbn [fst].
    now rewrite Hf.
Qed.

Lemma Get_state rev (st : state) service user :
  snd (keyctlProvider.Get rev service user st) = st.
Proof.
  unfold keyctlProvider.Get. unfold bind at 1. rewrite resolveKeyring_run.
  destruct (ring_fault st); [destruct rev; reflexivity|].
  unfold bind at 1. rewrite search_run.
  destruct (refused _); [reflexivity|].
  destruct (find _ _) as [k|]; [|reflexivity].
  unfold bind, ret.
  change (unix.KeyctlBuffer unix.KEYCTL_READ (serial k) ?b 0 ?s)
    with (read (serial k) b s).
  unfold read. destruct (find _ (all st)) as [k'|]; [|reflexivity].
  destruct (_ <=? _); cbn [fst snd];
    destruct (find _ (all st)); try reflexivity;
    destruct (_ <=? _); reflexivity.
Qed.

Lemma name_differs (d d' : string) k :
  d <> d' -> named "user" d k = true -> named "user" d' k = false.
Proof.
  unfold named. intros Hd H. apply andb_true_iff in H as [_ H].
  apply String.eqb_eq in H. apply andb_false_iff. right.
  apply String.eqb_neq. congruence.
Qed.

Lemma find_filter_other d d' l :
  d <> d' ->
  find (named "user" d') (filter (fun k => negb (named "user" d k)) l)
  = find (named "user" d') l.
Proof.
  intros Hd. induction l as [|x l IH]; [reflexivity|].
  cbn [filter find]. destruct (named "user" d x) eqn:E; cbn [negb].
  - rewrite (name_differs d d' x Hd E). exact IH.
  - cbn [find]. now rewrite IH.
Qed.

Lemma find_app_other d d' l n p :
  d <> d' ->
  find (named "user" d') (l ++ [mkKey n "user" d p])
  = find (named "user" d') l.
Proof.
  intros Hd. induction l as [|x l IH]; cbn [app find].
  - rewrite (name_differs d d'); [reflexivity|assumption|].
    unfold named. cbn. now rewrite String.eqb_refl.
  - now rewrite IH.
Qed.

Lemma purge_find_other d d' st :
  d <> d' ->
  find (named "user" d') (all (purge d st))
  = find (named "user" d') (all st).
Proof.
  intros Hd. unfold all. rewrite !find_app', purge_links, purge_keys.
  destruct (_ || _); [reflexivity|].
  now rewrite find_filter_other.
Qed.

Lemma stored_find_other service user pass d' st :
  service ++ ":" ++ user <> d' ->
  find (named "user" d') (all (stored service user pass st))
  = find (named "user" d') (all st).
Proof.
  intros Hd. unfold all.
  rewrite (find_app' _ _ (keys (stored service user pass st))),
    (find_app' _ _ (keys st)).
  unfold links, stored. cbn [keys linked].
  rewrite find_app_other by assumption.
  now rewrite find_filter_other.
Qed.

(** After the purge of a name a search for it finds what is below the
    keyring. *)
Lemma purge_find d st :
  refused d = false -> writable st = true ->
  find (named "user" d) (all (purge d st))
  = find (named "user" d) (links st).
Proof.
  intros Hn Hw. unfold all.
  rewrite find_app', purge_links, purge_keys, Hn, Hw. cbn [orb negb].
  now rewrite KeyctlOnLinux.find_purged.
Qed.

(** Where [Set] can leave the keyring. *)
Lemma Set_cases rev st st' service user pass r :
  wf st ->
  keyctlProvider.Set_ rev service user pass st = (r, st') ->
  st' = st
  \/ st' = purge (service ++ ":" ++ user) st
  \/ st' = stored service user pass st.
Proof.
  intros Hwf HS. destruct (ring_fault st) as [e|] eqn:Hr.
  { unfold keyctlProvider.Set_ in HS. unfold bind at 1 in HS.
    rewrite resolveKeyring_run, Hr in HS. inversion HS. now left. }
  destruct (refused (service ++ ":" ++ user)) eqn:Hv.
  { rewrite KeyctlOnLinux.Set_run in HS by assumption.
    rewrite KeyctlOnLinux.add_key_run in HS by (symmetry; apply purge_ring).
    rewrite Hv in HS. inversion HS. now right; left. }
  destruct (writable st) eqn:Hw.
  - rewrite KeyctlOnLinux.Set_writable in HS by assumption.
    destruct (_ || _); [inversion HS; now right; left|].
    destruct (covered _ _ _ _); inversion HS; auto.
  - rewrite KeyctlOnLinux.Set_run in HS by assumption.
    rewrite KeyctlOnLinux.add_key_run in HS by (symmetry; apply purge_ring).
    rewrite Hv, purge_writable, Hw in HS.
    destruct (_ <? _); inversion HS; now right; left.
Qed.

Lemma Set_wf rev st st' service user pass r :
  wf st ->
  keyctlProvider.Set_ rev service user pass st = (r, st') ->
  wf st'.
Proof.
  intros Hwf HS.
  destruct (Set_cases _ _ _ _ _ _ _ Hwf HS) as [-> | [-> | ->]].
  - assumption.
  - now apply purge_wf.
  - now apply KeyctlOnLinux.stored_wf.
Qed.

Lemma Set_ring_fault rev st st' service user pass r :
  wf st ->
  keyctlProvider.Set_ rev service user pass st = (r, st') ->
  ring_fault st' = ring_fault st.
Proof.
  intros Hwf HS.
  destruct (Set_cases _ _ _ _ _ _ _ Hwf HS) as [-> | [-> | ->]];
    [reflexivity | apply purge_ring_fault | reflexivity].
Qed.

(** [Set] on one name leaves what [Get] returns for another. *)
Lemma Set_other rev st st' service user pass r service2 user2 :
  wf st ->
  keyctlProvider.Set_ rev service user pass st = (r, st') ->
  service ++ ":" ++ user <> service2 ++ ":" ++ user2 ->
  fst (keyctlProvider.Get rev service2 user2 st')
  = fst (keyctlProvider.Get rev service2 user2 st).
Proof.
  intros Hwf HS Hd.
  apply Get_same.
  - eapply Set_wf; eassumption.
  - assumption.
  - eapply Set_ring_fault; eassumption.
  - destruct (Set_cases _ _ _ _ _ _ _ Hwf HS) as [-> | [-> | ->]].
    + reflexivity.
    + now apply purge_find_other.
    + now apply stored_find_other.
Qed.

(** What a successful [Delete] tells: the key was linked in the keyring
    itself. *)
Lemma Delete_ok_inv rev st st' service user :
  wf st ->
  keyctlProvider.Delete rev service user st = (None, st') ->
  ring_fault st = None
  /\ refused (service ++ ":" ++ user) = false
  /\ writable st = true
  /\ (exists k, find (named "user" (service ++ ":" ++ user)) (keys st)
                = Some k)
  /\ st' = purge (service ++ ":" ++ user) st.
Proof.
  intros Hwf HD. destruct (ring_fault st) as [e|] eqn:Hr.
  { unfold keyctlProvider.Delete in HD. unfold bind at 1 in HD.
    rewrite resolveKeyring_run, Hr in HD. destruct rev; discriminate. }
  rewrite KeyctlOnLinux.Delete_run in HD by assumption.
  destruct (refused _); [discriminate|].
  destruct (find _ (all st)); [|discriminate].
  destruct (writable st); [|discriminate].
  destruct (find _ (keys st)) as [k'|]; [|discriminate].
  inversion HD. repeat split; eauto.
Qed.

(** [Get] after the purge of its name, in a keyring that resolves. *)
Lemma Get_purged rev st service user :
  wf st -> ring_fault st = None ->
  refused (service ++ ":" ++ user) = false -> writable st = true ->
  keyctlProvider.Get rev service user (purge (service ++ ":" ++ user) st)
  = (answer (below service user st), purge (service ++ ":" ++ user) st).
Proof.
  intros Hwf Hr Hv Hw.
  rewrite KeyctlOnLinux.Get_run;
    [|now apply purge_wf|now rewrite purge_ring_fault].
  now rewrite Hv, purge_find.
Qed.

End MoreFacts.

Module SweepFacts.
Import Linux LinuxSpec LinuxFacts.

Lemma purge_all_find_other descs d' : forall st,
  (forall d, In d descs -> d <> d') ->
  find (named "user" d') (all (purge_all descs st))
  = find (named "user" d') (all st).
Proof.
  induction descs as [|d descs IH]; intros st H; [reflexivity|].
  cbn. rewrite IH by (intros; apply H; now right).
  apply MoreFacts.purge_find_other. apply H. now left.
Qed.

Lemma DeleteAll_state rev st service :
  wf st ->
  snd (keyctlProvider.DeleteAll rev service st) = st
  \/ exists descs,
       (forall d, In d descs ->
                  strings.HasPrefix d (service ++ ":") = true)
       /\ snd (keyctlProvider.DeleteAll rev service st) = purge_all descs st.
Proof.
  intros Hwf. destruct (String.eqb_spec service "") as [->|Hne];
    [now left|].
  rewrite ScrapeFacts.DeleteAll_run by assumption.
  destruct (ring_fault st); [now left|].
  destruct (keyctl st _ _) as [out|]; [|now left].
  right. exists (scrape service (strings.Split out LF)). split.
  - intros d. apply ScrapeFacts.scrape_prefix.
  - reflexivity.
Qed.

Lemma DeleteAll_ring_fault rev st service :
  wf st ->
  ring_fault (snd (keyctlProvider.DeleteAll rev service st)) = ring_fault st.
Proof.
  intros Hwf. destruct (DeleteAll_state rev st service Hwf)
    as [-> | (descs & _ & ->)]; [reflexivity|].
  apply purge_all_ring_fault.
Qed.

Lemma DeleteAll_sub rev st service k :
  wf st ->
  In k (keys (snd (keyctlProvider.DeleteAll rev service st))) ->
  In k (keys st).
Proof.
  intros Hwf. destruct (DeleteAll_state rev st service Hwf)
    as [-> | (descs & _ & ->)]; [auto|].
  apply In_purge_all.
Qed.

Lemma DeleteAll_find_other rev st service d' :
  wf st ->
  strings.HasPrefix d' (service ++ ":") = false ->
  find (named "user" d')
       (all (snd (keyctlProvider.DeleteAll rev service st)))
  = find (named "user" d') (all st).
Proof.
  intros Hwf Hd. destruct (DeleteAll_state rev st service Hwf)
    as [-> | (descs & Hpfx & ->)]; [reflexivity|].
  apply purge_all_find_other. intros d Hin ->.
  rewrite (Hpfx _ Hin) in Hd. discriminate.
Qed.

End SweepFacts.

(** ** The order of the calls to the Secret Service *)

Module TracedFacts.
Import Traced.

Section Facts.
Context {W : Type} (SS : ss.SecretService W).

Ltac call f :=
  match goal with
  | |- context [f ?a ?b ?c ?d ?e ?g] => destruct (f a b c d e g) as [[?|] ?]
  | |- context [f ?a ?b ?c ?d] => destruct (f a b c d) as [[?|?] ?]
  | |- context [f ?a ?b ?c] => destruct (f a b c) as [[?|] ?]
  | |- context [f ?a ?b] => destruct (f a b) as [[?|?] ?]
  | |- context [f ?a] => destruct (f a) as [[?|?] ?]
  end; cbn.

Ltac start :=
  unfold log, defer; unfold bind, ret; cbn; unfold logged; cbn.

Lemma Set_log service user pass (w : W) :
  let t := log (secretServiceProvider.Set_
                  (SS := secret_service SS) service user pass) w in
  opened t = closed t
  /\ deleted t = []
  /\ found t = []
  /\ Forall (eq [("username", user); ("service", service)]) (created t).
Proof.
  unfold secretServiceProvider.Set_. start.
  call (@ss.NewSecretService W SS); [|auto].
  call (@ss.OpenSession W SS); [|auto].
  call (@ss.Unlock W SS).
  - call (@ss.Close W SS); auto.
  - call (@ss.CreateItem W SS); call (@ss.Close W SS); auto.
Qed.

Lemma Get_log service user (w : W) :
  let t := log (secretServiceProvider.Get
                  (SS := secret_service SS) service user) w in
  opened t = closed t
  /\ created t = []
  /\ deleted t = []
  /\ forall item session,
       In (GetSecret item session) t ->
       exists rest, found t = [item :: rest].
Proof.
  unfold secretServiceProvider.Get, secretServiceProvider.findItem. start.
  call (@ss.NewSecretService W SS);
    [|repeat split; intros ? ? [H|[]]; discriminate].
  call (@ss.Unlock W SS);
    [repeat split; intros ? ? [H|[H|[]]]; discriminate|].
  call (@ss.SearchItems W SS);
    [|repeat split; intros ? ? [H|[H|[H|[]]]]; discriminate].
  match goal with r : list ObjectPath |- _ =>
    destruct r as [|first rest] end; cbn;
    [repeat split; intros ? ? [H|[H|[H|[]]]]; discriminate|].
  call (@ss.OpenSession W SS);
    [|repeat split; intros ? ? [H|[H|[H|[H|[]]]]]; discriminate].
  call (@ss.Unlock W SS).
  - call (@ss.Close W SS); repeat split;
      intros ? ? [H|[H|[H|[H|[H|[H|[]]]]]]]; discriminate.
  - call (@ss.GetSecret W SS); call (@ss.Close W SS); repeat split;
      intros ? ? [H|[H|[H|[H|[H|[H|[H|[]]]]]]]]; try discriminate;
      injection H as <- _; now exists rest.
Qed.

Lemma Delete_log service user (w : W) :
  let t := log (secretServiceProvider.Delete
                  (SS := secret_service SS) service user) w in
  opened t = [] /\ closed t = [] /\ created t = []
  /\ (deleted t = []
      \/ exists first rest, found t = [first :: rest]
                            /\ deleted t = [first]).
Proof.
  unfold secretServiceProvider.Delete, secretServiceProvider.findItem. start.
  call (@ss.NewSecretService W SS); [|auto].
  call (@ss.Unlock W SS); [auto|].
  call (@ss.SearchItems W SS); [|auto].
  match goal with r : list ObjectPath |- _ =>
    destruct r as [|first rest] end; cbn; [auto|].
  call (@ss.Delete W SS); repeat split; right; now exists first, rest.
Qed.

Lemma deleteItems_log svc items : forall (w : W) (t : list call),
  exists done rest,
    items = (done ++ rest)%list
    /\ snd (snd (secretServiceProvider.deleteItems
                   (SS := secret_service SS) svc items (w, t)))
       = (t ++ map Delete done)%list.
Proof.
  induction items as [|item items IH]; intros w t.
  - exists [], []. split; [reflexivity|]. cbn. now rewrite app_nil_r.
  - cbn [secretServiceProvider.deleteItems]. unfold bind, ret. cbn.
    unfold logged. cbn.
    destruct (@ss.Delete W SS svc item w) as [[e|] w1]; cbn.
    + exists [item], items. now split.
    + destruct (IH w1 (t ++ [Delete item])%list)
        as (done & rest & -> & ->).
      exists (item :: done), rest. split; [reflexivity|].
      now rewrite <- app_assoc.
Qed.

Lemma opened_app a b : opened (a ++ b) = (opened a ++ opened b)%list.
Proof. apply flat_map_app. Qed.

Lemma closed_app a b : closed (a ++ b) = (closed a ++ closed b)%list.
Proof. apply flat_map_app. Qed.

Lemma created_app a b : created (a ++ b) = (created a ++ created b)%list.
Proof. apply flat_map_app. Qed.

Lemma deleted_app a b : deleted (a ++ b) = (deleted a ++ deleted b)%list.
Proof. apply flat_map_app. Qed.

Lemma found_app a b : found (a ++ b) = (found a ++ found b)%list.
Proof. apply flat_map_app. Qed.

Lemma Delete_calls items :
  opened (map Delete items) = [] /\ closed (map Delete items) = []
  /\ created (map Delete items) = [] /\ found (map Delete items) = []
  /\ deleted (map Delete items) = items.
Proof.
  induction items as [|i items (Ho & Hc & Hr & Hf & Hd)]; cbn;
    [auto|].
  fold (opened (map Delete items)). fold (closed (map Delete items)).
  fold (created (map Delete items)). fold (found (map Delete items)).
  fold (deleted (map Delete items)).
  now rewrite Ho, Hc, Hr, Hf, Hd.
Qed.

Lemma DeleteAll_log service (w : W) :
  let t := log (secretServiceProvider.DeleteAll
                  (SS := secret_service SS) service) w in
  opened t = [] /\ closed t = [] /\ created t = []
  /\ (deleted t = []
      \/ exists rest, found t = [(deleted t ++ rest)%list]).
Proof.
  unfold secretServiceProvider.DeleteAll,
    secretServiceProvider.findServiceItems.
  destruct (String.eqb service ""); [cbn; auto|]. start.
  call (@ss.NewSecretService W SS); [|auto].
  call (@ss.Unlock W SS);
    [match goal with |- context [error_eqb ?x ?y] =>
       destruct (error_eqb x y) end; cbn; auto|].
  call (@ss.SearchItems W SS);
    [|match goal with |- context [error_eqb ?x ?y] =>
        destruct (error_eqb x y) end; cbn; auto].
  match goal with r : list ObjectPath |- _ =>
    destruct r as [|first rest] end;
    cbn -[secretServiceProvider.deleteItems]; [auto|].
  match goal with
  | |- context [secretServiceProvider.deleteItems ?s ?i (?w, ?t)] =>
    destruct (deleteItems_log s i w t) as (done & rest' & Hi & ->)
  end.
  rewrite !opened_app, !closed_app, !created_app, !deleted_app, !found_app.
  destruct (Delete_calls done) as (-> & -> & -> & -> & ->). cbn.
  repeat split. right. exists rest'. now rewrite Hi.
Qed.

End Facts.

End TracedFacts.

(** * Further properties of the code *)

(** ** keyctlProvider *)

(** X1. When the keyring cannot be resolved, every method returns that
    error and makes no other call: for keyring_keyctl.go the error of
    [KEYCTL_GET_PERSISTENT] wrapped by [getPersistentKeyring], which is
    not [ErrNotFound]; for the session revision the error of
    [KeyctlGetKeyringID] as it is.  ([DeleteAll] with the empty service
    returns [ErrNotFound] before.) *)
Theorem keyctl_unresolved :
  (forall (W : Type) (U : unix.Syscalls W) (E : exec.Commands W)
          (service user pass : string) (w w1 : W) (e : error),
      unix.KeyctlInt unix.KEYCTL_GET_PERSISTENT (-1)
                     unix.KEY_SPEC_SESSION_KEYRING 0 0 w = (Err e, w1) ->
      let err := wrapError "failed to get persistent keyring" e in
      error_eqb err ErrNotFound = false
      /\ keyctlProvider.Set_ Persistent service user pass w = (Some err, w1)
      /\ keyctlProvider.Get Persistent service user w = (("", Some err), w1)
      /\ keyctlProvider.Delete Persistent service user w = (Some err, w1)
      /\ (service <> "" ->
          keyctlProvider.DeleteAll Persistent service w = (Some err, w1)))
  /\ (forall (W : Type) (U : unix.Syscalls W) (E : exec.Commands W)
             (service user pass : string) (w w1 : W) (e : error),
      unix.KeyctlGetKeyringID unix.KEY_SPEC_SESSION_KEYRING true w
        = (Err e, w1) ->
      keyctlProvider.Set_ Session service user pass w = (Some e, w1)
      /\ keyctlProvider.Get Session service user w = (("", Some e), w1)
      /\ keyctlProvider.Delete Session service user w = (Some e, w1)
      /\ (service <> "" ->
          keyctlProvider.DeleteAll Session service w = (Some e, w1))).
Proof.
  split.
  - intros W U E service user pass w w1 e H err.
    assert (Hr : keyctlProvider.resolveKeyring Persistent w = (Err err, w1)).
    { cbn [keyctlProvider.resolveKeyring].
      unfold keyctlProvider.getPersistentKeyring. now run_with H. }
    split; [reflexivity|].
    unfold keyctlProvider.Set_, keyctlProvider.Get, keyctlProvider.Delete.
    repeat split; try (now run_with Hr).
    intros Hne. rewrite (keyctl_DeleteAll_unresolved _ _ _ _ _ Hr).
    apply String.eqb_neq in Hne. now rewrite Hne.
  - intros W U E service user pass w w1 e H.
    assert (Hr : keyctlProvider.resolveKeyring Session w = (Err e, w1))
      by exact H.
    unfold keyctlProvider.Set_, keyctlProvider.Get, keyctlProvider.Delete.
    repeat split; try (now run_with Hr).
    intros Hne. rewrite (keyctl_DeleteAll_unresolved _ _ _ _ _ Hr).
    apply String.eqb_neq in Hne. now rewrite Hne.
Qed.

(** A kernel without persistent keyrings: [Get] returns the wrapped
    ENOSYS. *)
Lemma keyctl_unresolved_witness :
  keyctlProvider.Get Persistent "svc" "alice" Samples2.no_ring
  = (("", Some (wrapError "failed to get persistent keyring" (Errno 38))),
     Samples2.no_ring)
  /\ keyctlProvider.Delete Session "svc" "alice" Samples2.no_ring
     = (Some (Errno 38), Samples2.no_ring).
Proof.
  split.
  - destruct (proj1 keyctl_unresolved Linux.state Linux.syscalls
                Linux.commands "svc" "alice" "" Samples2.no_ring
                Samples2.no_ring (Errno 38) eq_refl) as (_ & _ & H & _).
    exact H.
  - destruct (proj2 keyctl_unresolved Linux.state Linux.syscalls
                Linux.commands "svc" "alice" "" Samples2.no_ring
                Samples2.no_ring (Errno 38) eq_refl) as (_ & _ & H & _).
    exact H.
Defined.

(** X2. [Get], once the key is found: it reads twice, first with no
    buffer for the size, then into a buffer of that size, and returns
    the bytes of that buffer; an error of either read is returned as it
    is, with the empty string, and is not turned into [ErrNotFound]. *)
Theorem keyctl_Get_reads :
  forall (W : Type) (U : unix.Syscalls W) (rev : revision)
         (service user : string) (w w1 w2 : W) (id keyID : Z),
    keyctlProvider.resolveKeyring rev w = (Ok id, w1) ->
    unix.KeyctlSearch id "user" (service ++ ":" ++ user) 0 w1
      = (Ok keyID, w2) ->
    (forall e w3,
        unix.KeyctlBuffer unix.KEYCTL_READ keyID "" 0 w2 = (Err e, w3) ->
        keyctlProvider.Get rev service user w = (("", Some e), w3))
    /\ (forall size b0 w3 e w4,
        unix.KeyctlBuffer unix.KEYCTL_READ keyID "" 0 w2
          = (Ok (size, b0), w3) ->
        unix.KeyctlBuffer unix.KEYCTL_READ keyID (make (Z.to_nat size)) 0 w3
          = (Err e, w4) ->
        keyctlProvider.Get rev service user w = (("", Some e), w4))
    /\ (forall size b0 w3 n buf w4,
        unix.KeyctlBuffer unix.KEYCTL_READ keyID "" 0 w2
          = (Ok (size, b0), w3) ->
        unix.KeyctlBuffer unix.KEYCTL_READ keyID (make (Z.to_nat size)) 0 w3
          = (Ok (n, buf), w4) ->
        keyctlProvider.Get rev service user w = ((buf, None), w4)).
Proof.
  intros W U rev service user w w1 w2 id keyID Hr Hs.
  unfold keyctlProvider.Get, fmt.Sprintf_s_colon_s.
  repeat split; intros.
  - run_with Hr. rewrite Hs. now run_with H.
  - run_with Hr. rewrite Hs, H. now run_with H0.
  - run_with Hr. rewrite Hs, H. now run_with H0.
Qed.

Lemma keyctl_Get_reads_witness :
  keyctlProvider.Get Session "svc2" "alice" Samples.two_services
  = (("p2", None), Samples.two_services).
Proof.
  apply (proj2 (proj2 (keyctl_Get_reads Linux.state Linux.syscalls Session
                         "svc2" "alice" Samples.two_services
                         Samples.two_services Samples.two_services 77 101
                         eq_refl eq_refl))
           2 "" Samples.two_services 2 "p2" Samples.two_services);
    reflexivity.
Defined.

(** X3. On the kernel keyring, in every well-formed state: a [Delete]
    that returns nil has unlinked a key of the keyring itself.  The
    [Get] of the same pair that follows returns what a search still
    finds below the keyring, in a keyring linked into it: [ErrNotFound]
    when no linked keyring holds a key of that name, and else the
    payload of that key.  [Get] of every pair with another name returns
    what it returned before, and the keyring is well-formed. *)
Theorem keyctl_Delete_then_Get :
  forall (rev : revision) (st st' : Linux.state) (service user : string),
    Linux.wf st ->
    keyctlProvider.Delete rev service user st = (None, st') ->
    (exists k, In k (Linux.keys st)
               /\ Linux.named "user" (service ++ ":" ++ user) k = true
               /\ ~ In k (Linux.keys st'))
    /\ keyctlProvider.Get rev service user st'
       = (LinuxSpec.answer (LinuxSpec.below service user st), st')
    /\ (LinuxSpec.below service user st = None ->
        keyctlProvider.Get rev service user st'
        = (("", Some ErrNotFound), st'))
    /\ (forall service2 user2,
           service ++ ":" ++ user <> service2 ++ ":" ++ user2 ->
           keyctlProvider.Get rev service2 user2 st'
           = (fst (keyctlProvider.Get rev service2 user2 st), st'))
    /\ Linux.wf st'.
Proof.
  intros rev st st' service user Hwf HD.
  apply MoreFacts.Delete_ok_inv in HD as (Hr & Hv & Hw & [k Hk] & ->);
    [|assumption].
  pose proof (LinuxFacts.purge_wf (service ++ ":" ++ user) st Hwf) as Hwf'.
  pose proof (MoreFacts.Get_purged rev st service user Hwf Hr Hv Hw) as HG.
  split; [|split; [exact HG|split; [|split; [|assumption]]]].
  - apply find_some in Hk as [Hin Hn]. exists k. repeat split; trivial.
    rewrite LinuxFacts.purge_keys, Hv, Hw. cbn [orb negb]. intros H.
    apply filter_In in H as [_ H]. rewrite Hn in H. discriminate.
  - intros Hb. now rewrite HG, Hb.
  - intros service2 user2 Hd.
    rewrite (surjective_pairing (keyctlProvider.Get rev service2 user2 _)).
    rewrite MoreFacts.Get_state. f_equal.
    apply MoreFacts.Get_same; try assumption.
    + apply LinuxFacts.purge_ring_fault.
    + now apply MoreFacts.purge_find_other.
Qed.

Lemma with_linked_wf : Linux.wf Samples2.with_linked.
Proof.
  split; cbn.
  - repeat constructor; cbn; intuition discriminate.
  - repeat constructor; cbn; intuition discriminate.
  - repeat constructor.
  - intros a b Ha Hb E.
    repeat (destruct Ha as [<-|Ha]; [|]); try contradiction;
      repeat (destruct Hb as [<-|Hb]; [|]); try contradiction;
      try reflexivity; discriminate.
  - repeat constructor; eexists; (split; [left; reflexivity|]);
      split; reflexivity.
Qed.

(** In a keyring with nothing linked below it the record is gone and the
    record of the other service stays; in a keyring with a linked
    keyring that holds a key of that name, [Delete] returns nil and
    [Get] then returns the payload of that key. *)
Lemma keyctl_Delete_then_Get_witness :
  (fst (keyctlProvider.Delete Persistent "svc1" "alice"
          Samples.two_services) = None
   /\ fst (keyctlProvider.Get Persistent "svc1" "alice"
             (snd (keyctlProvider.Delete Persistent "svc1" "alice"
                     Samples.two_services)))
      = ("", Some ErrNotFound)
   /\ fst (keyctlProvider.Get Persistent "svc2" "alice"
             (snd (keyctlProvider.Delete Persistent "svc1" "alice"
                     Samples.two_services)))
      = ("p2", None))
  /\ (fst (keyctlProvider.Delete Persistent "svc" "alice"
             Samples2.with_linked) = None
      /\ fst (keyctlProvider.Get Persistent "svc" "alice"
                (snd (keyctlProvider.Delete Persistent "svc" "alice"
                        Samples2.with_linked)))
         = ("old", None)).
Proof.
  split.
  - assert (HD : keyctlProvider.Delete Persistent "svc1" "alice"
                   Samples.two_services
                 = (None,
                    snd (keyctlProvider.Delete Persistent "svc1" "alice"
                           Samples.two_services)))
      by (vm_compute; reflexivity).
    destruct (keyctl_Delete_then_Get Persistent Samples.two_services _
                "svc1" "alice" RoundTrip.two_services_wf HD)
      as (_ & _ & H1 & H2 & _).
    split; [reflexivity|]. split.
    + now rewrite H1.
    + rewrite (H2 "svc2" "alice") by discriminate. reflexivity.
  - assert (HD : keyctlProvider.Delete Persistent "svc" "alice"
                   Samples2.with_linked
                 = (None,
                    snd (keyctlProvider.Delete Persistent "svc" "alice"
                           Samples2.with_linked)))
      by (vm_compute; reflexivity).
    destruct (keyctl_Delete_then_Get Persistent Samples2.with_linked _
                "svc" "alice" with_linked_wf HD) as (_ & H & _).
    split; [reflexivity|]. now rewrite H.
Defined.

(** X4. [Delete] returns what the unlink returns: an error of the unlink
    is the error of [Delete] (while [Set] and [DeleteAll] drop it).  On
    the kernel keyring, in a keyring the caller may not unlink from,
    [Delete] of a stored record returns EACCES, neither nil nor
    [ErrNotFound], and leaves the keyring as it is. *)
Theorem keyctl_Delete_returns_unlink :
  (forall (W : Type) (U : unix.Syscalls W) (rev : revision)
          (service user : string) (w w1 w2 w3 : W) (id keyID : Z)
          (r : result Z),
      keyctlProvider.resolveKeyring rev w = (Ok id, w1) ->
      unix.KeyctlSearch id "user" (service ++ ":" ++ user) 0 w1
        = (Ok keyID, w2) ->
      unix.KeyctlInt unix.KEYCTL_UNLINK keyID id 0 0 w2 = (r, w3) ->
      keyctlProvider.Delete rev service user w
      = (match r with Ok _ => None | Err err => Some err end, w3))
  /\ (forall (rev : revision) (st : Linux.state) (service user p : string),
      Linux.wf st ->
      keyctlProvider.Get rev service user st = ((p, None), st) ->
      Linux.writable st = false ->
      keyctlProvider.Delete rev service user st
      = (Some (Errno Linux.EACCES), st)).
Proof.
  split.
  - intros W U rev service user w w1 w2 w3 id keyID r Hr Hs Hu.
    unfold keyctlProvider.Delete, fmt.Sprintf_s_colon_s.
    run_with Hr. rewrite Hs, Hu. destruct r; reflexivity.
  - intros rev st service user p Hwf HG Hw.
    apply IsolationFacts.Get_ok_inv in HG as (Hr & Hnul & k & Hf & _);
      [|assumption].
    rewrite KeyctlOnLinux.Delete_run by assumption.
    now rewrite Hnul, Hf, Hw.
Qed.

Lemma keyctl_Delete_returns_unlink_witness :
  keyctlProvider.Delete Persistent "svc" "alice" Samples.read_only
  = (Some (Errno Linux.EACCES), Samples.read_only).
Proof.
  apply (proj2 keyctl_Delete_returns_unlink Persistent Samples.read_only
           "svc" "alice" "pw").
  - apply RoundTrip.flat_wf; repeat constructor; cbn;
      intuition discriminate.
  - reflexivity.
  - reflexivity.
Defined.

(** X5. On the kernel keyring, in every well-formed state: [Set] on one
    name, whether it succeeds or fails, leaves what [Get] returns for
    every other name, and leaves the keyring well-formed. *)
Theorem keyctl_Set_frame :
  forall (rev : revision) (st st' : Linux.state)
         (service user pass service2 user2 : string) (r : option error),
    Linux.wf st ->
    keyctlProvider.Set_ rev service user pass st = (r, st') ->
    service ++ ":" ++ user <> service2 ++ ":" ++ user2 ->
    keyctlProvider.Get rev service2 user2 st'
    = (fst (keyctlProvider.Get rev service2 user2 st), st')
    /\ Linux.wf st'.
Proof.
  intros rev st st' service user pass service2 user2 r Hwf HS Hd.
  split; [|eapply MoreFacts.Set_wf; eassumption].
  rewrite (surjective_pairing (keyctlProvider.Get rev service2 user2 st')).
  rewrite MoreFacts.Get_state. f_equal.
  eapply MoreFacts.Set_other; eassumption.
Qed.

Lemma keyctl_Set_frame_witness :
  keyctlProvider.Get Persistent "svc2" "alice"
    (LinuxSpec.stored "svc1" "alice" "new" Samples.two_services)
  = (("p2", None),
     LinuxSpec.stored "svc1" "alice" "new" Samples.two_services).
Proof.
  apply (keyctl_Set_frame Persistent Samples.two_services
           (LinuxSpec.stored "svc1" "alice" "new" Samples.two_services)
           "svc1" "alice" "new" "svc2" "alice" None
           RoundTrip.two_services_wf eq_refl).
  discriminate.
Defined.

(** X6. [Set] is not atomic.  On the kernel keyring, in a well-formed
    writable keyring in which the record of the pair is a key of the
    keyring itself: a [Set] whose payload the kernel refuses (empty, or
    longer than 32767 bytes) returns EINVAL, and the old key is unlinked
    all the same.  [Get] then returns what a search still finds below
    the keyring: [ErrNotFound] when no linked keyring holds a key of
    that name. *)
Theorem keyctl_Set_refused_loses_record :
  forall (rev : revision) (st : Linux.state) (service user old pass : string)
         (k : Linux.key),
    Linux.wf st ->
    Linux.writable st = true ->
    keyctlProvider.Get rev service user st = ((old, None), st) ->
    In k (Linux.keys st) ->
    Linux.named "user" (service ++ ":" ++ user) k = true ->
    len pass = 0 \/ 32767 < len pass ->
    let st' := snd (keyctlProvider.Set_ rev service user pass st) in
    fst (keyctlProvider.Set_ rev service user pass st)
      = Some (Errno Linux.EINVAL)
    /\ ~ In k (Linux.keys st')
    /\ keyctlProvider.Get rev service user st'
       = (LinuxSpec.answer (LinuxSpec.below service user st), st')
    /\ (LinuxSpec.below service user st = None ->
        keyctlProvider.Get rev service user st'
        = (("", Some ErrNotFound), st')).
Proof.
  intros rev st service user old pass k Hwf Hw HG Hin Hn Hlen st'.
  apply IsolationFacts.Get_ok_inv in HG as (Hr & Hv & _); [|assumption].
  assert (HS : keyctlProvider.Set_ rev service user pass st
               = (Some (Errno Linux.EINVAL),
                  LinuxSpec.purge (service ++ ":" ++ user) st)).
  { rewrite KeyctlOnLinux.Set_writable by assumption.
    replace ((len pass =? 0) || (32767 <? len pass)) with true;
      [reflexivity|].
    symmetry. apply orb_true_iff.
    destruct Hlen as [H|H]; [left; now apply Z.eqb_eq
                            |right; now apply Z.ltb_lt]. }
  subst st'. rewrite HS. cbn [fst snd].
  pose proof (MoreFacts.Get_purged rev st service user Hwf Hr Hv Hw) as HP.
  split; [reflexivity|]. split; [|split; [exact HP|]].
  - rewrite LinuxFacts.purge_keys, Hv, Hw. cbn [orb negb]. intros H.
    apply filter_In in H as [_ H]. rewrite Hn in H. discriminate.
  - intros Hb. now rewrite HP, Hb.
Qed.

Lemma keyctl_Set_refused_loses_record_witness :
  fst (keyctlProvider.Set_ Persistent "svc1" "alice" ""
         Samples.two_services) = Some (Errno Linux.EINVAL)
  /\ keyctlProvider.Get Persistent "svc1" "alice"
       (snd (keyctlProvider.Set_ Persistent "svc1" "alice" ""
               Samples.two_services))
     = (("", Some ErrNotFound),
        snd (keyctlProvider.Set_ Persistent "svc1" "alice" ""
               Samples.two_services)).
Proof.
  destruct (keyctl_Set_refused_loses_record Persistent Samples.two_services
              "svc1" "alice" "p1" ""
              (Linux.mkKey 100 "user" "svc1:alice" "p1")
              RoundTrip.two_services_wf eq_refl eq_refl
              (or_introl eq_refl) eq_refl (or_introl eq_refl))
    as (H1 & _ & _ & H2).
  split; [exact H1 | exact (H2 eq_refl)].
Defined.

(** X7. Whatever the keyctl program prints, and whether or not it runs:
    on the kernel keyring, in every well-formed state, [DeleteAll] adds
    and alters no key, keeps every key whose name does not begin with
    the service and a colon, leaves what [Get] returns for every pair
    with such a name, and leaves the keyring well-formed. *)
Theorem keyctl_DeleteAll_safe :
  forall (rev : revision) (st : Linux.state) (service : string),
    Linux.wf st ->
    let st' := snd (keyctlProvider.DeleteAll rev service st) in
    (forall k, In k (Linux.keys st') -> In k (Linux.keys st))
    /\ (forall k, In k (Linux.keys st) ->
                  LinuxSpec.of_service service k = false ->
                  In k (Linux.keys st'))
    /\ (forall service2 user2,
           strings.HasPrefix (service2 ++ ":" ++ user2) (service ++ ":")
             = false ->
           keyctlProvider.Get rev service2 user2 st'
           = (fst (keyctlProvider.Get rev service2 user2 st), st'))
    /\ Linux.wf st'.
Proof.
  intros rev st service Hwf st'.
  assert (Hwf' : Linux.wf st') by now apply ScrapeFacts.DeleteAll_wf.
  repeat split; try apply Hwf'.
  - intros k. now apply SweepFacts.DeleteAll_sub.
  - intros k. now apply ScrapeFacts.DeleteAll_keeps.
  - intros service2 user2 Hd.
    rewrite (surjective_pairing (keyctlProvider.Get rev service2 user2 st')).
    rewrite MoreFacts.Get_state. f_equal.
    apply MoreFacts.Get_same; try assumption.
    + now apply SweepFacts.DeleteAll_ring_fault.
    + now apply SweepFacts.DeleteAll_find_other.
Qed.

Lemma odd_keyctl_wf : Linux.wf Samples2.odd_keyctl.
Proof.
  apply RoundTrip.flat_wf.
  - repeat constructor; cbn; intuition discriminate.
  - repeat constructor; cbn; intuition discriminate.
  - repeat constructor.
Qed.

(** A program that prints lines of its own: the key of the other
    service is listed and stays. *)
Lemma keyctl_DeleteAll_safe_witness :
  keyctlProvider.Get Session "other" "alice"
    (snd (keyctlProvider.DeleteAll Session "svc" Samples2.odd_keyctl))
  = (("p2", None),
     snd (keyctlProvider.DeleteAll Session "svc" Samples2.odd_keyctl)).
Proof.
  destruct (keyctl_DeleteAll_safe Session Samples2.odd_keyctl "svc"
              odd_keyctl_wf) as (_ & _ & H & _).
  apply (H "other" "alice"). reflexivity.
Defined.

(** X8. [DeleteAll] removes the records of all users of the service at
    once.  On the kernel keyring, in a well-formed writable keyring that
    resolves: let [keyctl show] succeed and print, for every key of the
    service that is linked in the keyring itself, a line that is some
    text without colon, then "user: ", then the name of the key.  Then
    [DeleteAll] of the service, which is not empty, returns nil, and
    afterwards, for every user whose name service:user the system calls
    take, which contains no "user:" and has no white space at its ends,
    [Get] returns what a search still finds below the keyring:
    [ErrNotFound] when no linked keyring holds a key of that name. *)
Theorem keyctl_DeleteAll_all_users :
  forall (rev : revision) (st : Linux.state) (service output : string),
    Linux.wf st ->
    service <> "" ->
    Linux.ring_fault st = None ->
    Linux.writable st = true ->
    Linux.keyctl st ["show"; keyctlProvider.showArgument rev (Linux.ring st)]
                 (Linux.all st) = Ok output ->
    (forall k, In k (Linux.keys st) ->
               LinuxSpec.of_service service k = true ->
               exists pre,
                 strings.Contains pre ":" = false
                 /\ In (pre ++ "user: " ++ Linux.description k)
                       (strings.Split output LF)) ->
    let st' := snd (keyctlProvider.DeleteAll rev service st) in
    fst (keyctlProvider.DeleteAll rev service st) = None
    /\ forall user,
         Linux.refused (service ++ ":" ++ user) = false ->
         strings.Contains (service ++ ":" ++ user) "user:" = false ->
         strings.TrimSpace (service ++ ":" ++ user)
           = service ++ ":" ++ user ->
         keyctlProvider.Get rev service user st'
         = (LinuxSpec.answer (LinuxSpec.below service user st), st')
         /\ (LinuxSpec.below service user st = None ->
             keyctlProvider.Get rev service user st'
             = (("", Some ErrNotFound), st')).
Proof.
  intros rev st service output Hwf Hne Hr Hw Hout Hlist st'.
  assert (Hrun : keyctlProvider.DeleteAll rev service st
                 = (None,
                    LinuxSpec.purge_all
                      (scrape service (strings.Split output LF)) st)).
  { now rewrite ScrapeFacts.DeleteAll_run, Hr, Hout by assumption. }
  subst st'. rewrite Hrun. cbn [fst snd].
  split; [reflexivity|]. intros user Hv Hmark Htrim.
  set (targets := scrape service (strings.Split output LF)).
  assert (HG : keyctlProvider.Get rev service user
                 (LinuxSpec.purge_all targets st)
               = (LinuxSpec.answer (LinuxSpec.below service user st),
                  LinuxSpec.purge_all targets st)).
  { rewrite KeyctlOnLinux.Get_run;
      [|now apply LinuxFacts.purge_all_wf
       |now rewrite LinuxFacts.purge_all_ring_fault].
    rewrite Hv, Isolation.find_all_swept.
    replace (find _ (Linux.keys (LinuxSpec.purge_all targets st)))
      with (@None Linux.key); [reflexivity|].
    symmetry. apply find_none_iff. intros k Hk.
    apply not_true_is_false. intros Hn.
    refine (LinuxFacts.purge_all_removes targets st k _ Hw Hv _ Hn Hk).
    apply LinuxFacts.In_purge_all in Hk.
    pose proof Hn as Hn'. unfold Linux.named in Hn'.
    apply andb_true_iff in Hn' as [Hty Hd].
    apply String.eqb_eq in Hd.
    assert (Hpfx : strings.HasPrefix (service ++ ":" ++ user)
                                     (service ++ ":") = true).
    { rewrite <- append_assoc'. apply IsolationFacts.HasPrefix_append. }
    destruct (Hlist k Hk) as (pre & Hpre & Hline).
    { unfold LinuxSpec.of_service. now rewrite Hty, Hd, Hpfx. }
    eapply ScrapeFacts.scrape_In; [exact Hline|].
    rewrite Hd. now apply ScrapeFacts.scrapeLine_listed. }
  split; [exact HG|]. intros Hb. now rewrite HG, Hb.
Qed.

Lemma three_users_wf : Linux.wf Samples2.three_users.
Proof.
  apply RoundTrip.flat_wf.
  - repeat constructor; cbn; intuition discriminate.
  - repeat constructor; cbn; intuition discriminate.
  - repeat constructor.
Qed.

(** The three users of "svc", with the program as installed. *)
Lemma keyctl_DeleteAll_all_users_witness :
  fst (keyctlProvider.DeleteAll Session "svc" Samples2.three_users) = None
  /\ keyctlProvider.Get Session "svc" "user3"
       (snd (keyctlProvider.DeleteAll Session "svc" Samples2.three_users))
     = (("", Some ErrNotFound),
        snd (keyctlProvider.DeleteAll Session "svc" Samples2.three_users)).
Proof.
  assert (Hne : "svc"%string <> ""%string) by discriminate.
  destruct (keyctl_DeleteAll_all_users Session Samples2.three_users "svc"
              (Linux.keyctl_show (Linux.all Samples2.three_users))
              three_users_wf Hne eq_refl eq_refl eq_refl) as [H0 H].
  - intros k Hk _. exists (line_head k). split.
    + apply Listing.line_head_no_colon.
    + repeat (destruct Hk as [<-|Hk]; [vm_compute; tauto|]).
      contradiction.
  - split; [exact H0|].
    destruct (H "user3" eq_refl eq_refl eq_refl) as [_ HG].
    exact (HG eq_refl).
Defined.

(** X9. No session is left open.  For every implementation of the Secret
    Service calls and from every world: the sessions that [Set] and
    [Get] open are the sessions they close, in the same order, on every
    path, the failing ones included; [Delete] and [DeleteAll] open and
    close none. *)
Theorem ss_sessions_closed :
  forall (W : Type) (SS : ss.SecretService W)
         (service user pass : string) (w : W),
    let T := Traced.secret_service SS in
    let set := Traced.log
                 (secretServiceProvider.Set_ (SS := T) service user pass) w in
    let get := Traced.log
                 (secretServiceProvider.Get (SS := T) service user) w in
    let del := Traced.log
                 (secretServiceProvider.Delete (SS := T) service user) w in
    let all := Traced.log
                 (secretServiceProvider.DeleteAll (SS := T) service) w in
    Traced.opened set = Traced.closed set
    /\ Traced.opened get = Traced.closed get
    /\ Traced.opened del = [] /\ Traced.closed del = []
    /\ Traced.opened all = [] /\ Traced.closed all = [].
Proof.
  intros W SS service user pass w. cbv zeta.
  destruct (TracedFacts.Set_log SS service user pass w) as (Hs & _).
  destruct (TracedFacts.Get_log SS service user w) as (Hg & _).
  destruct (TracedFacts.Delete_log SS service user w) as (Hd1 & Hd2 & _).
  destruct (TracedFacts.DeleteAll_log SS service w) as (Ha1 & Ha2 & _).
  repeat split; assumption.
Qed.

(** X10. What each method writes.  For every implementation of the
    Secret Service calls and from every world: [Set] deletes no item and
    creates items only with the attributes username = user and
    service = service; [Get] creates and deletes nothing; [Delete] and
    [DeleteAll] create nothing. *)
Theorem ss_writes :
  forall (W : Type) (SS : ss.SecretService W)
         (service user pass : string) (w : W),
    let T := Traced.secret_service SS in
    let set := Traced.log
                 (secretServiceProvider.Set_ (SS := T) service user pass) w in
    let get := Traced.log
                 (secretServiceProvider.Get (SS := T) service user) w in
    let del := Traced.log
                 (secretServiceProvider.Delete (SS := T) service user) w in
    let all := Traced.log
                 (secretServiceProvider.DeleteAll (SS := T) service) w in
    Traced.deleted set = []
    /\ Forall (eq [("username", user); ("service", service)])
              (Traced.created set)
    /\ Traced.created get = [] /\ Traced.deleted get = []
    /\ Traced.created del = []
    /\ Traced.created all = [].
Proof.
  intros W SS service user pass w. cbv zeta.
  destruct (TracedFacts.Set_log SS service user pass w) as (_ & Hs1 & _ & Hs2).
  destruct (TracedFacts.Get_log SS service user w) as (_ & Hg1 & Hg2 & _).
  destruct (TracedFacts.Delete_log SS service user w) as (_ & _ & Hd & _).
  destruct (TracedFacts.DeleteAll_log SS service w) as (_ & _ & Ha & _).
  repeat split; assumption.
Qed.

(** X11. First match only.  For every implementation of the Secret
    Service calls and from every world: [Get] reads the secret of no
    item but the first result of its search; [Delete] deletes nothing,
    or the first result of its search and nothing else; [DeleteAll]
    deletes nothing, or, in search order, results of its one search
    from the first on. *)
Theorem ss_first_match :
  forall (W : Type) (SS : ss.SecretService W) (service user : string) (w : W),
    let T := Traced.secret_service SS in
    let get := Traced.log
                 (secretServiceProvider.Get (SS := T) service user) w in
    let del := Traced.log
                 (secretServiceProvider.Delete (SS := T) service user) w in
    let all := Traced.log
                 (secretServiceProvider.DeleteAll (SS := T) service) w in
    (forall item session,
        In (Traced.GetSecret item session) get ->
        exists rest, Traced.found get = [item :: rest])
    /\ (Traced.deleted del = []
        \/ exists first rest,
             Traced.found del = [first :: rest]
             /\ Traced.deleted del = [first])
    /\ (Traced.deleted all = []
        \/ exists rest,
             Traced.found all = [(Traced.deleted all ++ rest)%list]).
Proof.
  intros W SS service user w. cbv zeta.
  destruct (TracedFacts.Get_log SS service user w) as (_ & _ & _ & Hg).
  destruct (TracedFacts.Delete_log SS service user w) as (_ & _ & _ & Hd).
  destruct (TracedFacts.DeleteAll_log SS service w) as (_ & _ & _ & Ha).
  repeat split; assumption.
Qed.

(** X12. Errors of the daemon are returned as they are.  For every
    implementation of the Secret Service calls: when the connection
    fails, [Set], [Get], [Delete] and [DeleteAll] of a non-empty service
    return its error and call nothing else; when the login collection
    does not unlock, [Get] and [Delete] return the error of the unlock,
    and [DeleteAll] returns it unless it is [ErrNotFound] itself, for
    which it returns nil. *)
Theorem ss_errors_returned :
  forall (W : Type) (SS : ss.SecretService W)
         (service user pass : string) (w : W),
    (forall e w1,
        ss.NewSecretService w = (Err e, w1) ->
        secretServiceProvider.Set_ service user pass w = (Some e, w1)
        /\ secretServiceProvider.Get service user w = (("", Some e), w1)
        /\ secretServiceProvider.Delete service user w = (Some e, w1)
        /\ (service <> "" ->
            secretServiceProvider.DeleteAll service w = (Some e, w1)))
    /\ (forall svc w1 e w2,
        ss.NewSecretService w = (Ok svc, w1) ->
        ss.Unlock svc (ss.GetLoginCollection svc) w1 = (Some e, w2) ->
        secretServiceProvider.Get service user w = (("", Some e), w2)
        /\ secretServiceProvider.Delete service user w = (Some e, w2)
        /\ (service <> "" ->
            secretServiceProvider.DeleteAll service w
            = (if error_eqb e ErrNotFound then None else Some e, w2))).
Proof.
  intros W SS service user pass w. split.
  - intros e w1 Hn.
    unfold secretServiceProvider.Set_, secretServiceProvider.Get,
      secretServiceProvider.Delete, secretServiceProvider.DeleteAll.
    run_with Hn. repeat split. intros Hne.
    apply String.eqb_neq in Hne. now rewrite Hne, Hn.
  - intros svc w1 e w2 Hn Hu.
    unfold secretServiceProvider.Get, secretServiceProvider.Delete,
      secretServiceProvider.DeleteAll, secretServiceProvider.findItem,
      secretServiceProvider.findServiceItems.
    run_with Hn. rewrite Hu. cbn [fst snd]. repeat split. intros Hne.
    apply String.eqb_neq in Hne. rewrite Hne, Hn, Hu.
    destruct (error_eqb e ErrNotFound); reflexivity.
Qed.

Lemma ss_errors_returned_witness :
  secretServiceProvider.Get "svc" "alice" Samples.daemon_down
  = (("", Some (errorString "dbus: the session bus is not available")),
     Samples.daemon_down).
Proof.
  destruct (proj1 (ss_errors_returned Daemon.state Daemon.secret_service
                     "svc" "alice" "pw" Samples.daemon_down)
              (errorString "dbus: the session bus is not available")
              Samples.daemon_down eq_refl) as (_ & H & _).
  exact H.
Defined.

(** X14. [init] of keyring_unix.go after [init] of keyring_keyctl.go,
    the daemon not answering: the provider is the composite, and as long
    as the daemon does not answer every operation is the operation of
    [keyctlProvider], run in the world the failed connection left.
    [DeleteAll] of the empty service returns [ErrNotFound] and changes
    nothing.  Without the [init] of keyring_keyctl.go the provider is
    [secretServiceProvider] alone. *)
Theorem init_daemon_down :
  forall (W : Type) (SS : ss.SecretService W) (U : unix.Syscalls W)
         (E : exec.Commands W) (CloseNil : ss.Conn -> M W (option error))
         (rev : revision) (v0 : vars.t W) (w w1 : W) (e : error),
    ss.NewSecretService w = (Err e, w1) ->
    let r := keyring_unix.init CloseNil (keyring_keyctl.init rev v0) w in
    let p := vars.provider (fst r) in
    snd r = w1
    /\ (forall service user pass w2 e2 w3,
          ss.NewSecretService w2 = (Err e2, w3) ->
          Keyring.Set_ p service user pass w2
          = keyctlProvider.Set_ rev service user pass w3
          /\ Keyring.Get p service user w2
             = keyctlProvider.Get rev service user w3
          /\ Keyring.Delete p service user w2
             = keyctlProvider.Delete rev service user w3
          /\ (service <> "" ->
              Keyring.DeleteAll p service w2
              = keyctlProvider.DeleteAll rev service w3))
    /\ (forall w2, Keyring.DeleteAll p "" w2 = (Some ErrNotFound, w2))
    /\ (forall q,
          vars.provider
            (fst (keyring_unix.init CloseNil
                    (vars.Build keyring_unix.getFallbackProvider q) w))
          = secretServiceProvider.keyring).
Proof.
  intros W SS U E CloseNil rev v0 w w1 e Hn r p. subst p r.
  unfold keyring_unix.init, keyring_keyctl.init. run_with Hn. cbn.
  repeat split.
  - cbv [compositeProvider.Set_ compositeProvider.primary
           compositeProvider.fallback secretServiceProvider.keyring
           Keyring.Set_ secretServiceProvider.Set_ bind ret].
    now rewrite H.
  - cbv [compositeProvider.Get compositeProvider.primary
           compositeProvider.fallback secretServiceProvider.keyring
           Keyring.Get secretServiceProvider.Get bind ret].
    now rewrite H.
  - cbv [compositeProvider.Delete compositeProvider.primary
           compositeProvider.fallback secretServiceProvider.keyring
           Keyring.Delete secretServiceProvider.Delete bind ret].
    now rewrite H.
  - intros Hne. apply String.eqb_neq in Hne.
    cbv [compositeProvider.DeleteAll compositeProvider.primary
           compositeProvider.fallback secretServiceProvider.keyring
           Keyring.DeleteAll secretServiceProvider.DeleteAll bind ret].
    now rewrite Hne, H.
Qed.

Lemma init_daemon_down_witness :
  Keyring.Get
    (vars.provider
       (fst (keyring_unix.init Samples2.close_nil
               (keyring_keyctl.init Persistent Samples2.vars0)
               Samples.host_down)))
    "svc" "alice" Samples.host_down
  = keyctlProvider.Get Persistent "svc" "alice" Samples.host_down.
Proof.
  destruct (init_daemon_down Host.state Host.secret_service Host.syscalls
              Host.commands Samples2.close_nil Persistent Samples2.vars0
              Samples.host_down Samples.host_down
              (errorString "dbus: the session bus is not available")
              eq_refl) as (_ & H & _).
  destruct (H "svc" "alice" "pw" Samples.host_down
              (errorString "dbus: the session bus is not available")
              Samples.host_down eq_refl) as (_ & G & _).
  exact G.
Defined.

(** X15. The composite with a daemon that answers and holds nothing.
    For every implementation of the Secret Service calls and every
    fallback: when the search finds no item, [Get] and [Delete] of the
    composite are those of the fallback ([ErrNotFound] of the primary
    counts as its failure), but [DeleteAll] of a non-empty service
    returns nil and never runs the fallback, because the primary turns
    its own [ErrNotFound] into nil. *)
Theorem composite_daemon_empty :
  forall (W : Type) (SS : ss.SecretService W) (fb : Keyring.t W)
         (service user : string) (w w1 w2 : W) (svc : ss.Conn),
    let c := compositeProvider.Build secretServiceProvider.keyring
                                     (Some fb) in
    ss.NewSecretService w = (Ok svc, w1) ->
    ss.Unlock svc (ss.GetLoginCollection svc) w1 = (None, w2) ->
    (forall w3,
        ss.SearchItems svc (ss.GetLoginCollection svc)
          [("username", user); ("service", service)] w2 = (Ok [], w3) ->
        compositeProvider.Get c service user w
        = Keyring.Get fb service user w3
        /\ compositeProvider.Delete c service user w
           = Keyring.Delete fb service user w3)
    /\ (forall w3,
        service <> "" ->
        ss.SearchItems svc (ss.GetLoginCollection svc)
          [("service", service)] w2 = (Ok [], w3) ->
        compositeProvider.DeleteAll c service w = (None, w3)).
Proof.
  intros W SS fb service user w w1 w2 svc c Hn Hu. split.
  - intros w3 Hs. split.
    + eapply composite_Get_fallback; [|reflexivity].
      exact (ss_Get_none service user w svc w1 w2 w3 Hn Hu Hs).
    + eapply composite_Delete_fallback; [|reflexivity].
      exact (ss_Delete_none service user w svc w1 w2 w3 Hn Hu Hs).
  - intros w3 Hne Hs.
    apply composite_DeleteAll_primary; [|now left].
    exact (ss_DeleteAll_none service w svc w1 w2 w3 Hne Hn Hu Hs).
Qed.

(** The daemon answers and is empty; the keys of the kernel keyring
    stay, and [DeleteAll] returns nil. *)
Lemma composite_daemon_empty_witness :
  compositeProvider.DeleteAll Host.provider "svc1" Samples2.host_idle
  = (None, Samples2.host_idle).
Proof.
  assert (Hne : "svc1"%string <> ""%string) by discriminate.
  destruct (composite_daemon_empty Host.state Host.secret_service
              (keyctlProvider.keyring Persistent) "svc1" "alice"
              Samples2.host_idle Samples2.host_idle Samples2.host_idle tt
              eq_refl eq_refl) as [_ H].
  exact (H Samples2.host_idle Hne eq_refl).
Defined.

(** X16. The first revision of [keyctlProvider] (package
    jsipprell/keyctl), for every implementation of the package: an error
    of [SessionKeyring] is returned as it is by all four methods
    ([DeleteAll] of a non-empty service); whatever error the search
    returns, [Get] and [Delete] return [ErrNotFound] and [Set] goes on
    to add the key; [Set] drops the result of the unlink of the old key;
    [DeleteAll] returns nil when the keyctl program fails. *)
Theorem keyctl0_errors :
  forall (W : Type) (L : keyctl.Lib W) (E : exec.Commands W)
         (service user pass : string) (w : W),
    (forall e w1,
        keyctl.SessionKeyring w = (Err e, w1) ->
        keyctlProvider0.Set_ service user pass w = (Some e, w1)
        /\ keyctlProvider0.Get service user w = (("", Some e), w1)
        /\ keyctlProvider0.Delete service user w = (Some e, w1)
        /\ (service <> "" ->
            keyctlProvider0.DeleteAll service w = (Some e, w1)))
    /\ (forall kr w1 e w2,
        keyctl.SessionKeyring w = (Ok kr, w1) ->
        keyctl.Search kr (service ++ ":" ++ user) w1 = (Err e, w2) ->
        keyctlProvider0.Get service user w = (("", Some ErrNotFound), w2)
        /\ keyctlProvider0.Delete service user w = (Some ErrNotFound, w2)
        /\ keyctlProvider0.Set_ service user pass w
           = (KeyctlLib.drop
                (fst (keyctl.Add kr (service ++ ":" ++ user) pass w2)),
              snd (keyctl.Add kr (service ++ ":" ++ user) pass w2)))
    /\ (forall kr w1 key w2 r w3,
        keyctl.SessionKeyring w = (Ok kr, w1) ->
        keyctl.Search kr (service ++ ":" ++ user) w1 = (Ok key, w2) ->
        keyctl.Unlink key w2 = (r, w3) ->
        keyctlProvider0.Set_ service user pass w
        = (KeyctlLib.drop
             (fst (keyctl.Add kr (service ++ ":" ++ user) pass w3)),
           snd (keyctl.Add kr (service ++ ":" ++ user) pass w3))
        /\ keyctlProvider0.Delete service user w = (r, w3))
    /\ (forall kr w1 e w2,
        service <> "" ->
        keyctl.SessionKeyring w = (Ok kr, w1) ->
        exec.CombinedOutput "keyctl" ["show"; "@s"] w1 = (Err e, w2) ->
        keyctlProvider0.DeleteAll service w = (None, w2)).
Proof.
  intros W L E service user pass w.
  unfold keyctlProvider0.Set_, keyctlProvider0.Get, keyctlProvider0.Delete,
    keyctlProvider0.DeleteAll, fmt.Sprintf_s_colon_s.
  split; [|split; [|split]].
  - intros e w1 Hk. run_with Hk. repeat split.
    intros Hne. apply String.eqb_neq in Hne. now rewrite Hne, Hk.
  - intros kr w1 e w2 Hk Hs. run_with Hk. rewrite Hs. cbn [fst snd].
    repeat split.
    destruct (keyctl.Add kr _ pass w2) as [[k|e'] w3]; reflexivity.
  - intros kr w1 key w2 r w3 Hk Hs Hu. run_with Hk. rewrite Hs.
    cbn [fst snd]. rewrite Hu. cbn [fst snd]. split; [|reflexivity].
    destruct (keyctl.Add kr _ pass w3) as [[k|e'] w4]; reflexivity.
  - intros kr w1 e w2 Hne Hk Hc.
    apply String.eqb_neq in Hne. rewrite Hne. run_with Hk. now rewrite Hc.
Qed.

Lemma keyctl0_errors_witness :
  keyctlProvider0.Get "svc" "alice" Samples2.no_ring
  = (("", Some (Errno 38)), Samples2.no_ring).
Proof.
  destruct (proj1 (keyctl0_errors Linux.state KeyctlLib.lib Linux.commands
                     "svc" "alice" "pw" Samples2.no_ring)
              (Errno 38) Samples2.no_ring eq_refl) as (_ & H & _).
  exact H.
Defined.

(** ** keyctlProvider and linked keyrings *)

(** X17. A record that is found only below the keyring, in a keyring
    linked into it.  On the kernel keyring, in a well-formed writable
    keyring that resolves: [Get] returns its payload; [Delete] returns
    ENOENT, not nil and not [ErrNotFound], and changes nothing, because
    the unlink removes links of the keyring itself only.  A [Set] that
    succeeds links a new key in the keyring itself, which [Get] then
    returns; the [Delete] that follows unlinks that key and returns
    nil, and [Get] returns the payload of the key below again. *)
Theorem keyctl_record_below :
  forall (rev : revision) (st : Linux.state) (service user : string)
         (k : Linux.key),
    Linux.wf st ->
    Linux.ring_fault st = None ->
    Linux.writable st = true ->
    Linux.refused (service ++ ":" ++ user) = false ->
    find (Linux.named "user" (service ++ ":" ++ user)) (Linux.keys st)
      = None ->
    LinuxSpec.below service user st = Some k ->
    keyctlProvider.Get rev service user st = ((Linux.payload k, None), st)
    /\ keyctlProvider.Delete rev service user st
       = (Some (Errno Linux.ENOENT), st)
    /\ (forall pass st1,
          keyctlProvider.Set_ rev service user pass st = (None, st1) ->
          let st2 := snd (keyctlProvider.Delete rev service user st1) in
          keyctlProvider.Get rev service user st1 = ((pass, None), st1)
          /\ fst (keyctlProvider.Delete rev service user st1) = None
          /\ keyctlProvider.Get rev service user st2
             = ((Linux.payload k, None), st2)).
Proof.
  intros rev st service user k Hwf Hr Hw Hv Hd Hb.
  unfold LinuxSpec.below in Hb.
  split; [|split].
  - rewrite KeyctlOnLinux.Get_run, Hv by assumption.
    now rewrite (LinuxFacts.find_all_below _ _ _ Hd), Hb.
  - rewrite KeyctlOnLinux.Delete_run, Hv by assumption.
    now rewrite (LinuxFacts.find_all_below _ _ _ Hd), Hb, Hw, Hd.
  - intros pass st1 HS st2. subst st2.
    pose proof (RoundTrip.Set_Get _ _ _ _ _ _ Hwf HS) as HG.
    apply KeyctlOnLinux.Set_ok in HS as (_ & _ & _ & _ & ->);
      [|assumption].
    pose proof (KeyctlOnLinux.stored_wf st service user pass Hwf) as Hwf1.
    split; [exact HG|].
    rewrite KeyctlOnLinux.Delete_run by assumption.
    rewrite Hv.
    rewrite (LinuxFacts.find_all_direct _ _ _ _
               (KeyctlOnLinux.stored_find st service user pass)).
    cbn [LinuxSpec.stored Linux.writable]. rewrite Hw.
    rewrite (KeyctlOnLinux.stored_find st service user pass).
    cbn [fst snd]. split; [reflexivity|].
    rewrite MoreFacts.Get_purged; try assumption.
    unfold LinuxSpec.below, Linux.links.
    cbn [LinuxSpec.stored Linux.linked].
    fold (Linux.links st). now rewrite Hb.
Qed.

(** The record of "bob" is found below the keyring only. *)
Lemma keyctl_record_below_witness :
  keyctlProvider.Get Persistent "svc" "bob" Samples2.with_linked
  = (("pw", None), Samples2.with_linked)
  /\ keyctlProvider.Delete Persistent "svc" "bob" Samples2.with_linked
     = (Some (Errno Linux.ENOENT), Samples2.with_linked).
Proof.
  destruct (keyctl_record_below Persistent Samples2.with_linked "svc" "bob"
              (Linux.mkKey 61 "user" "svc:bob" "pw")
              with_linked_wf eq_refl eq_refl eq_refl eq_refl eq_refl)
    as (H1 & H2 & _).
  split; assumption.
Defined.

(** X18. When [Set] succeeds.  On the kernel keyring, in a well-formed
    writable keyring that resolves: if the system calls take the name
    service:user (no NUL byte, fewer than 4096 bytes), the payload has
    between 1 and 32767 bytes, and the quota of the owner covers one
    more key with the bytes of the name, one byte and the bytes of the
    payload, then [Set] returns nil; afterwards [Get] returns the
    payload, the keyring itself holds one key of that name, and it is
    well-formed. *)
Theorem keyctl_Set_stores :
  forall (rev : revision) (st : Linux.state) (service user pass : string),
    Linux.wf st ->
    Linux.ring_fault st = None ->
    Linux.writable st = true ->
    Linux.refused (service ++ ":" ++ user) = false ->
    0 < len pass <= 32767 ->
    LinuxSpec.covered service user pass st = true ->
    let st' := snd (keyctlProvider.Set_ rev service user pass st) in
    fst (keyctlProvider.Set_ rev service user pass st) = None
    /\ keyctlProvider.Get rev service user st' = ((pass, None), st')
    /\ LinuxSpec.count_named (service ++ ":" ++ user) st' = 1%nat
    /\ Linux.wf st'.
Proof.
  intros rev st service user pass Hwf Hr Hw Hv Hlen Hq st'. subst st'.
  rewrite (KeyctlOnLinux.Set_succeeds rev st service user pass)
    by assumption.
  cbn [fst snd]. split; [reflexivity|]. split; [|split].
  - now apply KeyctlOnLinux.Get_stored.
  - apply RoundTrip.stored_count.
  - now apply KeyctlOnLinux.stored_wf.
Qed.

(** A payload of binary bytes, in a keyring with a linked keyring that
    holds a key of the same name. *)
Lemma keyctl_Set_stores_witness :
  fst (keyctlProvider.Set_ Session "svc" "alice" Samples.binary
         Samples2.with_linked) = None
  /\ keyctlProvider.Get Session "svc" "alice"
       (snd (keyctlProvider.Set_ Session "svc" "alice" Samples.binary
               Samples2.with_linked))
     = ((Samples.binary, None),
        snd (keyctlProvider.Set_ Session "svc" "alice" Samples.binary
               Samples2.with_linked)).
Proof.
  destruct (keyctl_Set_stores Session Samples2.with_linked "svc" "alice"
              Samples.binary with_linked_wf eq_refl eq_refl eq_refl)
    as (H1 & H2 & _).
  - vm_compute. split; [reflexivity | discriminate].
  - reflexivity.
  - split; assumption.
Defined.
